From Stdlib Require Import String Ascii List Arith Lia Bool QArith DecimalString.
From ITree Require Import ITree ITreeFacts Events.Exception.
Import ListNotations.
Import ITreeNotations.
Local Close Scope Q_scope.
Local Open Scope string_scope.
Local Open Scope nat_scope.
Local Open Scope itree_scope.

Set Implicit Arguments.
Set Warnings "-register-all".

(* ===================================================================== *)
(** * Python values and exceptions shared by the notebooks                *)
(* ===================================================================== *)

Module Py.

(** The exceptions the notebooks can observe.  [ClientError code] is
    botocore's [ClientError] with [e.response["Error"]["Code"] = code]. *)
Inductive exn : Type :=
| ClientError (code : string)
| NameError (name : string)
| KeyError (key : string)
| IndexError
| ValueError (msg : string)
| OtherError (cls msg : string).

(** [s[n:]] *)
Fixpoint slice_from (n : nat) (s : string) : string :=
  match n, s with
  | 0, _ => s
  | S _, EmptyString => EmptyString
  | S n', String _ s' => slice_from n' s'
  end.

Fixpoint starts_with (p s : string) : bool :=
  match p, s with
  | EmptyString, _ => true
  | String _ _, EmptyString => false
  | String a p', String b s' => Ascii.eqb a b && starts_with p' s'
  end.

(** [s.replace(old, new)] for a non-empty [old]: occurrences are replaced
    left to right and do not overlap.  [skip] counts the characters of a
    matched occurrence that are still to be dropped. *)
Fixpoint replace_from (old new : string) (skip : nat) (s : string) : string :=
  match s with
  | EmptyString => EmptyString
  | String c s' =>
      match skip with
      | S k => replace_from old new k s'
      | 0 =>
          if starts_with old s
          then new ++ replace_from old new (String.length old - 1) s'
          else String c (replace_from old new 0 s')
      end
  end.

(** [s.replace(old, new)]; with an empty [old] Python puts [new] before
    every character and at the end. *)
Fixpoint replace_empty (new s : string) : string :=
  match s with
  | EmptyString => new
  | String c s' => new ++ String c (replace_empty new s')
  end.

Definition replace (old new s : string) : string :=
  match old with
  | EmptyString => replace_empty new s
  | _ => replace_from old new 0 s
  end.

(** [str(n)], and [f"{n}"], for a non-negative integer. *)
Definition str_of_nat (n : nat) : string := NilZero.string_of_uint (Nat.to_uint n).

(** The values [f] finds in a list, in order. *)
Fixpoint pick {A B} (f : A -> option B) (l : list A) : list B :=
  match l with
  | [] => []
  | x :: l' =>
      match f x with
      | Some y => y :: pick f l'
      | None => pick f l'
      end
  end.

End Py.

(* ===================================================================== *)
(** * Programs that call the platform: interaction trees and their runs   *)
(* ===================================================================== *)

Module Run.
Import Py.

Section Calls.

(** [call] lists the operations a notebook performs on its environment,
    [val c] is what operation [c] returns when it does not raise. *)
Variable call : Type.
Variable val : call -> Type.

Variant callE : Type -> Type :=
| Call (c : call) : callE (exn + val c).

Definition pyE : Type -> Type := exceptE exn +' callE.

(** A Python computation returning an [R]. *)
Definition py (R : Type) : Type := itree pyE R.

(** [raise e] *)
Definition raise {R} (e : exn) : py R :=
  Vis (inl1 (Throw e)) (fun v : void => match v with end).

(** A call inside a [try]: the exception, if any, is handed to the caller. *)
Definition try_call (c : call) : py (exn + val c) :=
  ITree.trigger (inr1 (Call c)).

(** A call outside any [try]: an exception propagates. *)
Definition invoke (c : call) : py (val c) :=
  r <- try_call c ;;
  match r with
  | inl e => raise e
  | inr v => Ret v
  end.

(** [for x in xs: body x], threading the loop-carried variables [acc]. *)
Fixpoint for_each {A S} (xs : list A) (body : A -> S -> py S) (acc : S) : py S :=
  match xs with
  | [] => Ret acc
  | x :: xs' => acc' <- body x acc ;; for_each xs' body acc'
  end.

(** ** Running a program against a world *)

Inductive outcome (R : Type) : Type :=
| Done (r : R)
| Raised (e : exn)
| OutOfFuel.
Arguments Raised {R} e.
Arguments OutOfFuel {R}.

Variable W : Type.
Variable handle : forall c : call, W -> W * (exn + val c).

(** What a run leaves behind: each call with the outcome the world gave it. *)
Definition event : Type := { c : call & (exn + val c)%type }.

Definition call_of (ev : event) : call := projT1 ev.

Record result (R : Type) : Type := Result {
  final : W;             (* the world after the run *)
  trace : list event;    (* the calls performed, in order *)
  out : outcome R;
  left : nat             (* fuel not used *)
}.

Definition calls {R} (r : result R) : list call := List.map call_of (trace r).

(** Every call and every silent step costs one unit of fuel. *)
Fixpoint run {R} (fuel : nat) (t : py R) (w : W) : result R :=
  match observe t with
  | RetF r => Result w [] (Done r) fuel
  | TauF t' =>
      match fuel with
      | 0 => Result w [] OutOfFuel 0
      | S f => run f t' w
      end
  | VisF e k =>
      match e with
      | inl1 (Throw ex) => Result w [] (Raised ex) fuel
      | inr1 ce =>
          match ce in callE X return (X -> py R) -> result R with
          | Call c => fun k' =>
              match fuel with
              | 0 => Result w [] OutOfFuel 0
              | S f =>
                  let (w1, x) := handle c w in
                  let r := run f (k' x) w1 in
                  Result (final r) (existT _ c x :: trace r) (out r) (left r)
              end
          end k
      end
  end.

(** A bind runs its first part, then the continuation on what is left of
    the fuel; an exception or the end of the fuel stops the whole. *)
Definition then_run {A R} (r1 : result A) (k : A -> py R) : result R :=
  match out r1 with
  | Done a =>
      let r2 := run (left r1) (k a) (final r1) in
      Result (final r2) (trace r1 ++ trace r2) (out r2) (left r2)
  | Raised e => Result (final r1) (trace r1) (Raised e) (left r1)
  | OutOfFuel => Result (final r1) (trace r1) OutOfFuel (left r1)
  end.

End Calls.

Arguments Raised {R} e.
Arguments OutOfFuel {R}.
Arguments Call {call val} c.
Arguments raise {call val R} e.
Arguments try_call {call val} c.
Arguments invoke {call val} c.

(** A result with one more event in front. *)
Definition after_event {call} {val : call -> Type} {W R}
  (ev : event val) (r : result val W R) : result val W R :=
  Result (final r) (ev :: trace r) (out r) (left r).

(** ** Assertions on histories

    [triple I P t Q]: in every world and with any fuel, if the history so
    far satisfies [P], then the history extended by the events of [t]
    satisfies [I], and satisfies [Q a] when [t] returns [a]. *)
Definition triple {call} {val : call -> Type}
  (I P : list (event val) -> Prop) {R} (t : py val R)
  (Q : R -> list (event val) -> Prop) : Prop :=
  forall (W : Type) (handle : forall c : call, W -> W * (exn + val c))
         (fuel : nat) (w : W) (h0 : list (event val)),
    P h0 ->
    let r := run handle fuel t w in
    I (h0 ++ trace r)%list /\ forall a, out r = Done a -> Q a (h0 ++ trace r)%list.

End Run.

(* ===================================================================== *)
(** * Asynchronous inference notebook                                     *)
(* ===================================================================== *)

Module AsyncInference.
Import Py Run.

(** The six fields of [urllib.parse.urlparse]'s result. *)
Record ParseResult : Type := {
  scheme : string; netloc : string; path : string;
  params : string; query : string; fragment : string
}.

(** [sagemaker.model.Model(name=, image_uri=, model_data=, role=,
    predictor_cls=Predictor)] *)
Record Model : Type := {
  name : string; image_uri : string; model_data : string; role : string
}.

Record AsyncInferenceConfig : Type := {
  output_path : string;
  max_concurrent_invocations_per_instance : nat
}.

(** The predictor [deploy] hands back; the world names it. *)
Record Predictor : Type := { endpoint : string }.

Record ScalingPolicy : Type := {
  PolicyName : string; ServiceNamespace : string; ResourceId : string;
  ScalableDimension : string; PolicyType : string;
  TargetValue : Q;
  MetricName : string; Namespace : string;
  Dimensions : list (string * string);
  Statistic : string;
  ScaleInCooldown : nat; ScaleOutCooldown : nat
}.

(** The operations the notebook performs on its environment. *)
Inductive call : Type :=
| Shell (cmd : string)
| RegionName
| GetExecutionRole
| DefaultBucket
| Print (msg : string)
| UploadFileobj (file bucket key : string)
| ImageUrisRetrieve (region framework version : string)
| Now (fmt : string)
| Deploy (m : Model) (cfg : AsyncInferenceConfig) (instance_type : string)
         (initial_instance_count : nat) (endpoint_name : string)
| RegisterScalableTarget (ns resource_id dimension : string) (min_capacity max_capacity : nat)
| PutScalingPolicy (p : ScalingPolicy)
| UploadData (file bucket key_prefix content_type : string)
| PredictAsync (p : Predictor) (input_path : string)
| ReadS3File (bucket key_prefix : string)
| Sleep (seconds : Q)
| DeregisterScalableTarget (ns resource_id dimension : string)
| DeleteEndpoint (p : Predictor).

Definition val (c : call) : Type :=
  match c with
  | RegionName | GetExecutionRole | DefaultBucket => string
  | ImageUrisRetrieve _ _ _ | Now _ => string
  | Deploy _ _ _ _ _ => Predictor
  | UploadData _ _ _ _ => string
  | PredictAsync _ _ => string      (* [async_response.output_path] *)
  | ReadS3File _ _ => string
  | _ => unit
  end.

Abbreviation py := (Run.py val).
Abbreviation invoke := (@Run.invoke call val).
Abbreviation try_call := (@Run.try_call call val).
Abbreviation raise := (@Run.raise call val _).

(** [!cmd]: IPython runs the command; a failing command raises nothing. *)
Definition shell (cmd : string) : py unit :=
  _ <- try_call (Shell cmd) ;; Ret tt.

Definition print (msg : string) : py unit := invoke (Print msg).

Definition bucket_prefix : string := "DEMO-async-inference".

(** [resource_name.format(a, b)] with [resource_name = "AsyncInferenceDemo-{}-{}"] *)
Definition resource_name_format (a b : string) : string :=
  "AsyncInferenceDemo-" ++ a ++ "-" ++ b.

Definition upload_file (input_location : string) : py string :=
  let prefix := bucket_prefix ++ "/input" in
  bucket <- invoke DefaultBucket ;;
  invoke (UploadData input_location bucket prefix "text/libsvm").

Definition NoSuchKey : string := "NoSuchKey".

Section GetOutput.

Variable urlparse : string -> ParseResult.

(** One turn of the [while True] loop of [get_output]: [inr contents] when
    the function returns, [inl tt] when the loop goes round again. *)
Definition poll (output_url : ParseResult) (_ : unit) : py (unit + string) :=
  r <- try_call (ReadS3File (netloc output_url) (slice_from 1 (path output_url))) ;;
  match r with
  | inr contents => Ret (inr contents)
  | inl (ClientError code) =>
      if (code =? NoSuchKey)%string
      then print "waiting for output..." ;;
           invoke (Sleep (2 # 1)) ;;
           Ret (inl tt)
      else raise (ClientError code)
  | inl e => raise e
  end.

Definition get_output (output_location : string) : py string :=
  let output_url := urlparse output_location in
  let bucket := netloc output_url in
  let key := slice_from 1 (path output_url) in
  ITree.iter (poll output_url) tt.

(** [f"input/test_point_{i}.libsvm"] *)
Definition input_file_of (i : nat) : string :=
  "input/test_point_" ++ str_of_nat i ++ ".libsvm".

(** The body of [for i in range(25)]; [inferences] is the list so far. *)
Definition request (async_predictor : Predictor) (i : nat)
  (inferences : list (string * string)) : py (list (string * string)) :=
  let input_file := input_file_of i in
  input_file_s3_location <- upload_file input_file ;;
  print ("Invoking Endpoint with " ++ input_file) ;;
  output_location <- invoke (PredictAsync async_predictor input_file_s3_location) ;;
  print output_location ;;
  let inferences := (inferences ++ [(input_file, output_location)])%list in
  invoke (Sleep (1 # 2)) ;;
  Ret inferences.

(** The request loop of the multiple-invocation cell. *)
Definition invoke_many (async_predictor : Predictor) : py (list (string * string)) :=
  for_each (seq 0 25) (request async_predictor) [].

(** The body of the result loop of the same cell. *)
Definition report (inference : string * string) (_ : unit) : py unit :=
  let '(input_file, output_location) := inference in
  output <- get_output output_location ;;
  print ("Input File: " ++ input_file ++ ", Output: " ++ output).

(** The result loop. *)
Definition collect (inferences : list (string * string)) : py unit :=
  for_each inferences report tt.

(** ** The notebook, cell by cell

    Cells run top to bottom; an exception ends the run.  The session
    objects ([boto3.session.Session()], [sagemaker.session.Session()],
    [boto3.client(...)]) are built locally and are not calls. *)

Definition strftime_format : string := "%Y-%m-%d-%H-%M-%S".
Definition desired_instance_count : string := "sagemaker:variant:DesiredInstanceCount".

Definition install : py unit :=
  shell "python -m pip install --upgrade pip --quiet" ;;
  shell "pip install -U awscli --quiet" ;;
  shell "pip install sagemaker --upgrade".

Definition download_inputs : py unit :=
  shell "aws s3 cp --recursive s3://sagemaker-sample-files/models/async-inference/input-files/ input/" ;;
  shell "aws s3 cp s3://sagemaker-sample-files/models/async-inference/demo-xgboost-model.tar.gz model/".

Definition role_and_bucket : py (string * string) :=
  sm_role <- invoke GetExecutionRole ;;
  print ("Using Role: " ++ sm_role) ;;
  s3_bucket <- invoke DefaultBucket ;;
  print ("Will use bucket '" ++ s3_bucket ++ "' for storing all resources related to this notebook") ;;
  Ret (sm_role, s3_bucket).

Definition upload_model (s3_bucket : string) : py string :=
  let model_s3_key := bucket_prefix ++ "/demo-xgboost-model.tar.gz" in
  let model_url := "s3://" ++ s3_bucket ++ "/" ++ model_s3_key in
  print ("Uploading Model to " ++ model_url) ;;
  invoke (UploadFileobj "model/demo-xgboost-model.tar.gz" s3_bucket model_s3_key) ;;
  Ret model_url.

Definition make_model (container model_url sm_role : string) : py Model :=
  now <- invoke (Now strftime_format) ;;
  let model_name := resource_name_format "Model" now in
  Ret {| name := model_name; image_uri := container;
         model_data := model_url; role := sm_role |}.

Definition make_async_config (s3_bucket : string) : AsyncInferenceConfig :=
  {| output_path := "s3://" ++ s3_bucket ++ "/" ++ bucket_prefix ++ "/output";
     max_concurrent_invocations_per_instance := 4 |}.

Definition create_endpoint (model_predictor : Model) (async_config : AsyncInferenceConfig)
  : py (string * Predictor) :=
  now <- invoke (Now strftime_format) ;;
  let endpoint_name := resource_name_format "Endpoint" now in
  async_predictor <- invoke (Deploy model_predictor async_config "ml.m5.xlarge" 1 endpoint_name) ;;
  Ret ((endpoint_name, async_predictor) : string * Predictor).

Definition setup_autoscaling (endpoint_name : string) : py string :=
  let resource_id := "endpoint/" ++ endpoint_name ++ "/variant/" ++ "AllTraffic" in
  invoke (RegisterScalableTarget "sagemaker" resource_id desired_instance_count 0 5) ;;
  invoke (PutScalingPolicy
    {| PolicyName := "Invocations-ScalingPolicy";
       ServiceNamespace := "sagemaker";
       ResourceId := resource_id;
       ScalableDimension := desired_instance_count;
       PolicyType := "TargetTrackingScaling";
       TargetValue := 5 # 1;
       MetricName := "ApproximateBacklogSizePerInstance";
       Namespace := "AWS/SageMaker";
       Dimensions := [("EndpointName", endpoint_name)];
       Statistic := "Average";
       ScaleInCooldown := 600;
       ScaleOutCooldown := 300 |}) ;;
  Ret resource_id.

Definition single_invocation (async_predictor : Predictor) : py unit :=
  let input_1_location := "input/test_point_0.libsvm" in
  input_1_s3_location <- upload_file input_1_location ;;
  output_location <- invoke (PredictAsync async_predictor input_1_s3_location) ;;
  output <- get_output output_location ;;
  print ("Output: " ++ output).

Definition multiple_invocations (async_predictor : Predictor) : py unit :=
  inferences <- invoke_many async_predictor ;;
  collect inferences.

Definition clean_up (resource_id : string) (async_predictor : Predictor) : py unit :=
  invoke (DeregisterScalableTarget "sagemaker" resource_id desired_instance_count) ;;
  invoke (DeleteEndpoint async_predictor).

Definition notebook : py unit :=
  install ;;
  region <- invoke RegionName ;;
  download_inputs ;;
  '(sm_role, s3_bucket) <- role_and_bucket ;;
  model_url <- upload_model s3_bucket ;;
  container <- invoke (ImageUrisRetrieve region "xgboost" "0.90-1") ;;
  model_predictor <- make_model container model_url sm_role ;;
  let async_config := make_async_config s3_bucket in
  '(endpoint_name, async_predictor) <- create_endpoint model_predictor async_config ;;
  resource_id <- setup_autoscaling endpoint_name ;;
  single_invocation async_predictor ;;
  multiple_invocations async_predictor ;;
  clean_up resource_id async_predictor.

End GetOutput.

(** ** Kinds of remote calls *)

(** The output location a successful [predict_async] returned. *)
Definition predicted (ev : Run.event val) : option string :=
  match ev with
  | existT _ (PredictAsync _ _) (inr output_location) => Some output_location
  | _ => None
  end.

Definition is_read (c : call) : bool :=
  match c with ReadS3File _ _ => true | _ => false end.

Definition is_deploy (c : call) : bool :=
  match c with Deploy _ _ _ _ _ => true | _ => false end.

(** Calls that create or configure a resource of the platform, the
    uploads to object storage included. *)
Definition is_create (c : call) : bool :=
  match c with
  | DefaultBucket | UploadFileobj _ _ _ | UploadData _ _ _ _
  | Deploy _ _ _ _ _ | RegisterScalableTarget _ _ _ _ _ | PutScalingPolicy _ => true
  | _ => false
  end.

Definition is_invocation (c : call) : bool :=
  match c with PredictAsync _ _ => true | _ => false end.

Definition is_deregister (c : call) : bool :=
  match c with DeregisterScalableTarget _ _ _ => true | _ => false end.

Definition is_delete_endpoint (c : call) : bool :=
  match c with DeleteEndpoint _ => true | _ => false end.

Definition is_clean_up (c : call) : bool :=
  is_deregister c || is_delete_endpoint c.

(** ** The order of the remote calls

    [ordered tr]: whatever call of [tr] one looks at, an invocation has a
    deployment before it, a clean-up call has neither a creating call nor
    an invocation after it, and the deletion of the endpoint has the
    deregistration of the scalable target before it. *)
Definition ordered (tr : list call) : Prop :=
  forall pre c post, tr = (pre ++ c :: post)%list ->
    (is_invocation c = true -> existsb is_deploy pre = true)
    /\ (is_clean_up c = true ->
        forallb (fun d => negb (is_create d) && negb (is_invocation d)) post = true)
    /\ (is_delete_endpoint c = true -> existsb is_deregister pre = true).

(** The stages a run goes through, and the calls each stage admits. *)
Inductive stage : Type := Before | Deployed | Deregistered | Deleted.

Definition next (st : stage) (c : call) : option stage :=
  match st with
  | Before =>
      if is_deploy c then Some Deployed
      else if is_invocation c || is_clean_up c then None
      else Some Before
  | Deployed =>
      if is_deregister c then Some Deregistered
      else if is_delete_endpoint c then None
      else Some Deployed
  | Deregistered =>
      if is_delete_endpoint c then Some Deleted
      else if is_create c || is_invocation c || is_deregister c then None
      else Some Deregistered
  | Deleted =>
      if is_create c || is_invocation c || is_clean_up c then None
      else Some Deleted
  end.

Fixpoint accepts (st : stage) (tr : list call) : option stage :=
  match tr with
  | [] => Some st
  | c :: tr' =>
      match next st c with
      | Some st' => accepts st' tr'
      | None => None
      end
  end.

(** The history has brought the run to stage [st]. *)
Definition at_stage (st : stage) (h : list (Run.event val)) : Prop :=
  accepts Before (List.map (call_of (val:=val)) h) = Some st.

Definition staged (h : list (Run.event val)) : Prop :=
  exists st, at_stage st h.

(** ** A world for polling

    [read_outcome i j] is what the [j]-th read of the [i]-th polling session
    gives; a session ends with the first read that is not answered by a
    [NoSuchKey] error.  Every other call succeeds with [reply]. *)
Record env : Type := {
  read_outcome : nat -> nat -> exn + string;
  reply : forall c : call, val c
}.

Record polls : Type := { session : nat; attempt : nat }.

Definition is_no_such_key (r : exn + string) : bool :=
  match r with
  | inl (ClientError code) => (code =? NoSuchKey)%string
  | _ => false
  end.

Definition poll_world (e : env) (c : call) (w : polls) : polls * (exn + val c) :=
  match c as c0 return polls * (exn + val c0) with
  | ReadS3File _ _ =>
      let r := read_outcome e (session w) (attempt w) in
      (if is_no_such_key r
       then {| session := session w; attempt := S (attempt w) |}
       else {| session := S (session w); attempt := 0 |}, r)
  | c0 => (w, inr (reply e c0))
  end.

(** [urlparse] on the locations of object storage,
    [s3://netloc/path?query#fragment]: the netloc ends before the first
    ['/'], ['?'] or ['#'], the fragment starts after the first ['#'] of
    what follows, the query after the first ['?'] of what is before the
    fragment; the scheme [s3] has no params. *)
Definition is_one_of (chars : string) (c : ascii) : bool :=
  existsb (Ascii.eqb c) (list_ascii_of_string chars).

(** [s] up to the first character that satisfies [stop], and [s] from
    that character on. *)
Fixpoint split_before (stop : ascii -> bool) (s : string) : string * string :=
  match s with
  | EmptyString => (EmptyString, EmptyString)
  | String c s' =>
      if stop c then (EmptyString, s)
      else let (a, b) := split_before stop s' in (String c a, b)
  end.

Definition urlparse_s3 (url : string) : ParseResult :=
  let (n, rest) := split_before (is_one_of "/?#") (slice_from 5 url) in
  let (rest, hash) := split_before (is_one_of "#") rest in
  let (p, question) := split_before (is_one_of "?") rest in
  {| scheme := "s3"; netloc := n; path := p;
     params := ""; query := slice_from 1 question; fragment := slice_from 1 hash |}.

Definition default_reply (c : call) : val c :=
  match c with
  | RegionName => "us-west-2"
  | GetExecutionRole => "arn:aws:iam::123456789012:role/sagemaker"
  | DefaultBucket => "sagemaker-us-west-2-123456789012"
  | ImageUrisRetrieve _ _ _ => "xgboost:0.90-1"
  | Now _ => "2024-01-01-00-00-00"
  | Deploy _ _ _ _ n => {| endpoint := n |}
  | UploadData f b k _ => "s3://" ++ b ++ "/" ++ k ++ "/" ++ f
  | PredictAsync _ i => i ++ ".out"
  | ReadS3File _ _ => "0.5"
  | _ => tt
  end.

(** ** What a polling run leaves in the trace *)

Section PollingEvents.

Variable urlparse : string -> ParseResult.
Variable e : env.

(** The read [get_output] performs on a location. *)
Definition read_of (loc : string) : call :=
  ReadS3File (netloc (urlparse loc)) (slice_from 1 (path (urlparse loc))).

Definition read_event (loc : string) (x : exn + string) : Run.event val :=
  existT _ (read_of loc) x.

(** The events of one unsuccessful poll. *)
Definition retry_events (loc : string) : list (Run.event val) :=
  [read_event loc (inl (ClientError NoSuchKey));
   existT _ (Print "waiting for output...") (inr (reply e (Print "waiting for output...")));
   existT _ (Sleep (2 # 1)) (inr (reply e (Sleep (2 # 1))))].

End PollingEvents.

(** The reads of a result loop in which the [i]-th location is read
    [S n] times, [n] the [i]-th entry of [retries]. *)
Definition expected_reads (urlparse : string -> ParseResult)
  (inferences : list (string * string)) (retries : list nat) : list call :=
  flat_map (fun p : (string * string) * nat =>
              repeat (read_of urlparse (snd (fst p))) (S (snd p)))
           (combine inferences retries).

(** Fuel that is enough for such a loop. *)
Definition collect_fuel (retries : list nat) : nat :=
  list_sum (List.map (fun n => 4 * n + 2) retries).

(** What [get_output] does with the read that is not answered by
    [NoSuchKey]: it returns the contents, or raises the error again. *)
Definition settle (x : exn + string) : outcome string :=
  match x with
  | inl ex => Raised ex
  | inr contents => Done contents
  end.

(** ** Worlds used to run the polling loop on concrete inputs *)

(** The output appears at the third read of every session. *)
Definition third_read : env :=
  {| read_outcome := fun _ j => if j <? 2 then inl (ClientError NoSuchKey) else inr "0.9";
     reply := default_reply |}.

(** The output never appears. *)
Definition never_there : env :=
  {| read_outcome := fun _ _ => inl (ClientError NoSuchKey);
     reply := default_reply |}.

(** The second read is refused. *)
Definition refused : env :=
  {| read_outcome := fun _ j => if j <? 1 then inl (ClientError NoSuchKey)
                                else inl (ClientError "AccessDenied");
     reply := default_reply |}.

Definition fresh : polls := {| session := 0; attempt := 0 |}.

Definition demo_location : string := "s3://bkt/DEMO-async-inference/output/a.out".

End AsyncInference.

(* ===================================================================== *)
(** * Batch transform notebook                                            *)
(* ===================================================================== *)

Module BatchTransform.
Import Py.

(** A Python [str] is modelled by a [string] whose characters are code
    points below 256. *)

Definition dquote : string := String (ascii_of_nat 34) "".
Definition backslash : string := String (ascii_of_nat 92) "".
Definition newline : string := String (ascii_of_nat 10) "".

(** ** [json.dump] of a dict of strings (the default [ensure_ascii=True]) *)

Definition hex_digit (n : nat) : ascii :=
  nth n (list_ascii_of_string "0123456789abcdef") "0"%char.

(** One character inside a JSON string literal: the short escapes, the
    printable ASCII characters as they are, [\u00XX] for the rest. *)
Definition escape_char (c : ascii) : string :=
  let n := nat_of_ascii c in
  if n =? 34 then backslash ++ dquote
  else if n =? 92 then backslash ++ backslash
  else if n =? 10 then backslash ++ "n"
  else if n =? 13 then backslash ++ "r"
  else if n =? 9 then backslash ++ "t"
  else if n =? 8 then backslash ++ "b"
  else if n =? 12 then backslash ++ "f"
  else if (32 <=? n) && (n <=? 126) then String c ""
  else backslash ++ "u00" ++ String (hex_digit (n / 16)) (String (hex_digit (n mod 16)) "").

Fixpoint escape (s : string) : string :=
  match s with
  | EmptyString => EmptyString
  | String c s' => escape_char c ++ escape s'
  end.

Definition encode_string (s : string) : string := dquote ++ escape s ++ dquote.

(** A dict with string keys and string values, in insertion order. *)
Definition dict : Type := list (string * string).

Definition encode_item (kv : string * string) : string :=
  encode_string (fst kv) ++ ": " ++ encode_string (snd kv).

Definition json_dumps (d : dict) : string :=
  "{" ++ String.concat ", " (List.map encode_item d) ++ "}".

(** ** The preprocessing cell *)

Record prep : Type := {
  outfile : string;          (* what has been written to tweet_data.jsonl *)
  data_json : list dict
}.

(** [outfile.write(s)] and [json.dump(obj, outfile)] append to the file. *)
Definition write (s : string) (st : prep) : prep :=
  {| outfile := outfile st ++ s; data_json := data_json st |}.

Definition append (d : dict) (st : prep) : prep :=
  {| outfile := outfile st; data_json := (data_json st ++ [d])%list |}.

(** The body of [for row in tweet_text]. *)
Definition preprocess_row (st : prep) (row : string) : prep :=
  let row := replace "@" "" row in
  let st := write (json_dumps [("inputs", row)]) st in
  let st := append [("inputs", row)] st in
  write newline st.

(** [open(dataset_jsonl_file, "w+")] starts from an empty file. *)
Definition preprocess (tweet_text : list string) : prep :=
  fold_left preprocess_row tweet_text {| outfile := ""; data_json := [] |}.

(** ** Reading a text file line by line *)

(** The line feed and the carriage return. *)
Definition nl : ascii := ascii_of_nat 10.
Definition cr : ascii := ascii_of_nat 13.

(** A file opened for reading in text mode has universal newlines: a
    carriage return, alone or with a line feed after it, reaches the
    program as one line feed. *)
Fixpoint universal_newlines (s : string) : string :=
  match s with
  | EmptyString => EmptyString
  | String c s' =>
      if Ascii.eqb c cr then
        match s' with
        | String d s'' =>
            if Ascii.eqb d nl then String nl (universal_newlines s'')
            else String nl (universal_newlines s')
        | EmptyString => String nl EmptyString
        end
      else String c (universal_newlines s')
  end.

(** The lines of a text, each with its line feed; a last line that has
    none is a line as it is. *)
Fixpoint lines_of (s : string) : list string :=
  match s with
  | EmptyString => []
  | String c s' =>
      if Ascii.eqb c (ascii_of_nat 10) then String c "" :: lines_of s'
      else match lines_of s' with
           | [] => [String c ""]
           | l :: ls => String c l :: ls
           end
  end.

(** [with open(file) as f: for line in f], from the bytes of the file. *)
Definition readlines (s : string) : list string := lines_of (universal_newlines s).

(** ** The result-download cell *)

Section Download.

(** [ast.literal_eval] and the Python objects it builds. *)
Variable value : Type.
Variable literal_eval : string -> exn + value.
(** The empty list [batch_transform_result] starts with. *)
Variable empty_list : value.

(** [line = "[" + line.replace("[","").replace("]",",") + "]"] *)
Definition as_array (line : string) : string :=
  "[" ++ replace "]" "," (replace "[" "" line) ++ "]".

(** The loop over the lines; an exception of [literal_eval] ends it. *)
Fixpoint read_results (lines : list string) (batch_transform_result : value) : exn + value :=
  match lines with
  | [] => inr batch_transform_result
  | line :: rest =>
      let line := as_array line in
      match literal_eval line with
      | inl e => inl e
      | inr v => read_results rest v
      end
  end.

(** [batch_transform_result] after the cell, from the downloaded file. *)
Definition download_results (output_file : string) : exn + value :=
  read_results (readlines output_file) empty_list.

End Download.

(** What the two replacements do to a single character. *)
Definition bracket_char (c : ascii) : string :=
  if Ascii.eqb c "["%char then ""
  else if Ascii.eqb c "]"%char then ","
  else String c "".

Fixpoint map_chars (f : ascii -> string) (s : string) : string :=
  match s with
  | EmptyString => EmptyString
  | String c s' => f c ++ map_chars f s'
  end.

Fixpoint remove_char (x : ascii) (s : string) : string :=
  match s with
  | EmptyString => EmptyString
  | String c s' => if Ascii.eqb c x then remove_char x s' else String c (remove_char x s')
  end.

Fixpoint occurs (x : ascii) (s : string) : bool :=
  match s with
  | EmptyString => false
  | String c s' => Ascii.eqb c x || occurs x s'
  end.

(** The text of a file with the lines [ls]. *)
Fixpoint lines_text (ls : list string) : string :=
  match ls with
  | [] => ""
  | l :: ls' => l ++ newline ++ lines_text ls'
  end.

(** The object the preprocessing cell makes of a tweet. *)
Definition object_of (tweet : string) : dict := [("inputs", remove_char "@" tweet)].

(** [s] between double quotes. *)
Definition quoted (s : string) : string := dquote ++ s ++ dquote.

(** A stand-in for [literal_eval] that keeps the text of a bracketed
    literal and refuses anything else. *)
Definition bracketed (s : string) : exn + string :=
  if starts_with "[" s then inr s else inl (ValueError "malformed node or string").

End BatchTransform.

(* ===================================================================== *)
(** * Feature-level metadata notebook                                     *)
(* ===================================================================== *)

Module FeatureStore.
Import Py Run.

(** A filter of a search expression. *)
Record Filter : Type := { Name : string; Operator : string; Value : string }.

Record SearchExpression : Type := {
  Filters : list Filter;
  BooleanOperator : string       (* the key "Operator" of the expression *)
}.

(** JSON documents, as the service's responses are. *)
Inductive json : Type :=
| JNull
| JBool (b : bool)
| JNum (n : Z)
| JStr (s : string)
| JList (l : list json)
| JDict (d : list (string * json)).

Inductive call : Type :=
| CheckCall (argv : list string)       (* subprocess.check_call *)
| Reload (module : string)             (* importlib.reload *)
| Search (Resource : string) (expr : SearchExpression).

Definition val (c : call) : Type :=
  match c with
  | CheckCall _ => nat
  | Reload _ => unit
  | Search _ _ => json
  end.

Abbreviation py := (Run.py val).
Abbreviation invoke := (@Run.invoke call val).
Abbreviation raise := (@Run.raise call val _).

(** ** The version guards *)

Section Guards.

Variable sys_executable : string.

(** [if sagemaker.__version__ < '2.48.1': ...]; [<] on two [str] compares
    them character by character. *)
Definition sagemaker_guard (sagemaker_version : string) : py unit :=
  if (sagemaker_version <? "2.48.1")%string then
    invoke (CheckCall [sys_executable; "-m"; "pip"; "install"; "sagemaker==2.48.1"]) ;;
    invoke (Reload "sagemaker")
  else Ret tt.

Definition boto3_guard (boto3_version : string) : py unit :=
  if (boto3_version <? "1.24.23")%string then
    invoke (CheckCall [sys_executable; "-m"; "pip"; "install"; "boto3==1.24.23"]) ;;
    invoke (Reload "boto3")
  else Ret tt.

End Guards.

(** ** Versions read as numbers

    The numeric reading of a dotted version: its components as integers,
    compared component by component. *)

Definition digit_value (c : ascii) : option nat :=
  let n := nat_of_ascii c in
  if (48 <=? n) && (n <=? 57) then Some (n - 48) else None.

(** The components of a dotted version; [cur] is the component being read. *)
Fixpoint components_from (cur : option nat) (s : string) : option (list nat) :=
  match s with
  | EmptyString => option_map (fun n => [n]) cur
  | String c s' =>
      if Ascii.eqb c "."%char then
        match cur, components_from None s' with
        | Some n, Some ns => Some (n :: ns)
        | _, _ => None
        end
      else
        match digit_value c with
        | Some d => components_from (Some (10 * match cur with Some n => n | None => 0 end + d)) s'
        | None => None
        end
  end.

Definition components (version : string) : option (list nat) := components_from None version.

Fixpoint numerically_below (a b : list nat) : bool :=
  match a, b with
  | [], [] => false
  | [], _ :: _ => true
  | _ :: _, [] => false
  | x :: a', y :: b' => (x <? y) || ((x =? y) && numerically_below a' b')
  end.

Definition version_below (a b : string) : option bool :=
  match components a, components b with
  | Some x, Some y => Some (numerically_below x y)
  | _, _ => None
  end.

(** ** A pandas table

    A [DataFrame] with its column labels and its rows; a missing entry
    ([NaN]) is [None]. *)
Record DataFrame : Type := {
  columns : list string;
  rows : list (list (option json))
}.

Definition lift {A} (r : exn + A) : py A :=
  match r with
  | inl e => raise e
  | inr a => Ret a
  end.

(** [d[key]] *)
Fixpoint lookup (key : string) (d : list (string * json)) : option json :=
  match d with
  | [] => None
  | (k, v) :: d' => if (k =? key)%string then Some v else lookup key d'
  end.

(** [type(j).__name__] *)
Definition type_name (j : json) : string :=
  match j with
  | JNull => "NoneType"
  | JBool _ => "bool"
  | JNum _ => "int"
  | JStr _ => "str"
  | JList _ => "list"
  | JDict _ => "dict"
  end.

(** [j[key]] for a key that is a [str]; the messages are those of
    Python 3.11. *)
Definition getitem (key : string) (j : json) : exn + json :=
  match j with
  | JDict d =>
      match lookup key d with
      | Some v => inr v
      | None => inl (KeyError key)
      end
  | JList _ => inl (OtherError "TypeError" "list indices must be integers or slices, not str")
  | JStr _ => inl (OtherError "TypeError" "string indices must be integers, not 'str'")
  | _ => inl (OtherError "TypeError" ("'" ++ type_name j ++ "' object is not subscriptable"))
  end.

(** ** [pd.json_normalize(data, max_level=1)]

    The items of a dict are a list without a key twice, in insertion
    order. *)

(** What is left of [d] after [d.pop(key)]. *)
Definition pop (key : string) (d : list (string * json)) : list (string * json) :=
  filter (fun kv => negb (fst kv =? key)%string) d.

(** [d[key] = v]: a key that is there keeps its place. *)
Fixpoint setitem (key : string) (v : json) (d : list (string * json)) : list (string * json) :=
  match d with
  | [] => [(key, v)]
  | (k, v') :: d' => if (k =? key)%string then (k, v) :: d' else (k, v') :: setitem key v d'
  end.

(** [d.update(items)] *)
Definition update (d items : list (string * json)) : list (string * json) :=
  fold_left (fun d kv => setitem (fst kv) (snd kv) d) items d.

Definition no_attribute (j : json) (attribute : string) : exn :=
  OtherError "AttributeError"
    ("'" ++ type_name j ++ "' object has no attribute '" ++ attribute ++ "'").

Definition not_iterable (j : json) : exn :=
  OtherError "TypeError" ("'" ++ type_name j ++ "' object is not iterable").

(** [nested_to_record(d, prefix, level=1, max_level=1)] for a dict: below
    the top level nothing is flattened; each key is popped and set again
    with the prefix before it. *)
Definition prefixed (prefix : string) (d : list (string * json)) : list (string * json) :=
  fold_left (fun new_d kv =>
               match lookup (fst kv) new_d with
               | Some v => setitem (prefix ++ "." ++ fst kv) v (pop (fst kv) new_d)
               | None => new_d
               end) d d.

(** The same for a list: its elements one after the other. *)
Fixpoint prefixed_each (prefix : string) (ds : list json) : exn + list (list (string * json)) :=
  match ds with
  | [] => inr []
  | JDict d :: rest =>
      match prefixed_each prefix rest with
      | inl e => inl e
      | inr ds' => inr (prefixed prefix d :: ds')
      end
  | j :: _ => inl (no_attribute j "items")
  end.

(** [d.update(seq)] for a list of dicts: each is taken for a pair, which
    its keys are when they are two. *)
Fixpoint update_from_pairs (d : list (string * json)) (i : nat)
  (seq : list (list (string * json))) : exn + list (string * json) :=
  match seq with
  | [] => inr d
  | e :: rest =>
      match e with
      | [(k1, _); (k2, _)] => update_from_pairs (setitem k1 (JStr k2) d) (S i) rest
      | _ => inl (ValueError ("dictionary update sequence element #" ++ str_of_nat i
                              ++ " has length " ++ str_of_nat (length e)
                              ++ "; 2 is required"))
      end
  end.

(** [new_d.update(nested_to_record(v, key, level=1, max_level=1))], [v]
    being what [new_d.pop(key)] gave. *)
Definition flatten_value (key : string) (v : json) (new_d : list (string * json))
  : exn + list (string * json) :=
  match v with
  | JDict inner => inr (update new_d (prefixed key inner))
  | JList ds =>
      match prefixed_each key ds with
      | inl e => inl e
      | inr seq => update_from_pairs new_d 0 seq
      end
  | JStr EmptyString => inr new_d
  | JStr _ => inl (no_attribute v "items")
  | _ => inl (not_iterable v)
  end.

(** [nested_to_record(record, max_level=1)] at the top level: a value
    that is no dict stays where it is; a dict is popped, and its items,
    their keys joined to the outer key by a dot, are set at the end. *)
Definition flatten_record (record : list (string * json)) : exn + list (string * json) :=
  fold_left (fun acc kv =>
               match acc, snd kv with
               | inr new_d, JDict _ =>
                   match lookup (fst kv) new_d with
                   | Some v => flatten_value (fst kv) v (pop (fst kv) new_d)
                   | None => inr new_d
                   end
               | _, _ => acc
               end) record (inr record).

(** The records of the list, one after the other.  A record that is no
    dict has no [values], which the check for nested dicts asks for, nor
    [items], which the flattening asks for once that check has met a dict
    that is not empty. *)
Fixpoint normalize_records (attribute : string) (data : list json)
  : exn + list (list (string * json)) :=
  match data with
  | [] => inr []
  | JDict d :: rest =>
      match flatten_record d with
      | inl e => inl e
      | inr r =>
          match normalize_records (match d with [] => attribute | _ => "items" end) rest with
          | inl e => inl e
          | inr rs => inr (r :: rs)
          end
      end
  | j :: _ => inl (no_attribute j attribute)
  end.

(** The labels of the records, each once, in the order they first appear. *)
Fixpoint add_labels (seen : list string) (labels : list string) : list string :=
  match labels with
  | [] => seen
  | l :: rest =>
      if existsb (String.eqb l) seen then add_labels seen rest
      else add_labels (seen ++ [l])%list rest
  end.

(** [pd.DataFrame(records)] for a list of dicts. *)
Definition frame_of_records (records : list (list (string * json))) : DataFrame :=
  let cols := fold_left (fun seen r => add_labels seen (List.map fst r)) records [] in
  {| columns := cols;
     rows := List.map (fun r => List.map (fun c => lookup c r) cols) records |}.

Definition json_normalize (data : json) : exn + DataFrame :=
  match data with
  | JList l =>
      match normalize_records "values" l with
      | inl e => inl e
      | inr records => inr (frame_of_records records)
      end
  | JDict d =>
      match flatten_record d with
      | inl e => inl e
      | inr record => inr (frame_of_records [record])
      end
  | _ => inl (OtherError "NotImplementedError" "")
  end.

(** [s.split(".")] *)
Fixpoint split_dots (s : string) : list string :=
  match s with
  | EmptyString => [EmptyString]
  | String c s' =>
      if Ascii.eqb c "."%char then EmptyString :: split_dots s'
      else match split_dots s' with
           | [] => [String c ""]
           | p :: ps => String c p :: ps
           end
  end.

(** [lambda col: col.split(".")[1]] *)
Definition second_part (col : string) : exn + string :=
  match split_dots col with
  | _ :: p :: _ => inr p
  | _ => inl IndexError
  end.

Fixpoint map_labels (f : string -> exn + string) (labels : list string) : exn + list string :=
  match labels with
  | [] => inr []
  | l :: rest =>
      match f l with
      | inl e => inl e
      | inr l' =>
          match map_labels f rest with
          | inl e => inl e
          | inr rest' => inr (l' :: rest')
          end
      end
  end.

(** [df.columns = df.columns.map(f)] *)
Definition rename_columns (f : string -> exn + string) (df : DataFrame) : exn + DataFrame :=
  match map_labels f (columns df) with
  | inl e => inl e
  | inr cols => inr {| columns := cols; rows := rows df |}
  end.

(** The entries of a row whose column is not labelled [label]. *)
Fixpoint drop_entries {A} (label : string) (cols : list string) (row : list A) : list A :=
  match cols, row with
  | c :: cols', x :: row' =>
      if (c =? label)%string then drop_entries label cols' row'
      else x :: drop_entries label cols' row'
  | _, _ => []
  end.

(** The argument of the [KeyError] of [drop]: the list of the missing
    labels, here one, as Python prints it (a label without quote or
    backslash), and the words that follow. *)
Definition not_found_in_axis (label : string) : string :=
  "['" ++ label ++ "'] not found in axis".

(** [df.drop(label, axis=1)]: a label that is no column is a [KeyError]. *)
Definition drop (label : string) (df : DataFrame) : exn + DataFrame :=
  if existsb (String.eqb label) (columns df) then
    inr {| columns := filter (fun c => negb (c =? label)%string) (columns df);
           rows := List.map (drop_entries label (columns df)) (rows df) |}
  else inl (KeyError (not_found_in_axis label)).

(** ** Searching features *)

Definition search_features_using_string (search_string : string) : py DataFrame :=
  response <- invoke (Search "FeatureMetadata"
    {| Filters := [ {| Name := "FeatureName"; Operator := "Contains"; Value := search_string |};
                    {| Name := "Description"; Operator := "Contains"; Value := search_string |};
                    {| Name := "AllParameters"; Operator := "Contains"; Value := search_string |} ];
       BooleanOperator := "Or" |}) ;;
  results <- lift (getitem "Results" response) ;;
  df <- lift (json_normalize results) ;;
  df <- lift (rename_columns second_part df) ;;
  df <- lift (drop "FeatureGroupArn" df) ;;
  Ret df.

(** The call the function makes for [search_string]. *)
Definition search_call (search_string : string) : call :=
  Search "FeatureMetadata"
    {| Filters := [ {| Name := "FeatureName"; Operator := "Contains"; Value := search_string |};
                    {| Name := "Description"; Operator := "Contains"; Value := search_string |};
                    {| Name := "AllParameters"; Operator := "Contains"; Value := search_string |} ];
       BooleanOperator := "Or" |}.

(** What the function makes of the response of that call. *)
Definition table_of (response : json) : exn + DataFrame :=
  match getitem "Results" response with
  | inl e => inl e
  | inr results =>
      match json_normalize results with
      | inl e => inl e
      | inr df =>
          match rename_columns second_part df with
          | inl e => inl e
          | inr df => drop "FeatureGroupArn" df
          end
      end
  end.

(** ** Two services *)

Definition feature (group name type description : string) : json :=
  JDict [("FeatureMetadata",
          JDict [("FeatureGroupArn", JStr ("arn:aws:sagemaker:us-west-2:123456789012:feature-group/" ++ group));
                 ("FeatureGroupName", JStr group);
                 ("FeatureName", JStr name);
                 ("FeatureType", JStr type);
                 ("Description", JStr description)])].

(** A service that finds two features, whatever is searched. *)
Definition two_features (c : call) (w : unit) : unit * (exn + val c) :=
  match c with
  | CheckCall _ => (w, inr 0)
  | Reload _ => (w, inr tt)
  | Search _ _ =>
      (w, inr (JDict [("Results",
                       JList [feature "customers" "is_married" "String"
                                      "boolean value whether the customer is married or not";
                              feature "customers" "age" "Integral" "age in years"])]))
  end.

(** A service that finds nothing. *)
Definition no_match (c : call) (w : unit) : unit * (exn + val c) :=
  match c with
  | CheckCall _ => (w, inr 0)
  | Reload _ => (w, inr tt)
  | Search _ _ => (w, inr (JDict [("Results", JList [])]))
  end.

End FeatureStore.

(* ===================================================================== *)
(** * Inference pipeline notebook                                         *)
(* ===================================================================== *)

Module InferencePipeline.
Import Py Run.

(** ** The featurizer script: [output_fn] *)

(** The names the script binds at module level: its imports, its
    assignments and its functions. *)
Definition script_globals : list string :=
  ["print_function"; "time"; "sys"; "StringIO"; "os"; "shutil"; "argparse";
   "csv"; "json"; "joblib"; "np"; "pd";
   "ColumnTransformer"; "make_column_selector"; "SimpleImputer"; "make_pipeline";
   "Binarizer"; "StandardScaler"; "OneHotEncoder";
   "content_types"; "encoders"; "env"; "modules"; "transformer"; "worker";
   "feature_columns_names"; "label_column"; "feature_columns_dtype";
   "label_column_dtype"; "merge_two_dicts";
   "input_fn"; "output_fn"; "predict_fn"; "model_fn"].

(** The names of Python's [builtins] module. *)
Definition builtins : list string :=
  ["ArithmeticError"; "AssertionError"; "AttributeError"; "BaseException";
   "BaseExceptionGroup"; "BlockingIOError"; "BrokenPipeError"; "BufferError";
   "BytesWarning"; "ChildProcessError"; "ConnectionAbortedError"; "ConnectionError";
   "ConnectionRefusedError"; "ConnectionResetError"; "DeprecationWarning"; "EOFError";
   "Ellipsis"; "EncodingWarning"; "EnvironmentError"; "Exception"; "ExceptionGroup";
   "False"; "FileExistsError"; "FileNotFoundError"; "FloatingPointError";
   "FutureWarning"; "GeneratorExit"; "IOError"; "ImportError"; "ImportWarning";
   "IndentationError"; "IndexError"; "InterruptedError"; "IsADirectoryError";
   "KeyError"; "KeyboardInterrupt"; "LookupError"; "MemoryError";
   "ModuleNotFoundError"; "NameError"; "None"; "NotADirectoryError";
   "NotImplemented"; "NotImplementedError"; "OSError"; "OverflowError";
   "PendingDeprecationWarning"; "PermissionError"; "ProcessLookupError";
   "PythonFinalizationError"; "RecursionError"; "ReferenceError"; "ResourceWarning";
   "RuntimeError"; "RuntimeWarning"; "StopAsyncIteration"; "StopIteration";
   "SyntaxError"; "SyntaxWarning"; "SystemError"; "SystemExit"; "TabError";
   "TimeoutError"; "True"; "TypeError"; "UnboundLocalError"; "UnicodeDecodeError";
   "UnicodeEncodeError"; "UnicodeError"; "UnicodeTranslateError"; "UnicodeWarning";
   "UserWarning"; "ValueError"; "Warning"; "ZeroDivisionError";
   "__build_class__"; "__debug__"; "__doc__"; "__import__"; "__loader__";
   "__name__"; "__package__"; "__spec__";
   "abs"; "aiter"; "all"; "anext"; "any"; "ascii"; "bin"; "bool"; "breakpoint";
   "bytearray"; "bytes"; "callable"; "chr"; "classmethod"; "compile"; "complex";
   "copyright"; "credits"; "delattr"; "dict"; "dir"; "divmod"; "enumerate"; "eval";
   "exec"; "exit"; "filter"; "float"; "format"; "frozenset"; "getattr"; "globals";
   "hasattr"; "hash"; "help"; "hex"; "id"; "input"; "int"; "isinstance";
   "issubclass"; "iter"; "len"; "license"; "list"; "locals"; "map"; "max";
   "memoryview"; "min"; "next"; "object"; "oct"; "open"; "ord"; "pow"; "print";
   "property"; "quit"; "range"; "repr"; "reversed"; "round"; "set"; "setattr";
   "slice"; "sorted"; "staticmethod"; "str"; "sum"; "super"; "tuple"; "type";
   "vars"; "zip"].

(** Looking a name up from inside a function: its locals, the globals of
    the module, the builtins. *)
Definition bound (locals : list string) (name : string) : bool :=
  existsb (String.eqb name) (locals ++ script_globals ++ builtins)%list.

Section OutputFn.

(** The numpy array of predictions, its entries, and the library
    functions applied to it. *)
Variable ndarray : Type.
Variable number : Type.
Variable tolist : ndarray -> list (list number).
Variable encode : ndarray -> string -> exn + string.   (* encoders.encode *)

Inductive jvalue : Type :=
| JNumber (x : number)
| JArray (l : list jvalue)
| JObject (d : list (string * jvalue)).

Variable json_dumps : jvalue -> string.

(** [worker.Response(response, mimetype=...)] *)
Record Response : Type := { response : string; mimetype : string }.

Definition output_fn (prediction : ndarray) (accept : string) : exn + Response :=
  if (accept =? "application/json")%string then
    let instances :=
      List.map (fun row => JObject [("features", JArray (List.map JNumber row))])
               (tolist prediction) in
    let json_output := JObject [("instances", JArray instances)] in
    inr {| response := json_dumps json_output; mimetype := accept |}
  else if (accept =? "text/csv")%string then
    match encode prediction accept with
    | inl e => inl e
    | inr body => inr {| response := body; mimetype := accept |}
    end
  else
    (* raise RuntimeException(...): the name is looked up first *)
    if bound ["prediction"; "accept"; "instances"; "row"; "json_output"] "RuntimeException"
    then inl (OtherError "RuntimeException"
                (accept ++ " accept type is not supported by this script."))
    else inl (NameError "RuntimeException").

End OutputFn.

(** ** The notebook *)

Inductive Estimator : Type :=
| SKLearn (entry_point role framework_version instance_type : string)
| GenericEstimator (image_uri role : string) (instance_count : nat)
    (instance_type : string) (volume_size max_run : nat)
    (input_mode output_path : string) (hyperparameters : list (string * string)).

(** [sagemaker.inputs.TrainingInput] *)
Record TrainingInput : Type := {
  s3_data : string; distribution : string; content_type : string; s3_data_type : string
}.

(** What [create_model] and [transformer] hand back; the world names them. *)
Record ModelHandle : Type := { model_id : string }.
Record Transformer : Type := { transformer_id : string }.

Record PipelineModel : Type := {
  name : string; role : string; models : list ModelHandle
}.

Inductive call : Type :=
| Shell (cmd : string)
| GetExecutionRole
| DefaultBucket
| RegionName
| Print (msg : string)
| UploadData (path bucket key_prefix : string)
| FitPath (e : Estimator) (channel data : string)
| FitInput (e : Estimator) (channel : string) (data : TrainingInput) (logs : bool)
| MakeTransformer (e : Estimator) (instance_count : nat)
    (instance_type assemble_with accept : string)
| Transform (t : Transformer) (data content_type : string)
| LatestJobName (t : Transformer)
| Wait (t : Transformer)
| OutputPath (t : Transformer)
| ImageUrisRetrieve (framework region : string)
| Strftime (fmt : string)
| CreateModel (e : Estimator)
| DeployPipeline (m : PipelineModel) (initial_instance_count : nat)
    (instance_type endpoint_name : string).

Definition val (c : call) : Type :=
  match c with
  | GetExecutionRole | DefaultBucket | RegionName => string
  | UploadData _ _ _ => string
  | MakeTransformer _ _ _ _ _ => Transformer
  | LatestJobName _ | OutputPath _ => string
  | ImageUrisRetrieve _ _ | Strftime _ => string
  | CreateModel _ => ModelHandle
  | _ => unit
  end.

Abbreviation py := (Run.py val).
Abbreviation invoke := (@Run.invoke call val).
Abbreviation try_call := (@Run.try_call call val).

Definition shell (cmd : string) : py unit :=
  _ <- try_call (Shell cmd) ;; Ret tt.

Definition print (msg : string) : py unit := invoke (Print msg).

Definition prefix : string := "Scikit-LinearLearner-pipeline-abalone-example".
Definition WORK_DIRECTORY : string := "abalone_data".
Definition FRAMEWORK_VERSION : string := "1.2-1".
Definition script_path : string := "sklearn_abalone_featurizer.py".

Definition make_sklearn_preprocessor (role : string) : Estimator :=
  SKLearn script_path role FRAMEWORK_VERSION "ml.c4.xlarge".

Definition make_ll_estimator (ll_image role bucket : string) : Estimator :=
  let s3_ll_output_key_prefix := "ll_training_output" in
  let s3_ll_output_location :=
    "s3://" ++ bucket ++ "/" ++ prefix ++ "/" ++ s3_ll_output_key_prefix ++ "/" ++ "ll_model" in
  GenericEstimator ll_image role 1 "ml.m4.2xlarge" 20 3600 "File" s3_ll_output_location
    [("feature_dim", "10"); ("predictor_type", "regressor"); ("mini_batch_size", "32")].

(** The cell that sets up the inference pipeline. *)
Definition build_pipeline (role : string) (sklearn_preprocessor ll_estimator : Estimator)
  : py string :=
  timestamp_prefix <- invoke (Strftime "%Y-%m-%d-%H-%M-%S") ;;
  scikit_learn_inferencee_model <- invoke (CreateModel sklearn_preprocessor) ;;
  linear_learner_model <- invoke (CreateModel ll_estimator) ;;
  let model_name := "inference-pipeline-" ++ timestamp_prefix in
  let endpoint_name := "inference-pipeline-ep-" ++ timestamp_prefix in
  let sm_model :=
    {| name := model_name; role := role;
       models := [scikit_learn_inferencee_model; linear_learner_model] |} in
  invoke (DeployPipeline sm_model 1 "ml.c4.xlarge" endpoint_name) ;;
  Ret endpoint_name.

(** The cells up to the deployment of the pipeline. *)
Definition train_and_deploy : py string :=
  shell "pip install -U sagemaker" ;;
  role <- invoke GetExecutionRole ;;
  bucket <- invoke DefaultBucket ;;
  shell "mkdir abalone_data" ;;
  shell "aws s3 cp s3://sagemaker-sample-files/datasets/tabular/uci_abalone/abalone.csv ./abalone_data" ;;
  train_input <- invoke (UploadData (WORK_DIRECTORY ++ "/" ++ "abalone.csv") bucket
                                    (prefix ++ "/" ++ "train")) ;;
  let sklearn_preprocessor := make_sklearn_preprocessor role in
  invoke (FitPath sklearn_preprocessor "train" train_input) ;;
  transformer <- invoke (MakeTransformer sklearn_preprocessor 1 "ml.m5.xlarge" "Line" "text/csv") ;;
  invoke (Transform transformer train_input "text/csv") ;;
  job_name <- invoke (LatestJobName transformer) ;;
  print ("Waiting for transform job: " ++ job_name) ;;
  invoke (Wait transformer) ;;
  preprocessed_train <- invoke (OutputPath transformer) ;;
  region <- invoke RegionName ;;
  ll_image <- invoke (ImageUrisRetrieve "linear-learner" region) ;;
  let ll_estimator := make_ll_estimator ll_image role bucket in
  let ll_train_data :=
    {| s3_data := preprocessed_train; distribution := "FullyReplicated";
       content_type := "text/csv"; s3_data_type := "S3Prefix" |} in
  invoke (FitInput ll_estimator "train" ll_train_data true) ;;
  build_pipeline role sklearn_preprocessor ll_estimator.

(** What a trace says about the pipeline. *)
Definition event : Type := Run.event val.

Definition deployment (ev : event) : option (PipelineModel * nat * string * string) :=
  match projT1 ev with
  | DeployPipeline m n ty ep => Some (m, n, ty, ep)
  | _ => None
  end.

Definition created_model (ev : event) : option (Estimator * ModelHandle) :=
  match ev with
  | existT _ (CreateModel e) (inr m) => Some (e, m)
  | _ => None
  end.

Definition fitted (ev : event) : option Estimator :=
  match ev with
  | existT _ (FitPath e _ _) (inr _) => Some e
  | existT _ (FitInput e _ _ _) (inr _) => Some e
  | _ => None
  end.

(** A world in which every call succeeds. *)
Definition default_reply (c : call) : val c :=
  match c with
  | GetExecutionRole => "arn:aws:iam::123456789012:role/sagemaker"
  | DefaultBucket => "sagemaker-us-west-2-123456789012"
  | RegionName => "us-west-2"
  | UploadData path bucket key_prefix => "s3://" ++ bucket ++ "/" ++ key_prefix
  | MakeTransformer _ _ _ _ _ => {| transformer_id := "transformer" |}
  | LatestJobName _ => "transform-job"
  | OutputPath _ => "s3://sagemaker-us-west-2-123456789012/transform-job"
  | ImageUrisRetrieve framework _ => framework
  | Strftime _ => "2024-01-01-00-00-00"
  | CreateModel (SKLearn _ _ _ _) => {| model_id := "sklearn-model" |}
  | CreateModel (GenericEstimator _ _ _ _ _ _ _ _ _) => {| model_id := "linear-learner-model" |}
  | _ => tt
  end.

Definition obliging (c : call) (w : unit) : unit * (exn + val c) :=
  (w, inr (default_reply c)).

(** A shell command; the notebook goes on when it fails. *)
Definition is_shell (c : call) : bool :=
  match c with Shell _ => true | _ => false end.

(** A world, of any kind, in which every call but a shell command
    succeeds. *)
Definition obliges {W : Type} (handle : forall c : call, W -> W * (exn + val c)) : Prop :=
  forall (c : call) (w : W), is_shell c = false -> exists w' v, handle c w = (w', inr v).

End InferencePipeline.

(* ===================================================================== *)
(** * The featurizer script of the inference pipeline                     *)
(* ===================================================================== *)

Module Featurizer.
Import Py Run.

(** ** The constants of the script *)

Definition feature_columns_names : list string :=
  ["sex"; "length"; "diameter"; "height"; "whole_weight"; "shucked_weight";
   "viscera_weight"; "shell_weight"].

Definition label_column : string := "rings".

Definition feature_columns_dtype : list (string * string) :=
  [("sex", "category"); ("length", "float64"); ("diameter", "float64");
   ("height", "float64"); ("whole_weight", "float64"); ("shucked_weight", "float64");
   ("viscera_weight", "float64"); ("shell_weight", "float64")].

Definition label_column_dtype : list (string * string) := [("rings", "float64")].

(** No string twice. *)
Fixpoint distinct (l : list string) : bool :=
  match l with
  | [] => true
  | k :: l' => negb (existsb (String.eqb k) l') && distinct l'
  end.

(** ** [merge_two_dicts]

    A dict holds each key once, in insertion order.  Dicts are objects:
    the store holds them by address, [x.copy()] allocates a new one and
    [z.update(y)] writes to the one at [z]. *)

Section Dicts.

Variable V : Type.

Definition pydict : Type := list (string * V).

Definition keys (d : pydict) : list string := List.map fst d.

(** [d[k]], [None] for a missing key. *)
Fixpoint get (k : string) (d : pydict) : option V :=
  match d with
  | [] => None
  | (k', v) :: d' => if (k' =? k)%string then Some v else get k d'
  end.

(** [d[k] = v]: a key that is there keeps its place. *)
Fixpoint setitem (k : string) (v : V) (d : pydict) : pydict :=
  match d with
  | [] => [(k, v)]
  | (k', v') :: d' =>
      if (k' =? k)%string then (k', v) :: d' else (k', v') :: setitem k v d'
  end.

(** The contents of [z] after [z.update(y)]. *)
Definition updated (z y : pydict) : pydict :=
  fold_left (fun z kv => setitem (fst kv) (snd kv) z) y z.

Definition store : Type := list pydict.
Definition address : Type := nat.

Definition read (a : address) (s : store) : option pydict := nth_error s a.

Definition alloc (d : pydict) (s : store) : address * store :=
  (length s, (s ++ [d])%list).

Fixpoint write (a : address) (d : pydict) (s : store) : store :=
  match s, a with
  | [], _ => []
  | _ :: s', 0 => d :: s'
  | d0 :: s', S a' => d0 :: write a' d s'
  end.

(** [x.copy()] *)
Definition copy (x : address) (s : store) : option (address * store) :=
  match read x s with
  | Some d => Some (alloc d s)
  | None => None
  end.

(** [z.update(y)] *)
Definition update (z y : address) (s : store) : option store :=
  match read z s, read y s with
  | Some dz, Some dy => Some (write z (updated dz dy) s)
  | _, _ => None
  end.

(** [None] only for an address that holds no dict. *)
Definition merge_two_dicts (x y : address) (s : store) : option (address * store) :=
  match copy x s with
  | Some (z, s1) =>
      match update z y s1 with
      | Some s2 => Some (z, s2)
      | None => None
      end
  | None => None
  end.

End Dicts.

(** ** The serving functions: [input_fn] and [predict_fn] *)

(** A column label: a position, as a CSV read without a header gives, or a
    name. *)
Inductive label : Type :=
| Pos (i : nat)
| Named (s : string).

Definition label_eqb (a b : label) : bool :=
  match a, b with
  | Pos i, Pos j => i =? j
  | Named s, Named t => (s =? t)%string
  | _, _ => false
  end.

Section Serving.

(** The entries of a table and of a numpy array. *)
Variable cell : Type.
Variable number : Type.

(** A [DataFrame], column by column: each label with its values. *)
Definition DataFrame : Type := list (label * list cell).

Definition columns (df : DataFrame) : list label := List.map fst df.

(** [pd.read_csv(StringIO(input_data), header=None)] gives the parsed
    columns; without a header they are labelled [0], [1], ... *)
Variable read_csv : string -> exn + list (list cell).

Definition read_csv_headerless (input_data : string) : exn + DataFrame :=
  match read_csv input_data with
  | inl e => inl e
  | inr cols => inr (combine (List.map Pos (seq 0 (length cols))) cols)
  end.

(** [df.columns = names]: as many names as columns, or a [ValueError]. *)
Definition set_columns (names : list string) (df : DataFrame) : exn + DataFrame :=
  if length names =? length df
  then inr (combine (List.map Named names) (List.map snd df))
  else inl (ValueError ("Length mismatch: Expected axis has " ++ str_of_nat (length df)
                        ++ " elements, new values have " ++ str_of_nat (length names)
                        ++ " elements")).

Definition input_fn (input_data content_type : string) : exn + DataFrame :=
  if (content_type =? "text/csv")%string then
    match read_csv_headerless input_data with
    | inl e => inl e
    | inr df =>
        if length (columns df) =? length feature_columns_names + 1 then
          set_columns (feature_columns_names ++ [label_column]) df
        else if length (columns df) =? length feature_columns_names then
          set_columns feature_columns_names df
        else inr df
    end
  else inl (ValueError (content_type ++ " not supported by script!")).

(** [name in df] *)
Definition contains (name : string) (df : DataFrame) : bool :=
  existsb (label_eqb (Named name)) (columns df).

(** The columns labelled [name], in their order. *)
Definition labelled (name : string) (df : DataFrame) : list (list cell) :=
  List.map snd (filter (fun c => label_eqb (fst c) (Named name)) df).

(** What indexing a table by a label gives: the one column under the
    label, a [Series], or, the label being that of several columns, the
    table of these columns. *)
Inductive selection : Type :=
| Series (values : list cell)
| Table (cols : list (list cell)).

(** [df[name]] *)
Definition getitem (name : string) (df : DataFrame) : exn + selection :=
  match labelled name df with
  | [] => inl (KeyError name)
  | [values] => inr (Series values)
  | cols => inr (Table cols)
  end.

(** The fitted preprocessor and its [transform], which gives a
    two-dimensional array, row by row. *)
Variable model : Type.
Variable transform : model -> DataFrame -> exn + list (list number).

(** The conversion of a table entry to the dtype of the array. *)
Variable as_number : cell -> exn + number.

Fixpoint as_numbers (values : list cell) : exn + list number :=
  match values with
  | [] => inr []
  | v :: rest =>
      match as_number v with
      | inl e => inl e
      | inr x =>
          match as_numbers rest with
          | inl e => inl e
          | inr xs => inr (x :: xs)
          end
      end
  end.

Fixpoint as_numbers_each (cols : list (list cell)) : exn + list (list number) :=
  match cols with
  | [] => inr []
  | c :: rest =>
      match as_numbers c with
      | inl e => inl e
      | inr xs =>
          match as_numbers_each rest with
          | inl e => inl e
          | inr xss => inr (xs :: xss)
          end
      end
  end.

(** The shape [(a,b)] of an array, as numpy prints it. *)
Definition shape (a b : nat) : string :=
  "(" ++ str_of_nat a ++ "," ++ str_of_nat b ++ ")".

Definition could_not_broadcast (from into : string) : exn :=
  ValueError ("could not broadcast input array from shape " ++ from
              ++ " into shape " ++ into).

(** [np.insert(arr, 0, values, axis=1)], [arr] an array of two dimensions
    given row by row.  The values take the dtype of [arr], and their
    first axis is moved to the second place.  A [Series] of [n] values so
    is an array of shape [(n,1)], one new column: a single value is
    broadcast to every row, any other length than the number of rows is
    a [ValueError].  A [Table] of [c] columns of [n] values, of shape
    [(n,c)], so is an array of shape [(c,n)], the columns of the table as
    its rows: [n] new columns, and as many columns in the table as [arr]
    has rows, or one, or a [ValueError]. *)
Definition np_insert_first_column (arr : list (list number)) (values : selection)
  : exn + list (list number) :=
  match values with
  | Series values =>
      match as_numbers values with
      | inl e => inl e
      | inr xs =>
          if length xs =? length arr then
            inr (List.map (fun p => fst p :: snd p) (combine xs arr))
          else match xs with
               | [x] => inr (List.map (cons x) arr)
               | _ => inl (could_not_broadcast (shape (length xs) 1) (shape (length arr) 1))
               end
      end
  | Table cols =>
      match as_numbers_each cols with
      | inl e => inl e
      | inr xss =>
          let n := length (hd [] cols) in
          if length xss =? length arr then
            inr (List.map (fun p => fst p ++ snd p)%list (combine xss arr))
          else match xss with
               | [xs] => inr (List.map (app xs) arr)
               | _ => inl (could_not_broadcast (shape (length xss) n) (shape (length arr) n))
               end
      end
  end.

Definition predict_fn (input_data : DataFrame) (m : model) : exn + list (list number) :=
  match transform m input_data with
  | inl e => inl e
  | inr features =>
      if contains label_column input_data then
        match getitem label_column input_data with
        | inl e => inl e
        | inr labels => np_insert_first_column features labels
        end
      else inr features
  end.

End Serving.

(** The labels of a table of [n] columns after [input_fn]. *)
Definition labels_for (n : nat) : list label :=
  if n =? 9 then List.map Named (feature_columns_names ++ [label_column])
  else if n =? 8 then List.map Named feature_columns_names
  else List.map Pos (seq 0 n).

(** A row of an array made of a row [f] and one entry before it. *)
Definition extends {number} (o f : list number) : Prop := exists x, o = x :: f.

(** A row made of a row [f] and some entries before it. *)
Definition ends_with {number} (o f : list number) : Prop := exists front, o = (front ++ f)%list.

(** ** The training part of the script, and [model_fn] *)

Fixpoint ends_with_slash (s : string) : bool :=
  match s with
  | EmptyString => false
  | String c EmptyString => Ascii.eqb c "/"%char
  | String _ s' => ends_with_slash s'
  end.

(** [os.path.join(a, b)] on a POSIX system. *)
Definition os_path_join (a b : string) : string :=
  if starts_with "/" b then b
  else if (a =? "")%string || ends_with_slash a then a ++ b
  else a ++ "/" ++ b.

(** What [parser.parse_args()] returns. *)
Record Namespace : Type := {
  output_data_dir : string; model_dir : string; train : string
}.

(** Tables and fitted preprocessors live in the interpreter; the script
    holds references to them. *)
Record Frame : Type := { frame_id : nat }.
Record Fitted : Type := { fitted_id : nat }.

Inductive Step : Type :=
| SimpleImputer (strategy : string) (fill_value : option string)
| StandardScaler
| OneHotEncoder (handle_unknown : string).

Inductive Selector : Type :=
| dtype_exclude (dtype : string)
| dtype_include (dtype : string).

(** [ColumnTransformer(transformers=[(name, pipeline, selector), ...])] *)
Definition ColumnTransformer : Type := list (string * list Step * Selector).

Inductive call : Type :=
| Environ (key : string)                        (* os.environ[key] *)
| ParseArgs (defaults : Namespace)              (* parser.parse_args() *)
| ListDir (path : string)                       (* os.listdir *)
| ReadCsv (file : string) (names : list string) (dtype : list (string * string))
| Concat (frames : list Frame)                  (* pd.concat *)
| DropInplace (data : Frame) (label : string)   (* data.drop(label, axis=1, inplace=True) *)
| Fit (preprocessor : ColumnTransformer) (data : Frame)
| Dump (obj : Fitted) (file : string)           (* joblib.dump *)
| Load (file : string)                          (* joblib.load *)
| Print (msg : string).

Definition val (c : call) : Type :=
  match c with
  | Environ _ => string
  | ParseArgs _ => Namespace
  | ListDir _ => list string
  | ReadCsv _ _ _ | Concat _ => Frame
  | Fit _ _ | Load _ => Fitted
  | _ => unit
  end.

Abbreviation py := (Run.py val).
Abbreviation invoke := (@Run.invoke call val).
Abbreviation raise := (@Run.raise call val _).

Definition newline : string := String (ascii_of_nat 10) "".

(** The message of the [ValueError] for an empty input channel. *)
Definition no_files_message (train channel : string) : string :=
  "There are no files in " ++ train ++ "." ++ newline ++
  "This usually indicates that the channel (" ++ channel ++ ") was incorrectly specified," ++ newline ++
  "the data specification in S3 was incorrectly specified or the role specified" ++ newline ++
  "does not have permission to access the data.".

Definition preprocessor : ColumnTransformer :=
  let numeric_transformer := [SimpleImputer "median" None; StandardScaler] in
  let categorical_transformer :=
    [SimpleImputer "constant" (Some "missing"); OneHotEncoder "ignore"] in
  [("num", numeric_transformer, dtype_exclude "category");
   ("cat", categorical_transformer, dtype_include "category")].

(** One [pd.read_csv] of the list comprehension over [input_files]; the
    dtypes are the contents of the merged dict. *)
Definition read_file (file : string) (raw_data : list Frame) : py (list Frame) :=
  df <- invoke (ReadCsv file (feature_columns_names ++ [label_column])
                        (updated feature_columns_dtype label_column_dtype)) ;;
  Ret (raw_data ++ [df])%list.

(** The body of [if __name__ == '__main__':]. *)
Definition main : py unit :=
  default_output_data_dir <- invoke (Environ "SM_OUTPUT_DATA_DIR") ;;
  default_model_dir <- invoke (Environ "SM_MODEL_DIR") ;;
  default_train <- invoke (Environ "SM_CHANNEL_TRAIN") ;;
  args <- invoke (ParseArgs {| output_data_dir := default_output_data_dir;
                               model_dir := default_model_dir;
                               train := default_train |}) ;;
  listing <- invoke (ListDir (train args)) ;;
  let input_files := List.map (os_path_join (train args)) listing in
  if length input_files =? 0 then
    raise (ValueError (no_files_message (train args) "train"))
  else
    raw_data <- for_each input_files read_file [] ;;
    concat_data <- invoke (Concat raw_data) ;;
    invoke (DropInplace concat_data label_column) ;;
    fitted <- invoke (Fit preprocessor concat_data) ;;
    invoke (Dump fitted (os_path_join (model_dir args) "model.joblib")) ;;
    invoke (Print "saved model!").

Definition model_fn (model_dir : string) : py Fitted :=
  preprocessor <- invoke (Load (os_path_join model_dir "model.joblib")) ;;
  Ret preprocessor.

(** ** What a run of the script leaves in the trace *)

(** A successful call as an event. *)
Definition answered (c : call) (v : val c) : Run.event val := existT _ c (inr v).

Definition read_call (file : string) : call :=
  ReadCsv file (feature_columns_names ++ [label_column])
          (updated feature_columns_dtype label_column_dtype).

(** The directory an [os.listdir] was asked for, with its answer. *)
Definition listed (ev : Run.event val) : option (string * list string) :=
  match ev with
  | existT _ (ListDir path) (inr listing) => Some (path, listing)
  | _ => None
  end.

(** The calls of [main] before it lists the input directory. *)
Definition preamble (output_dir mdir tr : string) (args : Namespace) : list (Run.event val) :=
  [answered (Environ "SM_OUTPUT_DATA_DIR") output_dir;
   answered (Environ "SM_MODEL_DIR") mdir;
   answered (Environ "SM_CHANNEL_TRAIN") tr;
   answered (ParseArgs {| output_data_dir := output_dir; model_dir := mdir; train := tr |}) args].

(** ** A host with a file system for [joblib]

    The environment, the command line and the directories are the
    host's; [joblib.dump] writes a file and [joblib.load] reads it. *)
Record host : Type := {
  environ : string -> exn + string;
  argv : Namespace -> exn + Namespace;   (* the defaults, as the command line changes them *)
  listdir : string -> exn + list string;
  fit_id : nat
}.

Definition joblib_files : Type := list (string * Fitted).

Fixpoint find_file (file : string) (fs : joblib_files) : option Fitted :=
  match fs with
  | [] => None
  | (f, obj) :: fs' => if (f =? file)%string then Some obj else find_file file fs'
  end.

Definition file_system (h : host) (c : call) (fs : joblib_files)
  : joblib_files * (exn + val c) :=
  match c as c0 return joblib_files * (exn + val c0) with
  | Environ key => (fs, environ h key)
  | ParseArgs defaults => (fs, argv h defaults)
  | ListDir path => (fs, listdir h path)
  | ReadCsv _ _ _ => (fs, inr {| frame_id := 0 |})
  | Concat _ => (fs, inr {| frame_id := 1 |})
  | DropInplace _ _ => (fs, inr tt)
  | Fit _ _ => (fs, inr {| fitted_id := fit_id h |})
  | Dump obj file => ((file, obj) :: fs, inr tt)
  | Load file =>
      (fs, match find_file file fs with
           | Some obj => inr obj
           | None => inl (OtherError "FileNotFoundError" file)
           end)
  | Print _ => (fs, inr tt)
  end.

(** A host with two input files and no command-line arguments. *)
Definition training_host : host :=
  {| environ := fun key =>
       if (key =? "SM_OUTPUT_DATA_DIR")%string then inr "/opt/ml/output/data"
       else if (key =? "SM_MODEL_DIR")%string then inr "/opt/ml/model"
       else if (key =? "SM_CHANNEL_TRAIN")%string then inr "/opt/ml/input/data/train"
       else inl (KeyError key);
     argv := fun defaults => inr defaults;
     listdir := fun path =>
       if (path =? "/opt/ml/input/data/train")%string then inr ["a.csv"; "b.csv"]
       else inr [];
     fit_id := 7 |}.

(** The same host with an empty input channel. *)
Definition empty_channel_host : host :=
  {| environ := environ training_host;
     argv := argv training_host;
     listdir := fun _ => inr [];
     fit_id := 7 |}.

End Featurizer.

(* ===================================================================== *)
(** * Asynchronous inference notebook: what the calls refer to            *)
(* ===================================================================== *)

Module AsyncInferenceAudit.
Import Py Run AsyncInference.

Abbreviation event := (Run.event val).

(** ** Failures

    The notebook survives two kinds of failure: that of a shell command,
    and a read of an output that is not there yet. *)
Definition failed (ev : event) : bool :=
  match projT2 ev with
  | inl _ => true
  | inr _ => false
  end.

Definition survived (ev : event) : bool :=
  match ev with
  | existT _ (Shell _) _ => true
  | existT _ (ReadS3File _ _) (inl (ClientError code)) => (code =? NoSuchKey)%string
  | _ => false
  end.

Definition fatal (ev : event) : bool := failed ev && negb (survived ev).

(** The events after which the notebook does nothing more. *)
Definition is_last (ev : event) : bool :=
  fatal ev || is_delete_endpoint (call_of ev).

Definition running (h : list event) : Prop :=
  forallb (fun ev => negb (is_last ev)) h = true.

Definition stopped (h : list event) : Prop :=
  exists h' ev, h = (h' ++ [ev])%list /\ running h' /\ is_last ev = true.

(** ** What the earlier calls have returned *)

Record known : Type := {
  region : option string;        (* the region of the session *)
  role_arn : option string;      (* the answer of [get_execution_role()] *)
  bucket : option string;        (* the last answer of [default_bucket()] *)
  model_url : option string;     (* where the model was uploaded *)
  image : option string;         (* the answer of [image_uris.retrieve] *)
  times : list string;           (* the answers of [datetime.now().strftime] *)
  deployed_as : option string;   (* the endpoint name given to [deploy] *)
  predictor : option Predictor;  (* what [deploy] returned *)
  uploaded : option string;      (* the last answer of [upload_data] *)
  outputs : list string          (* the answers of [predict_async] *)
}.

Definition nothing : known :=
  {| region := None; role_arn := None; bucket := None; model_url := None; image := None;
     times := []; deployed_as := None; predictor := None; uploaded := None; outputs := [] |}.

Definition learn (k : known) (ev : event) : known :=
  match ev with
  | existT _ RegionName (inr r) =>
      {| region := Some r; role_arn := role_arn k; bucket := bucket k;
         model_url := model_url k; image := image k; times := times k;
         deployed_as := deployed_as k; predictor := predictor k;
         uploaded := uploaded k; outputs := outputs k |}
  | existT _ GetExecutionRole (inr r) =>
      {| region := region k; role_arn := Some r; bucket := bucket k;
         model_url := model_url k; image := image k; times := times k;
         deployed_as := deployed_as k; predictor := predictor k;
         uploaded := uploaded k; outputs := outputs k |}
  | existT _ DefaultBucket (inr b) =>
      {| region := region k; role_arn := role_arn k; bucket := Some b;
         model_url := model_url k; image := image k; times := times k;
         deployed_as := deployed_as k; predictor := predictor k;
         uploaded := uploaded k; outputs := outputs k |}
  | existT _ (UploadFileobj _ b key) (inr _) =>
      {| region := region k; role_arn := role_arn k; bucket := bucket k;
         model_url := Some ("s3://" ++ b ++ "/" ++ key); image := image k; times := times k;
         deployed_as := deployed_as k; predictor := predictor k;
         uploaded := uploaded k; outputs := outputs k |}
  | existT _ (ImageUrisRetrieve _ _ _) (inr container) =>
      {| region := region k; role_arn := role_arn k; bucket := bucket k;
         model_url := model_url k; image := Some container; times := times k;
         deployed_as := deployed_as k; predictor := predictor k;
         uploaded := uploaded k; outputs := outputs k |}
  | existT _ (Now _) (inr t) =>
      {| region := region k; role_arn := role_arn k; bucket := bucket k;
         model_url := model_url k; image := image k; times := (times k ++ [t])%list;
         deployed_as := deployed_as k; predictor := predictor k;
         uploaded := uploaded k; outputs := outputs k |}
  | existT _ (Deploy _ _ _ _ n) x =>
      {| region := region k; role_arn := role_arn k; bucket := bucket k;
         model_url := model_url k; image := image k; times := times k;
         deployed_as := Some n;
         predictor := match x with inr p => Some p | inl _ => None end;
         uploaded := uploaded k; outputs := outputs k |}
  | existT _ (UploadData _ _ _ _) (inr location) =>
      {| region := region k; role_arn := role_arn k; bucket := bucket k;
         model_url := model_url k; image := image k; times := times k;
         deployed_as := deployed_as k; predictor := predictor k;
         uploaded := Some location; outputs := outputs k |}
  | existT _ (PredictAsync _ _) (inr output_location) =>
      {| region := region k; role_arn := role_arn k; bucket := bucket k;
         model_url := model_url k; image := image k; times := times k;
         deployed_as := deployed_as k; predictor := predictor k;
         uploaded := uploaded k; outputs := (outputs k ++ [output_location])%list |}
  | _ => k
  end.

Definition knowledge (h : list event) : known := fold_left learn h nothing.

(** The scalable target of the endpoint named [n]. *)
Definition resource_id_of (n : string) : string :=
  "endpoint/" ++ n ++ "/variant/AllTraffic".

Section Targets.

Variable urlparse : string -> ParseResult.

(** [targeted k c]: call [c] refers to what the earlier calls returned. *)
Definition targeted (k : known) (c : call) : Prop :=
  match c with
  | UploadFileobj _ b _ => bucket k = Some b
  | UploadData _ b _ _ => bucket k = Some b
  | ImageUrisRetrieve r _ _ => region k = Some r
  | Deploy m cfg _ _ n =>
      model_url k = Some (model_data m)
      /\ image k = Some (image_uri m)
      /\ role_arn k = Some (role m)
      /\ (exists b, bucket k = Some b
                    /\ output_path cfg = "s3://" ++ b ++ "/DEMO-async-inference/output")
      /\ exists t1 t2, times k = [t1; t2]
                       /\ name m = "AsyncInferenceDemo-Model-" ++ t1
                       /\ n = "AsyncInferenceDemo-Endpoint-" ++ t2
  | RegisterScalableTarget _ resource_id _ _ _ =>
      exists n, deployed_as k = Some n /\ resource_id = resource_id_of n
  | PutScalingPolicy p =>
      exists n, deployed_as k = Some n /\ ResourceId p = resource_id_of n
                /\ Dimensions p = [("EndpointName", n)]
  | DeregisterScalableTarget _ resource_id _ =>
      exists n, deployed_as k = Some n /\ resource_id = resource_id_of n
  | PredictAsync p input_path => predictor k = Some p /\ uploaded k = Some input_path
  | DeleteEndpoint p => predictor k = Some p
  | ReadS3File b key =>
      exists location, In location (outputs k)
                       /\ ReadS3File b key = read_of urlparse location
  | _ => True
  end.

Definition audited (h : list event) : Prop :=
  forall pre ev post, h = (pre ++ ev :: post)%list -> targeted (knowledge pre) (call_of ev).

(** The history of a run, at any moment. *)
Definition sound (h : list event) : Prop :=
  audited h /\ (running h \/ stopped h).

(** The history of a run that goes on, with what it has learnt. *)
Definition live (K : known -> Prop) (h : list event) : Prop :=
  audited h /\ running h /\ K (knowledge h).

(** The history right after the event that ends the run. *)
Definition ended (h : list event) : Prop := audited h /\ stopped h.

(** The history of a run that went through: the deletion of the endpoint
    is its last event, and succeeded. *)
Definition finished (h : list event) : Prop :=
  audited h
  /\ exists h' p, h = (h' ++ [existT _ (DeleteEndpoint p) (inr tt)])%list /\ running h'.

(** What is known once the endpoint [n] is deployed with predictor [p]
    and the outputs [outs] have been promised. *)
Definition deployed (n : string) (p : Predictor) (outs : list string) (k : known) : Prop :=
  deployed_as k = Some n /\ predictor k = Some p /\ incl outs (outputs k).

End Targets.

End AsyncInferenceAudit.

(** ** Runs that go through *)

Module AsyncInferenceCompletion.
Import Py Run AsyncInference.

(** [completes e t w a w']: in the polling world [e], from state [w], the
    program [t] returns [a] and leaves the state [w'], given enough fuel;
    fuel beyond what it needs is left over. *)
Definition completes (e : env) {R} (t : py R) (w : polls) (a : R) (w' : polls) : Prop :=
  exists f, forall k,
    let r := Run.run (poll_world e) (f + k) t w in
    out r = Done a /\ final r = w' /\ left r = k.

(** What the [i]-th request adds to [inferences] in the polling world. *)
Definition inference_of (e : env) (p : Predictor) (i : nat) : string * string :=
  let input_file := input_file_of i in
  let bucket := reply e DefaultBucket in
  let location :=
    reply e (UploadData input_file bucket (bucket_prefix ++ "/input") "text/libsvm") in
  (input_file, reply e (PredictAsync p location)).

End AsyncInferenceCompletion.

(** ** Characters of a text *)

Module BatchTransformText.
Import Py BatchTransform.

(** How many times [x] occurs in [s]. *)
Fixpoint count_char (x : ascii) (s : string) : nat :=
  match s with
  | EmptyString => 0
  | String c s' => (if Ascii.eqb c x then 1 else 0) + count_char x s'
  end.

(** Every character of [s] satisfies [p]. *)
Fixpoint all_chars (p : ascii -> bool) (s : string) : bool :=
  match s with
  | EmptyString => true
  | String c s' => p c && all_chars p s'
  end.

(** A printable ASCII character other than ['@'], or a line feed. *)
Definition plain (c : ascii) : bool :=
  let n := nat_of_ascii c in
  ((32 <=? n) && (n <=? 126) && negb (n =? 64)) || (n =? 10).

(** A stand-in for [literal_eval] that refuses a literal holding ['x']. *)
Definition no_x (s : string) : exn + string :=
  if occurs "x" s then inl (ValueError "malformed node or string") else inr s.

End BatchTransformText.

(** ** Versions of a given shape, and services for the error cases *)

Module FeatureStoreCases.
Import Py Run FeatureStore.

(** The character of a decimal digit. *)
Definition digit (n : nat) : ascii := ascii_of_nat (48 + n).

(** The version [a.bc.d], each letter a digit: the shape of ["2.48.1"]. *)
Definition version_1_2_1 (a b c d : nat) : string :=
  String (digit a) (String "." (String (digit b) (String (digit c)
    (String "." (String (digit d) ""))))).

(** The version [a.bc.de]: the shape of ["1.24.23"]. *)
Definition version_1_2_2 (a b c d e : nat) : string :=
  String (digit a) (String "." (String (digit b) (String (digit c)
    (String "." (String (digit d) (String (digit e) "")))))).

(** A table with one row for each of [n] records, each row as long as the
    list of columns. *)
Definition rectangular (n : nat) (df : DataFrame) : Prop :=
  length (rows df) = n /\ forall row, In row (rows df) -> length row = length (columns df).

(** A service whose response has no key ["Results"]. *)
Definition no_results_key (c : call) (w : unit) : unit * (exn + val c) :=
  match c with
  | CheckCall _ => (w, inr 0)
  | Reload _ => (w, inr tt)
  | Search _ _ => (w, inr (JDict [("NextToken", JStr "t")]))
  end.

(** A service whose one result has a field beside ["FeatureMetadata"]. *)
Definition with_score (c : call) (w : unit) : unit * (exn + val c) :=
  match c with
  | CheckCall _ => (w, inr 0)
  | Reload _ => (w, inr tt)
  | Search _ _ =>
      (w, inr (JDict [("Results",
                       JList [JDict [("FeatureMetadata",
                                      JDict [("FeatureGroupArn", JStr "arn");
                                             ("FeatureName", JStr "age")]);
                                     ("Score", JNum 1)]])]))
  end.

End FeatureStoreCases.

(** ** The pace of the polling loop *)

Module AsyncInferencePace.
Import Py Run AsyncInference.

Section Pace.

Variable urlparse : string -> ParseResult.

(** The calls of one unsuccessful poll of [location]. *)
Definition round (location : string) : list call :=
  [read_of urlparse location; Print "waiting for output..."; Sleep (2 # 1)].

(** [k] unsuccessful polls, then the first [n] calls of the next one. *)
Definition polling (location : string) (k n : nat) : list call :=
  (List.concat (repeat (round location) k) ++ firstn n (round location))%list.

(** The calls are those of a polling loop, as far as it got. *)
Definition paced (location : string) (tr : list call) : Prop :=
  exists k n, tr = polling location k n.

(** The history is that of [k] polls and [n] calls. *)
Definition at_call (location : string) (k n : nat) (h : list (Run.event val)) : Prop :=
  List.map (call_of (val:=val)) h = polling location k n.

Definition in_pace (location : string) (h : list (Run.event val)) : Prop :=
  paced location (List.map (call_of (val:=val)) h).

End Pace.

End AsyncInferencePace.

(** ** The events of a run of the pipeline notebook *)

Module InferencePipelineTrace.
Import Py Run InferencePipeline.

(** A successful call as an event. *)
Definition answered (c : call) (v : val c) : Run.event val := existT _ c (inr v).

(** A shell command with its outcome, which the notebook ignores. *)
Definition ran (cmd : string) (x : exn + unit) : Run.event val := existT _ (Shell cmd) x.

End InferencePipelineTrace.

(* ===================================================================== *)
(** * Properties of runs                                                  *)
(* ===================================================================== *)

Module RunFacts.
Import Py Run.

Lemma pick_app {A B} (f : A -> option B) (l1 l2 : list A) :
  pick f (l1 ++ l2)%list = (pick f l1 ++ pick f l2)%list.
Proof.
  induction l1 as [|x l1 IH]; cbn; [reflexivity|].
  destruct (f x); cbn; rewrite IH; reflexivity.
Qed.

Section Calls.

Variable call : Type.
Variable val : call -> Type.
Variable W : Type.
Variable handle : forall c : call, W -> W * (exn + val c).

Abbreviation py := (Run.py val).
Abbreviation run := (@Run.run call val W handle _).
Abbreviation then_run := (@Run.then_run call val W handle _ _).
Abbreviation Result := (@Run.Result call val W _).
Abbreviation result := (Run.result val W).
Abbreviation try_call := (@Run.try_call call val).
Abbreviation invoke := (@Run.invoke call val).
Abbreviation raise := (@Run.raise call val _).

Lemma run_unfold {R} fuel (t : py R) w :
  run fuel t w =
  match observe t with
  | RetF r => Result w [] (Done r) fuel
  | TauF t' =>
      match fuel with
      | 0 => Result w [] OutOfFuel 0
      | S f => run f t' w
      end
  | VisF e k =>
      match e with
      | inl1 (Throw ex) => Result w [] (Raised ex) fuel
      | inr1 ce =>
          match ce in callE _ X return (X -> py R) -> result R with
          | Call c => fun k' =>
              match fuel with
              | 0 => Result w [] OutOfFuel 0
              | S f =>
                  let (w1, x) := handle c w in
                  let r := run f (k' x) w1 in
                  Result (final r) (existT _ c x :: trace r) (out r) (left r)
              end
          end k
      end
  end.
Proof. destruct fuel; reflexivity. Qed.

Lemma result_eta {R} (r : result R) :
  Result (final r) (trace r) (out r) (left r) = r.
Proof. destruct r; reflexivity. Qed.

Lemma run_bind {A R} fuel (t : py A) (k : A -> py R) w :
  run fuel (ITree.bind t k) w = then_run (run fuel t w) k.
Proof.
  revert t w. induction fuel as [|f IH]; intros t w.
  - rewrite (run_unfold 0 (ITree.bind t k)), (run_unfold 0 t).
    unfold then_run.
    rewrite observe_bind.
    destruct (observe t) as [r|t'|X e h].
    + cbn. rewrite result_eta. reflexivity.
    + reflexivity.
    + destruct e as [ex|ce]; [destruct ex; reflexivity|].
      revert h. destruct ce as [c]. reflexivity.
  - rewrite (run_unfold (S f) (ITree.bind t k)), (run_unfold (S f) t).
    unfold then_run.
    rewrite observe_bind.
    destruct (observe t) as [r|t'|X e h].
    + cbn. rewrite result_eta. reflexivity.
    + cbn. rewrite IH. reflexivity.
    + destruct e as [ex|ce]; [destruct ex; reflexivity|].
      revert h. destruct ce as [c]. intros h. cbn.
      destruct (handle c w) as [w1 x]. rewrite IH.
      unfold then_run. destruct (out (run f (h x) w1)); reflexivity.
Qed.

Lemma run_iter {I R} fuel (body : I -> py (I + R)) (i : I) w :
  run fuel (ITree.iter body i) w =
  run fuel (lr <- body i ;;
            match lr with
            | inl l => Tau (ITree.iter body l)
            | inr r => Ret r
            end) w.
Proof. rewrite !run_unfold. reflexivity. Qed.

Lemma run_ret {R} fuel (r : R) w : run fuel (Ret r) w = Result w [] (Done r) fuel.
Proof. rewrite run_unfold. reflexivity. Qed.

Lemma run_raise {R} fuel (e : exn) w :
  run fuel (raise e : py R) w = Result w [] (Raised e) fuel.
Proof. rewrite run_unfold. reflexivity. Qed.

Lemma run_tau {R} fuel (t : py R) w : run (S fuel) (Tau t) w = run fuel t w.
Proof. reflexivity. Qed.

Lemma run_try_call fuel (c : call) w :
  run (S fuel) (try_call c) w =
  Result (fst (handle c w)) [existT _ c (snd (handle c w))]
         (Done (snd (handle c w))) fuel.
Proof.
  cbn. destruct (handle c w) as [w1 x]. rewrite run_ret. reflexivity.
Qed.

Lemma run_invoke fuel (c : call) w :
  run (S fuel) (invoke c) w =
  Result (fst (handle c w)) [existT _ c (snd (handle c w))]
         match snd (handle c w) with
         | inl e => Raised e
         | inr v => Done v
         end fuel.
Proof.
  unfold invoke. rewrite run_bind, run_try_call. unfold then_run. cbn.
  destruct (snd (handle c w)); [rewrite run_raise | rewrite run_ret]; reflexivity.
Qed.

Lemma run_ret_bind {A R} fuel (a : A) (k : A -> py R) w :
  run fuel (ITree.bind (Ret a) k) w = run fuel (k a) w.
Proof.
  rewrite run_bind, run_ret. unfold Run.then_run. cbn. apply result_eta.
Qed.

Lemma run_bind_bind {A B R} fuel (t : py A) (k1 : A -> py B) (k2 : B -> py R) w :
  run fuel (ITree.bind (ITree.bind t k1) k2) w =
  run fuel (ITree.bind t (fun a => ITree.bind (k1 a) k2)) w.
Proof.
  rewrite !run_bind. unfold Run.then_run.
  destruct (out (run fuel t w)) as [a|e|]; cbn; [|reflexivity|reflexivity].
  rewrite run_bind. unfold Run.then_run.
  destruct (out (run (left (run fuel t w)) (k1 a) (final (run fuel t w)))); cbn;
    try rewrite app_assoc; reflexivity.
Qed.

Lemma run_left_le {R} fuel (t : py R) w : left (run fuel t w) <= fuel.
Proof.
  revert t w. induction fuel as [|f IH]; intros t w; rewrite run_unfold.
  - destruct (observe t) as [r|t'|X e h]; cbn; auto.
    destruct e as [ex|ce]; [destruct ex; auto|].
    revert h. destruct ce as [c]. auto.
  - destruct (observe t) as [r|t'|X e h]; cbn; auto.
    destruct e as [ex|ce]; [destruct ex; auto|].
    revert h. destruct ce as [c]. intros h.
    destruct (handle c w) as [w1 x]. cbn. auto.
Qed.

(** A call followed by the rest of the program, one step at a time. *)
Lemma run_invoke_then {R} fuel (c : call) (k : val c -> py R) w :
  run fuel (x <- invoke c ;; k x) w =
  match fuel with
  | 0 => Result w [] OutOfFuel 0
  | S f =>
      let ev := existT _ c (snd (handle c w)) in
      match snd (handle c w) with
      | inl e => Result (fst (handle c w)) [ev] (Raised e) f
      | inr v => after_event ev (run f (k v) (fst (handle c w)))
      end
  end.
Proof.
  rewrite run_bind. destruct fuel as [|f].
  - reflexivity.
  - rewrite run_invoke. unfold Run.then_run. cbn.
    destruct (snd (handle c w)); reflexivity.
Qed.

Lemma run_try_call_then {R} fuel (c : call) (k : exn + val c -> py R) w :
  run fuel (x <- try_call c ;; k x) w =
  match fuel with
  | 0 => Result w [] OutOfFuel 0
  | S f =>
      after_event (existT _ c (snd (handle c w)))
                  (run f (k (snd (handle c w))) (fst (handle c w)))
  end.
Proof.
  rewrite run_bind. destruct fuel as [|f].
  - reflexivity.
  - rewrite run_try_call. reflexivity.
Qed.

Lemma run_invoke_0 (c : call) w : run 0 (invoke c) w = Result w [] OutOfFuel 0.
Proof. reflexivity. Qed.

End Calls.

Section Triples.

Variable call : Type.
Variable val : call -> Type.

Abbreviation py := (Run.py val).
Abbreviation event := (Run.event val).
Abbreviation try_call := (@Run.try_call call val).
Abbreviation invoke := (@Run.invoke call val).
Abbreviation raise := (@Run.raise call val _).

Variable I : list event -> Prop.

Lemma triple_ret {R} (P : list event -> Prop) (a : R) (Q : R -> list event -> Prop) :
  (forall h, P h -> I h /\ Q a h) ->
  triple I P (Ret a : py R) Q.
Proof.
  intros H W handle fuel w h0 HP. cbn zeta. rewrite run_ret. cbn.
  rewrite app_nil_r. split; [apply H, HP|].
  intros a' Ha. injection Ha as <-. apply H, HP.
Qed.

Lemma triple_raise {R} (P : list event -> Prop) (e : exn) (Q : R -> list event -> Prop) :
  (forall h, P h -> I h) ->
  triple I P (raise e : py R) Q.
Proof.
  intros H W handle fuel w h0 HP. cbn zeta. rewrite run_raise. cbn.
  rewrite app_nil_r. split; [apply H, HP|]. discriminate.
Qed.

Lemma triple_try_call (P : list event -> Prop) (c : call)
      (Q : exn + val c -> list event -> Prop) :
  (forall h, P h -> I h) ->
  (forall h x, P h -> I (h ++ [existT _ c x]) /\ Q x (h ++ [existT _ c x]))%list ->
  triple I P (try_call c) Q.
Proof.
  intros HI H W handle fuel w h0 HP. cbn zeta. destruct fuel as [|f].
  - cbn. rewrite app_nil_r. split; [apply HI, HP|]. discriminate.
  - rewrite run_try_call. cbn. split; [apply H, HP|].
    intros a Ha. injection Ha as <-. apply H, HP.
Qed.

Lemma triple_invoke (P : list event -> Prop) (c : call)
      (Q : val c -> list event -> Prop) :
  (forall h, P h -> I h) ->
  (forall h e, P h -> I (h ++ [existT _ c (inl e)]))%list ->
  (forall h v, P h -> I (h ++ [existT _ c (inr v)]) /\ Q v (h ++ [existT _ c (inr v)]))%list ->
  triple I P (invoke c) Q.
Proof.
  intros HI He Hv W handle fuel w h0 HP. cbn zeta. destruct fuel as [|f].
  - cbn. rewrite app_nil_r. split; [apply HI, HP|]. discriminate.
  - rewrite run_invoke. cbn. destruct (snd (handle c w)) as [e|v].
    + split; [apply He, HP|]. discriminate.
    + split; [apply Hv, HP|]. intros a Ha. injection Ha as <-. apply Hv, HP.
Qed.

Lemma triple_bind {A R} (P : list event -> Prop) (t : py A) (k : A -> py R)
      (Q1 : A -> list event -> Prop) (Q : R -> list event -> Prop) :
  triple I P t Q1 ->
  (forall a, triple I (Q1 a) (k a) Q) ->
  triple I P (ITree.bind t k) Q.
Proof.
  intros Ht Hk W handle fuel w h0 HP. cbn zeta. rewrite run_bind.
  destruct (Ht W handle fuel w h0 HP) as [HI1 HQ1].
  unfold Run.then_run. destruct (out (Run.run handle fuel t w)) as [a|e|] eqn:Ho; cbn.
  - specialize (HQ1 a eq_refl).
    destruct (Hk a W handle (left (Run.run handle fuel t w))
                 (final (Run.run handle fuel t w)) _ HQ1) as [HI2 HQ2].
    rewrite app_assoc. split; assumption.
  - split; [assumption|discriminate].
  - split; [assumption|discriminate].
Qed.

Lemma triple_conseq {R} (P P' : list event -> Prop) (t : py R)
      (Q Q' : R -> list event -> Prop) :
  (forall h, P' h -> P h) ->
  triple I P t Q ->
  (forall a h, Q a h -> Q' a h) ->
  triple I P' t Q'.
Proof.
  intros HP Ht HQ W handle fuel w h0 H.
  destruct (Ht W handle fuel w h0 (HP _ H)) as [H1 H2].
  split; [assumption|]. intros a Ha. apply HQ, H2, Ha.
Qed.

(** A [for] loop: [Inv done acc] holds of the history when the elements
    [done] have been processed and the loop variables are [acc]. *)
Lemma triple_for_each {A S} (body : A -> S -> py S)
      (Inv : list A -> S -> list event -> Prop) :
  (forall done acc h, Inv done acc h -> I h) ->
  forall xs done acc,
  (forall pre x acc, (exists post, done ++ xs = pre ++ x :: post)%list ->
     triple I (Inv pre acc) (body x acc) (fun acc' => Inv (pre ++ [x])%list acc')) ->
  triple I (Inv done acc) (for_each xs body acc) (fun acc' => Inv (done ++ xs)%list acc').
Proof.
  intros HI xs. induction xs as [|x xs IH]; intros done acc Hbody.
  - cbn. rewrite app_nil_r. apply triple_ret. intros h Hh. split; [eapply HI; eauto|assumption].
  - cbn. eapply triple_bind.
    + apply Hbody. exists xs. reflexivity.
    + intros acc'. cbn beta.
      replace (done ++ x :: xs)%list with ((done ++ [x]) ++ xs)%list
        by (rewrite <- app_assoc; reflexivity).
      apply IH. intros pre y acc0 [post Hpost]. apply Hbody.
      exists post. rewrite <- Hpost, <- app_assoc. reflexivity.
Qed.

(** A [while True] loop: [Inv i] holds of the history whenever the body is
    entered with loop state [i]. *)
Lemma triple_iter {X R} (body : X -> py (X + R))
      (Inv : X -> list event -> Prop) (Q : R -> list event -> Prop) :
  (forall i h, Inv i h -> I h) ->
  (forall i, triple I (Inv i) (body i)
               (fun lr h => match lr with inl i' => Inv i' h | inr r => Q r h end)) ->
  forall i, triple I (Inv i) (ITree.iter body i) Q.
Proof.
  intros HI Hbody i W handle fuel. revert i.
  induction fuel as [fuel IH] using lt_wf_ind. intros i w h0 HP. cbn zeta.
  rewrite run_iter, run_bind.
  destruct (Hbody i W handle fuel w h0 HP) as [HI1 HQ1].
  pose proof (run_left_le handle fuel (body i) w) as Hle.
  unfold Run.then_run.
  destruct (out (Run.run handle fuel (body i) w)) as [[i'|r]|e|] eqn:Ho; cbn.
  - specialize (HQ1 _ eq_refl). cbn in HQ1.
    destruct (left (Run.run handle fuel (body i) w)) as [|f] eqn:Hl.
    + cbn. rewrite app_nil_r. split; [assumption|discriminate].
    + rewrite run_tau.
      assert (Hlt : f < fuel) by lia.
      destruct (IH f Hlt i' (final (Run.run handle fuel (body i) w)) _ HQ1) as [H1 H2].
      rewrite app_assoc. split; assumption.
  - specialize (HQ1 _ eq_refl). cbn in HQ1.
    rewrite run_ret. cbn. rewrite app_nil_r. split; [assumption|].
    intros a Ha. injection Ha as <-. assumption.
  - split; [assumption|discriminate].
  - split; [assumption|discriminate].
Qed.

End Triples.

(** Stepping through a program one call at a time. *)
Ltac retype_binds :=
  repeat match goal with
  | |- context [@ITree.bind ?E ?T ?U (@Run.invoke ?ca ?va ?c) ?k] =>
      lazymatch T with
      | va c => fail
      | _ => change (@ITree.bind E T U (@Run.invoke ca va c) k)
               with (@ITree.bind E (va c) U (@Run.invoke ca va c) k)
      end
  | |- context [@Run.run ?ca ?va ?W ?h ?R ?f (@Run.invoke ?ca ?va ?c) ?w] =>
      lazymatch R with
      | va c => fail
      | _ => change (@Run.run ca va W h R f (@Run.invoke ca va c) w)
               with (@Run.run ca va W h (va c) f (@Run.invoke ca va c) w)
      end
  end.

Ltac run_step :=
  retype_binds;
  first [ rewrite run_try_call_then | rewrite run_invoke_then | rewrite run_ret
        | rewrite run_raise | rewrite run_invoke ].

(** Removing what stands between a [run] and its first call. *)
Ltac exec_norm :=
  repeat first [ rewrite run_bind_bind | rewrite run_ret_bind | rewrite run_ret
               | rewrite run_raise ].

(** The next call of a program in an arbitrary world: the fuel is used up,
    or the world raises, or it answers. *)
Ltac exec_call :=
  retype_binds;
  match goal with
  | |- context [@Run.run _ _ _ ?h _ ?fuel (@ITree.bind _ _ _ (@Run.invoke _ _ ?c) _) ?w] =>
      rewrite run_invoke_then;
      destruct fuel;
      [ | let w1 := fresh "w" in let x := fresh "x" in
          destruct (h c w) as [w1 [x|x]]; cbn [fst snd] ]
  | |- context [@Run.run _ _ _ ?h _ ?fuel (@ITree.bind _ _ _ (@Run.try_call _ _ ?c) _) ?w] =>
      rewrite run_try_call_then;
      destruct fuel;
      [ | let w1 := fresh "w" in let x := fresh "x" in
          destruct (h c w) as [w1 x]; cbn [fst snd] ]
  | |- context [@Run.run _ _ _ ?h _ ?fuel (@Run.invoke _ _ ?c) ?w] =>
      destruct fuel;
      [ rewrite run_invoke_0
      | rewrite run_invoke;
        let w1 := fresh "w" in let x := fresh "x" in
        destruct (h c w) as [w1 [x|x]]; cbn [fst snd] ]
  end.

End RunFacts.

(* ===================================================================== *)
(** * Asynchronous inference: polling for the output                      *)
(* ===================================================================== *)

Module AsyncInferenceFacts.
Import Py Run RunFacts AsyncInference.

Section Polling.

Variable urlparse : string -> ParseResult.
Variable e : env.

Abbreviation run := (Run.run (poll_world e)).
Abbreviation get_output := (AsyncInference.get_output urlparse).
Abbreviation read_event := (AsyncInference.read_event urlparse).
Abbreviation retry_events := (AsyncInference.retry_events urlparse e).

Lemma no_such_key_inv r :
  is_no_such_key r = true -> r = inl (ClientError NoSuchKey).
Proof.
  destruct r as [[code| | | | |]|]; cbn; try discriminate.
  intros H. apply String.eqb_eq in H. subst. reflexivity.
Qed.

Arguments slice_from : simpl never.

#[local] Ltac poll_step :=
  run_step;
  cbn [poll_world fst snd session attempt after_event final trace out left is_no_such_key].

Lemma poll_retry loc s a fuel :
  read_outcome e s a = inl (ClientError NoSuchKey) ->
  run (3 + fuel) (poll (urlparse loc) tt) {| session := s; attempt := a |} =
  Result {| session := s; attempt := S a |} (retry_events loc) (Done (inl tt)) fuel.
Proof.
  intros H. unfold poll, print. cbn [plus].
  poll_step. rewrite H. cbn [is_no_such_key]. rewrite String.eqb_refl. cbv iota.
  do 3 poll_step. reflexivity.
Qed.

Lemma poll_starved loc s a fuel :
  read_outcome e s a = inl (ClientError NoSuchKey) ->
  fuel < 3 ->
  out (run fuel (poll (urlparse loc) tt) {| session := s; attempt := a |}) = OutOfFuel.
Proof.
  intros H Hf. unfold poll, print.
  destruct fuel as [|[|[|f]]]; [| | |lia].
  - poll_step. reflexivity.
  - poll_step. rewrite H. cbn [is_no_such_key]. rewrite String.eqb_refl. cbv iota.
    poll_step. reflexivity.
  - poll_step. rewrite H. cbn [is_no_such_key]. rewrite String.eqb_refl. cbv iota.
    do 2 poll_step. reflexivity.
Qed.

Lemma poll_settles loc s a fuel :
  is_no_such_key (read_outcome e s a) = false ->
  run (S fuel) (poll (urlparse loc) tt) {| session := s; attempt := a |} =
  Result {| session := S s; attempt := 0 |} [read_event loc (read_outcome e s a)]
         match read_outcome e s a with
         | inl ex => Raised ex
         | inr contents => Done (inr contents)
         end fuel.
Proof.
  intros H. unfold poll, print. poll_step. rewrite H.
  destruct (read_outcome e s a) as [[code| | | | |]|contents]; cbn in H;
    try rewrite H; poll_step; reflexivity.
Qed.

Lemma get_output_unfold loc fuel w :
  run fuel (get_output loc) w =
  Run.then_run (poll_world e) (run fuel (poll (urlparse loc) tt) w)
    (fun lr => match lr with
               | inl l => Tau (ITree.iter (poll (urlparse loc)) l)
               | inr r => Ret r
               end).
Proof.
  unfold AsyncInference.get_output. cbn zeta. rewrite run_iter, run_bind. reflexivity.
Qed.

(** [k] polls answered by [NoSuchKey], then one that is not. *)
Lemma get_output_run loc s k : forall a fuel,
  (forall j, j < k -> read_outcome e s (a + j) = inl (ClientError NoSuchKey)) ->
  is_no_such_key (read_outcome e s (a + k)) = false ->
  4 * k + 1 <= fuel ->
  run fuel (get_output loc) {| session := s; attempt := a |} =
  Result {| session := S s; attempt := 0 |}
         (List.concat (repeat (retry_events loc) k)
            ++ [read_event loc (read_outcome e s (a + k))])%list
         (settle (read_outcome e s (a + k)))
         (fuel - (4 * k + 1)).
Proof.
  induction k as [|k IH]; intros a fuel Hretry Hlast Hfuel.
  - rewrite Nat.add_0_r in *. destruct fuel as [|f]; [lia|].
    rewrite get_output_unfold, poll_settles by assumption.
    unfold Run.then_run. cbn [out final left trace].
    destruct (read_outcome e s a) as [ex|contents]; cbn.
    + rewrite Nat.sub_0_r. reflexivity.
    + rewrite run_ret. cbn. rewrite Nat.sub_0_r. reflexivity.
  - destruct fuel as [|[|[|[|f]]]]; try lia.
    rewrite get_output_unfold.
    change (S (S (S (S f)))) with (3 + S f).
    rewrite poll_retry by (rewrite <- (Nat.add_0_r a); apply Hretry; lia).
    unfold Run.then_run. cbn [out final left trace]. rewrite run_tau.
    change (ITree.iter (poll (urlparse loc)) tt) with (get_output loc).
    rewrite (IH (S a) f).
    + cbn [trace final out left repeat List.concat].
      rewrite <- app_assoc.
      replace (S a + k) with (a + S k) by lia.
      replace (f - (4 * k + 1)) with (3 + S f - (4 * S k + 1)) by lia.
      reflexivity.
    + intros j Hj. replace (S a + j) with (a + S j) by lia. apply Hretry. lia.
    + replace (S a + k) with (a + S k) by lia. assumption.
    + lia.
Qed.

(** With every poll answered by [NoSuchKey] no amount of fuel is enough. *)
Lemma get_output_starves loc s :
  (forall j, read_outcome e s j = inl (ClientError NoSuchKey)) ->
  forall fuel a,
    out (run fuel (get_output loc) {| session := s; attempt := a |}) = OutOfFuel.
Proof.
  intros Hall fuel. induction fuel as [fuel IH] using lt_wf_ind. intros a.
  rewrite get_output_unfold.
  destruct (Nat.lt_ge_cases fuel 3) as [Hlt|Hge].
  - unfold Run.then_run. rewrite (@poll_starved loc s a fuel (Hall a) Hlt). reflexivity.
  - replace fuel with (3 + (fuel - 3)) at 1 by lia.
    rewrite poll_retry by apply Hall.
    unfold Run.then_run. cbn [out final left trace].
    destruct (fuel - 3) as [|f] eqn:Hf; [reflexivity|].
    rewrite run_tau.
    change (ITree.iter (poll (urlparse loc)) tt) with (get_output loc).
    cbn [out]. apply IH. lia.
Qed.

(** A run that ends has seen a poll that was not answered by [NoSuchKey]. *)
Lemma get_output_ends loc s : forall fuel a,
  out (run fuel (get_output loc) {| session := s; attempt := a |}) <> OutOfFuel ->
  exists k,
    (forall j, j < k -> read_outcome e s (a + j) = inl (ClientError NoSuchKey))
    /\ is_no_such_key (read_outcome e s (a + k)) = false
    /\ 4 * k + 1 <= fuel.
Proof.
  intros fuel. induction fuel as [fuel IH] using lt_wf_ind. intros a Hend.
  destruct (is_no_such_key (read_outcome e s a)) eqn:Hk.
  - apply no_such_key_inv in Hk.
    rewrite get_output_unfold in Hend.
    destruct (Nat.lt_ge_cases fuel 3) as [Hlt|Hge].
    + unfold Run.then_run in Hend. rewrite (@poll_starved loc s a fuel Hk Hlt) in Hend.
      exfalso. apply Hend. reflexivity.
    + replace fuel with (3 + (fuel - 3)) in Hend at 1 by lia.
      rewrite (@poll_retry loc s a _ Hk) in Hend.
      unfold Run.then_run in Hend. cbn [out final left trace] in Hend.
      destruct (fuel - 3) as [|f] eqn:Hf; [exfalso; apply Hend; reflexivity|].
      rewrite run_tau in Hend.
      change (ITree.iter (poll (urlparse loc)) tt) with (get_output loc) in Hend.
      cbn [out] in Hend.
      destruct (IH f ltac:(lia) (S a) Hend) as (k & Hretry & Hlast & Hfuel).
      exists (S k). split; [|split].
      * intros [|j] Hj; [rewrite Nat.add_0_r; assumption|].
        replace (a + S j) with (S a + j) by lia. apply Hretry. lia.
      * replace (a + S k) with (S a + k) by lia. assumption.
      * lia.
  - exists 0. split; [|split].
    + intros j Hj. lia.
    + rewrite Nat.add_0_r. assumption.
    + destruct fuel; [|lia]. exfalso. apply Hend.
      rewrite get_output_unfold. reflexivity.
Qed.

End Polling.

(** C1: in a world where the first [k] reads of the output object raise
    [ClientError] with code [NoSuchKey] and read [k] does not, [get_output]
    performs [k] rounds of read, print, [sleep(2)], then one more read; it
    returns the contents when that read succeeds and raises the very
    exception of that read otherwise. *)
Theorem get_output_polls_until_answered :
  forall (urlparse : string -> ParseResult) (e : env) (loc : string) (s k fuel : nat),
    (forall j, j < k -> read_outcome e s j = inl (ClientError NoSuchKey)) ->
    is_no_such_key (read_outcome e s k) = false ->
    4 * k + 1 <= fuel ->
    let read := ReadS3File (netloc (urlparse loc)) (slice_from 1 (path (urlparse loc))) in
    let r := Run.run (poll_world e) fuel (get_output urlparse loc)
                     {| session := s; attempt := 0 |} in
    out r = match read_outcome e s k with
            | inl ex => Raised ex
            | inr contents => Done contents
            end
    /\ calls r = (List.concat (repeat [read; Print "waiting for output..."; Sleep (2 # 1)] k)
                  ++ [read])%list
    /\ trace r = (List.concat (repeat (retry_events urlparse e loc) k)
                  ++ [read_event urlparse loc (read_outcome e s k)])%list.
Proof.
  intros urlparse e loc s k fuel Hretry Hlast Hfuel read r.
  assert (Hrun := @get_output_run urlparse e loc s k 0 fuel Hretry Hlast Hfuel).
  cbn [plus] in Hrun. subst r. unfold calls. rewrite Hrun. cbn [out trace].
  split; [reflexivity|]. split; [|reflexivity].
  rewrite map_app, concat_map, map_repeat. reflexivity.
Qed.

Lemma get_output_polls_until_answered_witness :
  let r := Run.run (poll_world third_read) 20 (get_output urlparse_s3 demo_location) fresh in
  out r = Done "0.9"
  /\ calls r =
     [ReadS3File "bkt" "DEMO-async-inference/output/a.out";
      Print "waiting for output..."; Sleep (2 # 1);
      ReadS3File "bkt" "DEMO-async-inference/output/a.out";
      Print "waiting for output..."; Sleep (2 # 1);
      ReadS3File "bkt" "DEMO-async-inference/output/a.out"].
Proof.
  destruct (@get_output_polls_until_answered urlparse_s3 third_read demo_location 0 2 20)
    as (Hout & Hcalls & _).
  - intros [|[|j]] Hj; [reflexivity|reflexivity|lia].
  - reflexivity.
  - lia.
  - split; [exact Hout | exact Hcalls].
Defined.

(** A location with a query and a fragment. *)
Example urlparse_s3_splits :
  urlparse_s3 "s3://bkt/DEMO/a.out?versionId=3#top"
  = {| scheme := "s3"; netloc := "bkt"; path := "/DEMO/a.out";
       params := ""; query := "versionId=3"; fragment := "top" |}.
Proof. reflexivity. Qed.

(** An error other than [NoSuchKey] reaches the caller as it was raised. *)
Example get_output_reraises :
  out (Run.run (poll_world refused) 20 (get_output urlparse_s3 demo_location) fresh)
  = Raised (ClientError "AccessDenied").
Proof. reflexivity. Qed.

(** C2: [get_output] has no retry budget.  When every read raises
    [NoSuchKey] the loop does not end, whatever the fuel; a run that ends
    has met a read that was not answered by [NoSuchKey], and ends with what
    that read gave; and however many reads raise [NoSuchKey] first, the
    loop is still polling when the other answer comes. *)
Theorem get_output_has_no_retry_budget :
  forall (urlparse : string -> ParseResult) (e : env) (loc : string) (s : nat),
    let go fuel := Run.run (poll_world e) fuel (get_output urlparse loc)
                           {| session := s; attempt := 0 |} in
    ((forall j, read_outcome e s j = inl (ClientError NoSuchKey)) ->
     forall fuel, out (go fuel) = OutOfFuel)
    /\ (forall fuel, out (go fuel) <> OutOfFuel ->
        exists k,
          (forall j, j < k -> read_outcome e s j = inl (ClientError NoSuchKey))
          /\ is_no_such_key (read_outcome e s k) = false
          /\ out (go fuel) = settle (read_outcome e s k))
    /\ (forall k,
          (forall j, j < k -> read_outcome e s j = inl (ClientError NoSuchKey)) ->
          is_no_such_key (read_outcome e s k) = false ->
          exists fuel, out (go fuel) = settle (read_outcome e s k)).
Proof.
  intros urlparse e loc s go. split; [|split].
  - intros Hall fuel. apply get_output_starves. assumption.
  - intros fuel Hend.
    destruct (@get_output_ends urlparse e loc s fuel 0 Hend) as (k & Hretry & Hlast & Hfuel).
    cbn [plus] in *. exists k. split; [assumption|]. split; [assumption|].
    unfold go. rewrite (@get_output_run urlparse e loc s k 0 fuel Hretry Hlast Hfuel).
    reflexivity.
  - intros k Hretry Hlast. exists (4 * k + 1).
    unfold go. rewrite (@get_output_run urlparse e loc s k 0 _ Hretry Hlast (le_n _)).
    reflexivity.
Qed.

Lemma get_output_has_no_retry_budget_witness :
  out (Run.run (poll_world never_there) 1000 (get_output urlparse_s3 demo_location) fresh)
  = OutOfFuel.
Proof.
  exact (proj1 (get_output_has_no_retry_budget urlparse_s3 never_there demo_location 0)
               (fun j => eq_refl) 1000).
Defined.

(** ** The multiple-invocation cell *)

Section Requests.

Variable W : Type.
Variable handle : forall c : call, W -> W * (exn + val c).

Abbreviation run := (Run.run handle).

Lemma request_run p i acc fuel w infs :
  out (run fuel (request p i acc) w) = Done infs ->
  exists o, infs = (acc ++ [(input_file_of i, o)])%list
            /\ pick predicted (trace (run fuel (request p i acc) w)) = [o].
Proof.
  unfold request, upload_file, print. cbn zeta.
  repeat (exec_norm; exec_call; cbn [out after_event trace]; try discriminate).
  exec_norm. cbn [out after_event trace].
  intros H. injection H as <-. eexists. split; reflexivity.
Qed.

Lemma requests_run p xs : forall acc fuel w infs,
  out (run fuel (for_each xs (request p) acc) w) = Done infs ->
  let outs := pick predicted (trace (run fuel (for_each xs (request p) acc) w)) in
  infs = (acc ++ combine (List.map input_file_of xs) outs)%list
  /\ length outs = length xs.
Proof.
  induction xs as [|x xs IH]; intros acc fuel w infs.
  - cbn [for_each]. rewrite run_ret. cbn. intros H. injection H as <-.
    rewrite app_nil_r. auto.
  - cbn [for_each]. rewrite run_bind. unfold Run.then_run.
    destruct (out (run fuel (request p x acc) w)) as [acc'|ex|] eqn:Hreq; cbn [out trace];
      try discriminate.
    intros Hrest.
    destruct (request_run _ _ _ _ _ Hreq) as (o & -> & Ho).
    destruct (IH _ _ _ _ Hrest) as [Hinfs Hlen].
    cbn zeta. rewrite pick_app, Ho. cbn [app List.map combine length].
    split; [|f_equal; exact Hlen].
    rewrite Hinfs, <- app_assoc. reflexivity.
Qed.

End Requests.

Section Collect.

Variable urlparse : string -> ParseResult.
Variable e : env.

Abbreviation run := (Run.run (poll_world e)).
Abbreviation read_of := (AsyncInference.read_of urlparse).

Lemma reads_of_retries loc n :
  filter is_read (List.map (call_of (val:=val))
                    (List.concat (repeat (retry_events urlparse e loc) n)))
  = repeat (read_of loc) n.
Proof.
  induction n as [|n IH]; [reflexivity|].
  cbn [repeat List.concat]. rewrite map_app, filter_app, IH. reflexivity.
Qed.

Lemma report_run input_file loc s n contents fuel :
  (forall j, j < n -> read_outcome e s j = inl (ClientError NoSuchKey)) ->
  read_outcome e s n = inr contents ->
  4 * n + 2 <= fuel ->
  let r := run fuel (report urlparse (input_file, loc) tt) {| session := s; attempt := 0 |} in
  out r = Done tt /\ final r = {| session := S s; attempt := 0 |}
  /\ filter is_read (calls r) = repeat (read_of loc) (S n)
  /\ left r = fuel - (4 * n + 2).
Proof.
  intros Hretry Hlast Hfuel. cbn zeta. unfold report, print.
  rewrite run_bind.
  rewrite (@get_output_run urlparse e loc s n 0 fuel) by
    (cbn [plus]; try rewrite Hlast; try assumption; try reflexivity; lia).
  cbn [plus]. rewrite Hlast. unfold Run.then_run. cbn [out settle final left trace].
  destruct (fuel - (4 * n + 1)) as [|f] eqn:Hf; [lia|].
  run_step. cbn [poll_world fst snd final trace out left].
  unfold calls. cbn [trace].
  split; [destruct (reply e _); reflexivity|]. split; [reflexivity|]. split; [|lia].
  rewrite !map_app, !filter_app, reads_of_retries. cbn. rewrite app_nil_r.
  symmetry. apply (repeat_cons n (read_of loc)).
Qed.

Lemma collect_run infs : forall retries s fuel,
  length retries = length infs ->
  (forall i n, nth_error retries i = Some n ->
     (forall j, j < n -> read_outcome e (s + i) j = inl (ClientError NoSuchKey))
     /\ exists contents, read_outcome e (s + i) n = inr contents) ->
  collect_fuel retries <= fuel ->
  let r := run fuel (collect urlparse infs) {| session := s; attempt := 0 |} in
  out r = Done tt /\ final r = {| session := s + length infs; attempt := 0 |}
  /\ filter is_read (calls r) = expected_reads urlparse infs retries
  /\ left r = fuel - collect_fuel retries.
Proof.
  induction infs as [|[input_file loc] infs IH]; intros retries s fuel Hlen Havail Hfuel.
  - destruct retries; [|discriminate]. cbn zeta. unfold collect. cbn [for_each].
    rewrite run_ret. cbn. rewrite Nat.add_0_r, Nat.sub_0_r. auto.
  - destruct retries as [|n retries]; [discriminate|].
    assert (Hcost : collect_fuel (n :: retries) = 4 * n + 2 + collect_fuel retries)
      by reflexivity.
    rewrite Hcost in Hfuel.
    destruct (Havail 0 n eq_refl) as [Hretry [contents Hlast]].
    rewrite Nat.add_0_r in Hretry, Hlast.
    destruct (@report_run input_file loc s n contents fuel Hretry Hlast ltac:(lia))
      as (Hout & Hfinal & Hreads & Hleft).
    cbn zeta. unfold collect. cbn [for_each]. rewrite run_bind.
    unfold Run.then_run. rewrite Hout, Hfinal, Hleft.
    destruct (IH retries (S s) (fuel - (4 * n + 2))) as (Hout' & Hfinal' & Hreads' & Hleft').
    + cbn in Hlen. lia.
    + intros i m Hi. replace (S s + i) with (s + S i) by lia. apply Havail. exact Hi.
    + lia.
    + unfold collect in *. cbn [out final left trace].
      split; [exact Hout'|]. split; [rewrite Hfinal'; cbn [length]; f_equal; lia|].
      split.
      * unfold calls in *. cbn [trace]. rewrite map_app, filter_app, Hreads, Hreads'.
        reflexivity.
      * rewrite Hleft', Hcost. lia.
Qed.

End Collect.

(** The result loop on three locations, the output of each there at its
    third read. *)
Example collect_reads_in_order :
  filter is_read
    (calls (Run.run (poll_world third_read) 100
              (collect urlparse_s3 [("in0", "s3://bkt/o/0.out"); ("in1", "s3://bkt/o/1.out")])
              fresh))
  = [ReadS3File "bkt" "o/0.out"; ReadS3File "bkt" "o/0.out"; ReadS3File "bkt" "o/0.out";
     ReadS3File "bkt" "o/1.out"; ReadS3File "bkt" "o/1.out"; ReadS3File "bkt" "o/1.out"].
Proof. reflexivity. Qed.

(** ** The order of the calls of the notebook *)

Lemma accepts_app st tr1 tr2 :
  accepts st (tr1 ++ tr2)%list =
  match accepts st tr1 with
  | Some st' => accepts st' tr2
  | None => None
  end.
Proof.
  revert st. induction tr1 as [|c tr1 IH]; intros st; cbn; [reflexivity|].
  destruct (next st c); [apply IH|reflexivity].
Qed.

Lemma reached_deploy tr : forall st,
  accepts Before tr = Some st -> st <> Before -> existsb is_deploy tr = true.
Proof.
  induction tr as [|c tr IH]; intros st; cbn.
  - intros [= <-] H. contradiction.
  - destruct (is_deploy c) eqn:Hd; [reflexivity|].
    destruct (is_invocation c || is_clean_up c); [discriminate|]. cbn. apply IH.
Qed.

Lemma reached_deregister tr : forall st0,
  st0 = Before \/ st0 = Deployed ->
  forall st, accepts st0 tr = Some st -> st = Deregistered \/ st = Deleted ->
  existsb is_deregister tr = true.
Proof.
  induction tr as [|c tr IH]; intros st0 H0 st; cbn.
  - intros [= <-] H. destruct H0, H; congruence.
  - destruct (is_deregister c) eqn:Hd; [reflexivity|]. cbn.
    destruct H0 as [-> | ->]; cbn; rewrite ?Hd.
    + destruct (is_deploy c); [apply IH; auto|].
      destruct (is_invocation c || is_clean_up c); [discriminate|]. apply IH; auto.
    + destruct (is_delete_endpoint c); [discriminate|]. apply IH; auto.
Qed.

Lemma clean_up_is_final tr : forall st0,
  st0 = Deregistered \/ st0 = Deleted ->
  forall st, accepts st0 tr = Some st ->
  forallb (fun d => negb (is_create d) && negb (is_invocation d)) tr = true.
Proof.
  induction tr as [|c tr IH]; intros st0 H0 st; cbn; [reflexivity|].
  destruct H0 as [-> | ->]; cbn.
  - destruct (is_delete_endpoint c) eqn:Hx.
    + intros H. rewrite (IH Deleted (or_intror eq_refl) _ H).
      destruct c; try discriminate; reflexivity.
    + destruct (is_create c); [discriminate|].
      destruct (is_invocation c); [discriminate|]. cbn.
      destruct (is_deregister c); [discriminate|]. apply IH; auto.
  - destruct (is_create c); [discriminate|].
    destruct (is_invocation c); [discriminate|]. cbn.
    destruct (is_clean_up c); [discriminate|]. apply IH; auto.
Qed.

Lemma accepted_is_ordered tr st : accepts Before tr = Some st -> ordered tr.
Proof.
  intros Hacc pre c post ->. rewrite accepts_app in Hacc.
  destruct (accepts Before pre) as [s1|] eqn:Hpre; [|discriminate].
  cbn in Hacc. destruct (next s1 c) as [s2|] eqn:Hc; [|discriminate].
  split; [|split].
  - intros Hinv. apply (reached_deploy _ Hpre).
    intros ->. cbn in Hc. rewrite Hinv in Hc. destruct (is_deploy c) eqn:Hd.
    + destruct c; discriminate.
    + discriminate.
  - intros Hcl. apply (@clean_up_is_final post s2) with (st := st); [|exact Hacc].
    unfold is_clean_up in Hcl.
    destruct s1; cbn in Hc.
    + destruct (is_deploy c) eqn:Hd; [destruct c; discriminate|].
      unfold is_clean_up in Hc. rewrite Hcl, orb_true_r in Hc. discriminate.
    + destruct (is_deregister c); [injection Hc as <-; auto|].
      cbn in Hcl. rewrite Hcl in Hc. discriminate.
    + destruct (is_delete_endpoint c); [injection Hc as <-; auto|].
      rewrite orb_false_r in Hcl. rewrite Hcl, orb_true_r in Hc. discriminate.
    + unfold is_clean_up in Hc. rewrite Hcl, orb_true_r in Hc. discriminate.
  - intros Hdel.
    destruct s1; cbn in Hc; rewrite ?Hdel in Hc.
    + destruct (is_deploy c) eqn:Hd; [destruct c; discriminate|].
      unfold is_clean_up in Hc. rewrite Hdel, !orb_true_r in Hc. discriminate.
    + destruct (is_deregister c) eqn:Hd; [destruct c; discriminate|discriminate].
    + apply (@reached_deregister pre Before (or_introl eq_refl) _ Hpre). auto.
    + unfold is_clean_up in Hc. rewrite Hdel, !orb_true_r in Hc. discriminate.
Qed.

Section Stages.
Variable urlparse : string -> ParseResult.

Abbreviation triple := (@Run.triple call val staged).

Lemma at_stage_staged st h : at_stage st h -> staged h.
Proof. intros H. exists st. exact H. Qed.

Lemma at_stage_step st st' c x h :
  next st c = Some st' -> at_stage st h -> at_stage st' (h ++ [existT _ c x])%list.
Proof.
  unfold at_stage. intros Hn Hh. rewrite map_app, accepts_app, Hh. cbn.
  unfold call_of. cbn. rewrite Hn. reflexivity.
Qed.

Lemma stage_ret {R} st (a : R) :
  triple (at_stage st) (Ret a) (fun _ => at_stage st).
Proof.
  apply triple_ret. intros h H. split; [eapply at_stage_staged; eauto|assumption].
Qed.

Lemma stage_invoke st st' c :
  next st c = Some st' ->
  triple (at_stage st) (Run.invoke c) (fun _ => at_stage st').
Proof.
  intros Hn. apply triple_invoke.
  - intros h H. eapply at_stage_staged; eauto.
  - intros h e H. eapply at_stage_staged, at_stage_step; eauto.
  - intros h v H. split; [eapply at_stage_staged|]; eapply at_stage_step; eauto.
Qed.

Lemma stage_try_call st st' c :
  next st c = Some st' ->
  triple (at_stage st) (Run.try_call c) (fun _ => at_stage st').
Proof.
  intros Hn. apply triple_try_call.
  - intros h H. eapply at_stage_staged; eauto.
  - intros h x H. split; [eapply at_stage_staged|]; eapply at_stage_step; eauto.
Qed.

Lemma stage_raise {R} st st' (e : exn) :
  triple (at_stage st) (Run.raise e : py R) (fun _ => at_stage st').
Proof.
  apply triple_raise. intros h H. eapply at_stage_staged; eauto.
Qed.

Ltac stage_open :=
  lazymatch goal with
  | |- Run.triple _ (at_stage ?st) (@ITree.bind _ _ _ (@Run.invoke _ _ ?c) ?k) _ =>
      let r := eval cbv in (next st c) in
      lazymatch r with
      | Some ?s =>
          refine (@triple_bind call val staged _ _ _ _ _ (fun _ => at_stage s) _
                    (@stage_invoke st s c eq_refl) _)
      end
  | |- Run.triple _ (at_stage ?st) (@ITree.bind _ _ _ (@Run.try_call _ _ ?c) ?k) _ =>
      let r := eval cbv in (next st c) in
      lazymatch r with
      | Some ?s =>
          refine (@triple_bind call val staged _ _ _ _ _ (fun _ => at_stage s) _
                    (@stage_try_call st s c eq_refl) _)
      end
  | |- Run.triple _ (at_stage ?st) (@Run.invoke _ _ ?c) _ =>
      let r := eval cbv in (next st c) in
      lazymatch r with
      | Some ?s => exact (@stage_invoke st s c eq_refl)
      end
  | |- Run.triple _ (at_stage ?st) (Ret ?a) _ => exact (@stage_ret _ st a)
  | |- Run.triple _ (at_stage ?st) (@Run.raise _ _ _ ?e) (fun _ => at_stage ?s) =>
      exact (@stage_raise _ st s e)
  end.

Ltac stage_step := stage_open; try intros ?.

Tactic Notation "stage_call" ident(x) := stage_open; intros x.

(** A part of the program that has a lemma of its own. *)
Tactic Notation "stage_with" constr(lem) "as" ident(x) :=
  refine (@triple_bind call val staged _ _ _ _ _ (fun _ => at_stage _) _ lem _); intros x.

Tactic Notation "stage_with" constr(lem) :=
  refine (@triple_bind call val staged _ _ _ _ _ (fun _ => at_stage _) _ lem _); intros _.

Lemma shell_stage st cmd :
  triple (at_stage st) (shell cmd) (fun _ => at_stage st).
Proof.
  unfold shell. destruct st; repeat stage_step.
Qed.

Lemma print_stage st msg :
  triple (at_stage st) (print msg) (fun _ => at_stage st).
Proof.
  unfold print. destruct st; repeat stage_step.
Qed.

Lemma upload_file_stage f :
  triple (at_stage Deployed) (upload_file f) (fun _ => at_stage Deployed).
Proof.
  unfold upload_file. cbn zeta. repeat stage_step.
Qed.

Lemma stage_weaken {R} st st' (t : py R) (Q : R -> list (Run.event val) -> Prop) :
  triple (at_stage st) t (fun _ => at_stage st') ->
  (forall a h, at_stage st' h -> Q a h) ->
  triple (at_stage st) t Q.
Proof.
  intros Ht HQ. eapply triple_conseq; [|exact Ht|exact HQ]. auto.
Qed.

Lemma get_output_stage loc :
  triple (at_stage Deployed) (get_output urlparse loc) (fun _ => at_stage Deployed).
Proof.
  unfold get_output. cbn zeta.
  apply (@triple_iter call val staged unit string (poll (urlparse loc))
           (fun _ => at_stage Deployed) (fun _ => at_stage Deployed)).
  - intros i h H. eapply at_stage_staged; eauto.
  - intros []. apply (@stage_weaken _ Deployed Deployed); [|intros [|]; auto].
    unfold poll, print. stage_call r.
    destruct r as [[code| | | | |]|contents]; try stage_step.
    destruct (code =? NoSuchKey)%string; repeat stage_step.
Qed.
Lemma stage_for_each {A S} st (body : A -> S -> py S) xs acc :
  (forall x acc, triple (at_stage st) (body x acc) (fun _ => at_stage st)) ->
  triple (at_stage st) (for_each xs body acc) (fun _ => at_stage st).
Proof.
  intros Hbody.
  apply (@triple_for_each call val staged A S body (fun _ _ => at_stage st)
           (fun _ _ h H => at_stage_staged H) xs [] acc).
  intros pre x acc' _. apply Hbody.
Qed.

Lemma request_stage p i acc :
  triple (at_stage Deployed) (request p i acc) (fun _ => at_stage Deployed).
Proof.
  unfold request. cbn zeta.
  stage_with (@upload_file_stage (input_file_of i)) as input_file_s3_location.
  stage_with (@print_stage Deployed ("Invoking Endpoint with " ++ input_file_of i)).
  stage_call output_location.
  stage_with (@print_stage Deployed output_location).
  repeat stage_step.
Qed.

Lemma report_stage inf acc :
  triple (at_stage Deployed) (report urlparse inf acc) (fun _ => at_stage Deployed).
Proof.
  unfold report. destruct inf as [input_file output_location].
  stage_with (@get_output_stage output_location) as output.
  apply print_stage.
Qed.

Lemma single_invocation_stage p :
  triple (at_stage Deployed) (single_invocation urlparse p) (fun _ => at_stage Deployed).
Proof.
  unfold single_invocation. cbn zeta.
  stage_with (@upload_file_stage "input/test_point_0.libsvm") as input_1_s3_location.
  stage_call output_location.
  stage_with (@get_output_stage output_location) as output.
  apply print_stage.
Qed.

Lemma multiple_invocations_stage p :
  triple (at_stage Deployed) (multiple_invocations urlparse p) (fun _ => at_stage Deployed).
Proof.
  unfold multiple_invocations, invoke_many, collect.
  stage_with (@stage_for_each _ _ Deployed (request p) (seq 0 25) [] (@request_stage p))
    as inferences.
  apply stage_for_each. apply report_stage.
Qed.

Lemma install_stage st : triple (at_stage st) install (fun _ => at_stage st).
Proof.
  unfold install.
  stage_with (@shell_stage st "python -m pip install --upgrade pip --quiet").
  stage_with (@shell_stage st "pip install -U awscli --quiet").
  apply shell_stage.
Qed.

Lemma download_inputs_stage st :
  triple (at_stage st) download_inputs (fun _ => at_stage st).
Proof.
  unfold download_inputs.
  stage_with (@shell_stage st "aws s3 cp --recursive s3://sagemaker-sample-files/models/async-inference/input-files/ input/").
  apply shell_stage.
Qed.

Lemma role_and_bucket_stage :
  triple (at_stage Before) role_and_bucket (fun _ => at_stage Before).
Proof.
  unfold role_and_bucket, print. repeat stage_step.
Qed.

Lemma upload_model_stage s3_bucket :
  triple (at_stage Before) (upload_model s3_bucket) (fun _ => at_stage Before).
Proof.
  unfold upload_model, print. cbn zeta. repeat stage_step.
Qed.

Lemma make_model_stage container model_url sm_role :
  triple (at_stage Before) (make_model container model_url sm_role)
         (fun _ => at_stage Before).
Proof.
  unfold make_model. repeat stage_step.
Qed.

Lemma create_endpoint_stage model_predictor async_config :
  triple (at_stage Before) (create_endpoint model_predictor async_config)
         (fun _ => at_stage Deployed).
Proof.
  unfold create_endpoint. repeat stage_step.
Qed.

Lemma setup_autoscaling_stage endpoint_name :
  triple (at_stage Deployed) (setup_autoscaling endpoint_name)
         (fun _ => at_stage Deployed).
Proof.
  unfold setup_autoscaling. cbn zeta. repeat stage_step.
Qed.

Lemma clean_up_stage resource_id async_predictor :
  triple (at_stage Deployed) (clean_up resource_id async_predictor)
         (fun _ => at_stage Deleted).
Proof.
  unfold clean_up. repeat stage_step.
Qed.

Lemma notebook_stage :
  triple (at_stage Before) (notebook urlparse) (fun _ => at_stage Deleted).
Proof.
  unfold notebook.
  stage_with (@install_stage Before).
  stage_call region.
  stage_with (@download_inputs_stage Before).
  stage_with role_and_bucket_stage as names.
  destruct names as [sm_role s3_bucket].
  stage_with (@upload_model_stage s3_bucket) as model_url.
  stage_call container.
  stage_with (@make_model_stage container model_url sm_role) as model_predictor.
  stage_with (@create_endpoint_stage model_predictor (make_async_config s3_bucket))
    as deployed.
  destruct deployed as [endpoint_name async_predictor].
  stage_with (@setup_autoscaling_stage endpoint_name) as resource_id.
  stage_with (@single_invocation_stage async_predictor).
  stage_with (@multiple_invocations_stage async_predictor).
  apply clean_up_stage.
Qed.

End Stages.

(** C7: in every world and however far the run gets, the calls of the
    notebook are in order: an invocation has the deployment of the model
    before it, a clean-up call has no invocation and no creating call after
    it, and the endpoint is deleted only after the scalable target was
    deregistered. *)
Theorem notebook_calls_are_ordered :
  forall (urlparse : string -> ParseResult)
         (W : Type) (handle : forall c : call, W -> W * (exn + val c))
         (fuel : nat) (w : W),
    ordered (calls (Run.run handle fuel (notebook urlparse) w)).
Proof.
  intros urlparse W handle fuel w.
  destruct (@notebook_stage urlparse W handle fuel w [] eq_refl) as [[st Hst] _].
  exact (accepted_is_ordered Hst).
Qed.

(** A whole run, in the world where each output is there at its third
    read: one deployment, 26 invocations, then the two clean-up calls. *)
Example notebook_runs_to_the_end :
  let r := Run.run (poll_world third_read) 2000 (notebook urlparse_s3) fresh in
  out r = Done tt
  /\ List.map (fun c => (is_deploy c, is_deregister c, is_delete_endpoint c))
       (filter (fun c => is_deploy c || is_clean_up c) (calls r))
     = [(true, false, false); (false, true, false); (false, false, true)]
  /\ length (filter is_invocation (calls r)) = 26.
Proof. vm_compute. auto. Qed.

End AsyncInferenceFacts.

(* ===================================================================== *)
(** * Inference pipeline: the deployed pipeline model                     *)
(* ===================================================================== *)

Module InferencePipelineFacts.
Import Py Run RunFacts InferencePipeline.

(** In any world a run deploys nothing, or one pipeline with its last
    call. *)
Lemma train_and_deploy_deploys_once :
  forall (W : Type) (handle : forall c : call, W -> W * (exn + val c))
         (fuel : nat) (w : W),
    let r := Run.run handle fuel train_and_deploy w in
    (pick deployment (trace r) = [] /\ (forall ep, out r <> Done ep))
    \/ exists role bucket ll_image timestamp m1 m2,
         let sklearn_preprocessor := make_sklearn_preprocessor role in
         let ll_estimator := make_ll_estimator ll_image role bucket in
         let sm_model := {| name := "inference-pipeline-" ++ timestamp;
                            role := role; models := [m1; m2] |} in
         let ep := "inference-pipeline-ep-" ++ timestamp in
         pick deployment (trace r) = [(sm_model, 1, "ml.c4.xlarge", ep)]
         /\ pick created_model (trace r) = [(sklearn_preprocessor, m1); (ll_estimator, m2)]
         /\ pick fitted (trace r) = [sklearn_preprocessor; ll_estimator]
         /\ List.last (calls r) GetExecutionRole
            = DeployPipeline sm_model 1 "ml.c4.xlarge" ep
         /\ (forall ep', out r = Done ep' -> ep' = ep).
Proof.
  intros W handle fuel w. cbn zeta.
  unfold train_and_deploy, build_pipeline, shell, print. cbn zeta.
  repeat (exec_norm; exec_call;
          try (left; split; [reflexivity | intros ep; cbn [out after_event]; discriminate])).
  - right. do 6 eexists. cbn.
    repeat split; try reflexivity. intros ep' H. discriminate.
  - right. do 6 eexists. exec_norm. cbn.
    repeat split; try reflexivity. intros ep' H. injection H as <-. reflexivity.
Qed.

Section Obliging.

Variable W : Type.
Variable handle : forall c : call, W -> W * (exn + val c).
Hypothesis Hob : obliges handle.

(** The next call of a program in a world that obliges. *)
Ltac oblige_step :=
  retype_binds;
  lazymatch goal with
  | |- context [@Run.run _ _ _ _ _ ?fuel (@ITree.bind _ _ _ (@Run.invoke _ _ ?c) _) ?w] =>
      let E := fresh "E" in
      rewrite run_invoke_then;
      destruct fuel; [exfalso; lia|];
      destruct (Hob c w eq_refl) as (? & ? & E); rewrite E;
      cbn [fst snd out after_event]; clear E
  | |- context [@Run.run _ _ _ _ _ ?fuel (@ITree.bind _ _ _ (@Run.try_call _ _ ?c) _) ?w] =>
      rewrite run_try_call_then;
      destruct fuel; [exfalso; lia|];
      destruct (handle c w); cbn [fst snd out after_event]
  end.

(** Twenty calls, one unit of fuel each. *)
Lemma train_and_deploy_returns fuel w :
  20 <= fuel -> exists ep, out (Run.run handle fuel train_and_deploy w) = Done ep.
Proof.
  intros Hfuel. unfold train_and_deploy, build_pipeline, shell, print. cbn zeta.
  repeat (exec_norm; oblige_step).
  exec_norm. cbn [out]. eexists. reflexivity.
Qed.

End Obliging.

(** C8: in any world, a run of the notebook up to the deployment cell
    deploys nothing before its last call, and that call, when the run gets
    there, deploys one [PipelineModel], behind one endpoint, whose models
    are exactly two: first the model created from the fitted scikit-learn
    preprocessor, then the model created from the fitted linear-learner
    estimator.  In a world where every call but a shell command succeeds,
    a run with fuel for its twenty calls does get there: it returns the
    name of the endpoint, and has made this one deployment. *)
Theorem pipeline_has_two_models_behind_one_endpoint :
  forall (W : Type) (handle : forall c : call, W -> W * (exn + val c)) (w : W),
    (forall fuel : nat,
        let r := Run.run handle fuel train_and_deploy w in
        (pick deployment (trace r) = [] /\ (forall ep, out r <> Done ep))
        \/ exists role bucket ll_image timestamp m1 m2,
             let sklearn_preprocessor := make_sklearn_preprocessor role in
             let ll_estimator := make_ll_estimator ll_image role bucket in
             let sm_model := {| name := "inference-pipeline-" ++ timestamp;
                                role := role; models := [m1; m2] |} in
             let ep := "inference-pipeline-ep-" ++ timestamp in
             pick deployment (trace r) = [(sm_model, 1, "ml.c4.xlarge", ep)]
             /\ pick created_model (trace r) = [(sklearn_preprocessor, m1); (ll_estimator, m2)]
             /\ pick fitted (trace r) = [sklearn_preprocessor; ll_estimator]
             /\ List.last (calls r) GetExecutionRole
                = DeployPipeline sm_model 1 "ml.c4.xlarge" ep
             /\ (forall ep', out r = Done ep' -> ep' = ep))
    /\ (obliges handle ->
        forall fuel : nat, 20 <= fuel ->
          let r := Run.run handle fuel train_and_deploy w in
          exists role bucket ll_image timestamp m1 m2,
            let sklearn_preprocessor := make_sklearn_preprocessor role in
            let ll_estimator := make_ll_estimator ll_image role bucket in
            let sm_model := {| name := "inference-pipeline-" ++ timestamp;
                               role := role; models := [m1; m2] |} in
            let ep := "inference-pipeline-ep-" ++ timestamp in
            out r = Done ep
            /\ pick deployment (trace r) = [(sm_model, 1, "ml.c4.xlarge", ep)]
            /\ pick created_model (trace r) = [(sklearn_preprocessor, m1); (ll_estimator, m2)]
            /\ pick fitted (trace r) = [sklearn_preprocessor; ll_estimator]
            /\ List.last (calls r) GetExecutionRole
               = DeployPipeline sm_model 1 "ml.c4.xlarge" ep).
Proof.
  intros W handle w. split.
  - intros fuel. apply train_and_deploy_deploys_once.
  - intros Hob fuel Hfuel. cbn zeta.
    destruct (@train_and_deploy_returns W handle Hob fuel w Hfuel) as [ep0 Hdone].
    destruct (@train_and_deploy_deploys_once W handle fuel w)
      as [[_ Hnot]|(role & bucket & ll_image & timestamp & m1 & m2 & Hd & Hc & Hf & Hl & Hep)].
    + exfalso. exact (Hnot ep0 Hdone).
    + exists role, bucket, ll_image, timestamp, m1, m2. cbn zeta.
      split; [rewrite Hdone; f_equal; exact (Hep ep0 Hdone)|].
      repeat split; assumption.
Qed.

Lemma pipeline_has_two_models_behind_one_endpoint_witness :
  let r := Run.run obliging 100 train_and_deploy tt in
  exists role bucket ll_image timestamp m1 m2,
    out r = Done ("inference-pipeline-ep-" ++ timestamp)
    /\ pick deployment (trace r)
       = [({| name := "inference-pipeline-" ++ timestamp; role := role; models := [m1; m2] |},
           1, "ml.c4.xlarge", "inference-pipeline-ep-" ++ timestamp)]
    /\ pick created_model (trace r)
       = [(make_sklearn_preprocessor role, m1); (make_ll_estimator ll_image role bucket, m2)].
Proof.
  intros r.
  destruct (proj2 (@pipeline_has_two_models_behind_one_endpoint unit obliging tt)
              (fun c w _ => ex_intro _ w (ex_intro _ (default_reply c) eq_refl))
              100 ltac:(lia))
    as (role & bucket & ll_image & timestamp & m1 & m2 & Hout & Hdep & Hcreated & _).
  exists role, bucket, ll_image, timestamp, m1, m2.
  split; [exact Hout|]. split; [exact Hdep|exact Hcreated].
Defined.

(** The run in which every call succeeds. *)
Example pipeline_is_deployed :
  let r := Run.run obliging 100 train_and_deploy tt in
  out r = Done "inference-pipeline-ep-2024-01-01-00-00-00"
  /\ pick deployment (trace r)
     = [({| name := "inference-pipeline-2024-01-01-00-00-00";
            role := "arn:aws:iam::123456789012:role/sagemaker";
            models := [{| model_id := "sklearn-model" |};
                       {| model_id := "linear-learner-model" |}] |},
         1, "ml.c4.xlarge", "inference-pipeline-ep-2024-01-01-00-00-00")].
Proof. vm_compute. auto. Qed.

(** ** The featurizer script: [output_fn] *)

Lemma runtime_exception_is_unbound :
  bound ["prediction"; "accept"; "instances"; "row"; "json_output"] "RuntimeException" = false.
Proof. reflexivity. Qed.

(** C10: for an accept value other than ["application/json"] and
    ["text/csv"], [output_fn] raises [NameError] for the name
    [RuntimeException], which nothing binds, and gives no response. *)
Theorem output_fn_raises_name_error :
  forall (ndarray number : Type) (tolist : ndarray -> list (list number))
         (encode : ndarray -> string -> exn + string)
         (json_dumps : jvalue number -> string)
         (prediction : ndarray) (accept : string),
    accept <> "application/json" ->
    accept <> "text/csv" ->
    output_fn tolist encode json_dumps prediction accept = inl (NameError "RuntimeException")
    /\ forall resp, output_fn tolist encode json_dumps prediction accept <> inr resp.
Proof.
  intros ndarray number tolist encode json_dumps prediction accept Hjson Hcsv.
  assert (H : output_fn tolist encode json_dumps prediction accept
              = inl (NameError "RuntimeException")).
  { unfold output_fn.
    apply String.eqb_neq in Hjson, Hcsv. rewrite Hjson, Hcsv.
    rewrite runtime_exception_is_unbound. reflexivity. }
  split; [exact H|]. intros resp. rewrite H. discriminate.
Qed.

Lemma output_fn_raises_name_error_witness :
  output_fn (fun p : list (list nat) => p) (fun _ _ => inr "1,2") (fun _ => "{}")
            [[1; 2]] "application/xml"
  = inl (NameError "RuntimeException").
Proof.
  refine (proj1 (@output_fn_raises_name_error (list (list nat)) nat (fun p => p)
                   (fun _ _ => inr "1,2") (fun _ => "{}") [[1; 2]] "application/xml" _ _));
    discriminate.
Defined.

(** X3: A response comes only with one of the two accept values, and carries
    it as its mimetype. *)
Lemma output_fn_answers :
  forall (ndarray number : Type) (tolist : ndarray -> list (list number))
         (encode : ndarray -> string -> exn + string)
         (json_dumps : jvalue number -> string)
         (prediction : ndarray) (accept : string) (resp : Response),
    output_fn tolist encode json_dumps prediction accept = inr resp ->
    (accept = "application/json" \/ accept = "text/csv") /\ mimetype resp = accept.
Proof.
  intros ndarray number tolist encode json_dumps prediction accept resp.
  unfold output_fn.
  destruct (accept =? "application/json")%string eqn:Hjson.
  - intros [= <-]. apply String.eqb_eq in Hjson. auto.
  - destruct (accept =? "text/csv")%string eqn:Hcsv.
    + apply String.eqb_eq in Hcsv. destruct (encode prediction accept); [discriminate|].
      intros [= <-]. auto.
    + rewrite runtime_exception_is_unbound. discriminate.
Qed.

Lemma output_fn_answers_witness :
  mimetype {| response := "1,2"; mimetype := "text/csv" |} = "text/csv".
Proof.
  exact (proj2 (@output_fn_answers (list (list nat)) nat (fun p => p)
                  (fun _ _ => inr "1,2") (fun _ => "{}") [[1; 2]] "text/csv"
                  {| response := "1,2"; mimetype := "text/csv" |} eq_refl)).
Defined.

End InferencePipelineFacts.

(* ===================================================================== *)
(** * Batch transform: the JSON Lines file and the downloaded results     *)
(* ===================================================================== *)

Module BatchTransformFacts.
Import Py BatchTransform.

Lemma append_assoc (a b c : string) : (a ++ b) ++ c = a ++ (b ++ c).
Proof. induction a as [|x a IH]; cbn; [reflexivity|]. rewrite IH. reflexivity. Qed.

Lemma append_empty_r (a : string) : a ++ "" = a.
Proof. induction a as [|x a IH]; cbn; [reflexivity|]. rewrite IH. reflexivity. Qed.

Lemma occurs_append x a b : occurs x (a ++ b) = occurs x a || occurs x b.
Proof.
  induction a as [|c a IH]; cbn; [reflexivity|]. rewrite IH, orb_assoc. reflexivity.
Qed.

(** ** Removing a character *)

Lemma replace_char_by_nothing (x : ascii) (s : string) :
  replace (String x "") "" s = remove_char x s.
Proof.
  unfold replace. induction s as [|c s IH]; [reflexivity|].
  cbn [replace_from starts_with String.length Nat.sub remove_char].
  rewrite andb_true_r, (Ascii.eqb_sym x c).
  destruct (Ascii.eqb c x); cbn; rewrite IH; reflexivity.
Qed.

Lemma remove_char_removes x s : occurs x (remove_char x s) = false.
Proof.
  induction s as [|c s IH]; [reflexivity|]. cbn.
  destruct (Ascii.eqb c x) eqn:E; [exact IH|]. cbn. rewrite E. exact IH.
Qed.

(** ** No raw newline in the output of [json.dump] *)

Lemma escape_char_no_newline c : occurs nl (escape_char c) = false.
Proof.
  destruct c as [[] [] [] [] [] [] [] []]; reflexivity.
Qed.

Lemma escape_no_newline s : occurs nl (escape s) = false.
Proof.
  induction s as [|c s IH]; [reflexivity|]. cbn [escape].
  rewrite occurs_append, escape_char_no_newline, IH. reflexivity.
Qed.

Lemma encode_string_no_newline s : occurs nl (encode_string s) = false.
Proof.
  unfold encode_string. rewrite !occurs_append, escape_no_newline. reflexivity.
Qed.

Lemma encode_item_no_newline kv : occurs nl (encode_item kv) = false.
Proof.
  unfold encode_item. rewrite !occurs_append, !encode_string_no_newline. reflexivity.
Qed.

Lemma concat_no_newline (items : list string) :
  Forall (fun i => occurs nl i = false) items ->
  occurs nl (String.concat ", " items) = false.
Proof.
  induction 1 as [|i items Hi _ IH]; [reflexivity|].
  destruct items as [|j items]; [exact Hi|].
  change (String.concat ", " (i :: j :: items))
    with (i ++ ", " ++ String.concat ", " (j :: items)).
  rewrite !occurs_append, Hi, IH. reflexivity.
Qed.

Lemma json_dumps_no_newline d : occurs nl (json_dumps d) = false.
Proof.
  unfold json_dumps. rewrite !occurs_append, concat_no_newline; [reflexivity|].
  apply Forall_forall. intros i Hi. apply in_map_iff in Hi.
  destruct Hi as [kv [<- _]]. apply encode_item_no_newline.
Qed.

(** ** Lines *)

Lemma lines_of_line s rest :
  occurs nl s = false ->
  lines_of (s ++ newline ++ rest) = (s ++ newline) :: lines_of rest.
Proof.
  induction s as [|c s IH]; intros H.
  - reflexivity.
  - cbn [occurs] in H. apply orb_false_elim in H. destruct H as [Hc Hs].
    cbn [String.append lines_of]. fold nl. rewrite Hc, (IH Hs). reflexivity.
Qed.

Lemma lines_of_lines (ls : list string) :
  Forall (fun l => occurs nl l = false) ls ->
  lines_of (lines_text ls) = List.map (fun l => l ++ newline) ls.
Proof.
  induction 1 as [|l ls Hl _ IH]; [reflexivity|].
  cbn [lines_text List.map]. rewrite lines_of_line, IH by exact Hl. reflexivity.
Qed.

(** A text without carriage returns is read as it is. *)
Lemma universal_newlines_plain s : occurs cr s = false -> universal_newlines s = s.
Proof.
  induction s as [|c s IH]; [reflexivity|]. cbn [occurs universal_newlines]. intros H.
  apply orb_false_elim in H. destruct H as [Hc Hs]. rewrite Hc, (IH Hs). reflexivity.
Qed.

Lemma readlines_plain s : occurs cr s = false -> readlines s = lines_of s.
Proof. intros H. unfold readlines. rewrite (universal_newlines_plain _ H). reflexivity. Qed.

(** ** No carriage return in the output of [json.dump] *)

Lemma escape_char_no_return c : occurs cr (escape_char c) = false.
Proof.
  destruct c as [[] [] [] [] [] [] [] []]; reflexivity.
Qed.

Lemma escape_no_return s : occurs cr (escape s) = false.
Proof.
  induction s as [|c s IH]; [reflexivity|]. cbn [escape].
  rewrite occurs_append, escape_char_no_return, IH. reflexivity.
Qed.

Lemma json_dumps_no_return d : occurs cr (json_dumps d) = false.
Proof.
  unfold json_dumps. rewrite !occurs_append.
  assert (H : occurs cr (String.concat ", " (List.map encode_item d)) = false).
  { induction d as [|kv d IH]; [reflexivity|].
    assert (Hkv : occurs cr (encode_item kv) = false).
    { unfold encode_item, encode_string. rewrite !occurs_append, !escape_no_return.
      reflexivity. }
    destruct d as [|kv' d]; [exact Hkv|].
    change (String.concat ", " (List.map encode_item (kv :: kv' :: d)))
      with (encode_item kv ++ ", " ++ String.concat ", " (List.map encode_item (kv' :: d))).
    rewrite !occurs_append, Hkv, IH. reflexivity. }
  rewrite H. reflexivity.
Qed.

Lemma lines_text_no_return (ls : list string) :
  Forall (fun l => occurs cr l = false) ls -> occurs cr (lines_text ls) = false.
Proof.
  induction 1 as [|l ls Hl _ IH]; [reflexivity|].
  cbn [lines_text]. rewrite !occurs_append, Hl, IH. reflexivity.
Qed.

Lemma readlines_lines (ls : list string) :
  Forall (fun l => occurs nl l = false) ls ->
  Forall (fun l => occurs cr l = false) ls ->
  readlines (lines_text ls) = List.map (fun l => l ++ newline) ls.
Proof.
  intros Hnl Hcr. rewrite readlines_plain by apply lines_text_no_return, Hcr.
  apply lines_of_lines, Hnl.
Qed.

Lemma preprocess_rows l : forall st,
  fold_left preprocess_row l st =
  {| outfile := outfile st ++ lines_text (List.map (fun t => json_dumps (object_of t)) l);
     data_json := (data_json st ++ List.map object_of l)%list |}.
Proof.
  induction l as [|t l IH]; intros st.
  - cbn. rewrite append_empty_r, app_nil_r. destruct st; reflexivity.
  - cbn [fold_left List.map lines_text]. rewrite IH.
    unfold preprocess_row, write, BatchTransform.append. cbn [outfile data_json].
    rewrite (replace_char_by_nothing "@"%char t). fold (object_of t).
    rewrite !append_assoc, <- app_assoc. reflexivity.
Qed.

(** C4: the preprocessing cell writes one line per tweet, the line of a
    tweet being the JSON object [{"inputs": s}] with [s] the tweet without
    its ['@'] characters; [data_json] holds the same objects in the same
    order; and the file has as many lines as there are tweets. *)
Theorem preprocessing_writes_one_object_per_tweet :
  forall tweet_text : list string,
    let st := preprocess tweet_text in
    readlines (outfile st) = List.map (fun d => json_dumps d ++ newline) (data_json st)
    /\ data_json st = List.map (fun tweet => [("inputs", remove_char "@" tweet)]) tweet_text
    /\ length (readlines (outfile st)) = length tweet_text
    /\ (forall tweet,
          occurs "@" (remove_char "@" tweet) = false
          /\ replace "@" "" tweet = remove_char "@" tweet
          /\ json_dumps [("inputs", remove_char "@" tweet)]
             = "{" ++ dquote ++ "inputs" ++ dquote ++ ": "
                   ++ dquote ++ escape (remove_char "@" tweet) ++ dquote ++ "}").
Proof.
  intros tweet_text st.
  assert (Hst : st = {| outfile := lines_text (List.map (fun t => json_dumps (object_of t)) tweet_text);
                        data_json := List.map object_of tweet_text |}).
  { unfold st, preprocess. rewrite preprocess_rows. reflexivity. }
  assert (Hlines : readlines (outfile st)
                   = List.map (fun d => json_dumps d ++ newline) (data_json st)).
  { rewrite Hst. cbn [outfile data_json]. rewrite readlines_lines.
    - rewrite !List.map_map. reflexivity.
    - apply Forall_forall. intros l Hl. apply in_map_iff in Hl.
      destruct Hl as [t [<- _]]. apply json_dumps_no_newline.
    - apply Forall_forall. intros l Hl. apply in_map_iff in Hl.
      destruct Hl as [t [<- _]]. apply json_dumps_no_return. }
  split; [exact Hlines|]. split; [rewrite Hst; reflexivity|].
  split.
  - rewrite Hlines, Hst. cbn [data_json]. rewrite !length_map. reflexivity.
  - intros tweet. split; [apply remove_char_removes|].
    split; [apply (replace_char_by_nothing "@"%char)|].
    unfold json_dumps, encode_item, encode_string. cbn [List.map String.concat fst snd].
    rewrite !append_assoc. reflexivity.
Qed.

(** Two tweets, one with a line break inside. *)
Example preprocessing_two_tweets :
  outfile (preprocess ["@user hello"; "a" ++ newline ++ "b@"])
  = "{" ++ quoted "inputs" ++ ": " ++ quoted "user hello" ++ "}" ++ newline
    ++ "{" ++ quoted "inputs" ++ ": " ++ quoted ("a" ++ backslash ++ "nb") ++ "}" ++ newline.
Proof. reflexivity. Qed.

Lemma replace_char (x : ascii) (new s : string) :
  replace (String x "") new s
  = map_chars (fun c => if Ascii.eqb c x then new else String c "") s.
Proof.
  unfold replace. induction s as [|c s IH]; [reflexivity|].
  cbn [replace_from starts_with String.length Nat.sub map_chars].
  rewrite andb_true_r, (Ascii.eqb_sym x c).
  destruct (Ascii.eqb c x); cbn; rewrite IH; reflexivity.
Qed.

Lemma map_chars_append f a b : map_chars f (a ++ b) = map_chars f a ++ map_chars f b.
Proof.
  induction a as [|c a IH]; [reflexivity|]. cbn. rewrite IH.
  induction (f c) as [|d s IHs]; [reflexivity|]. cbn. rewrite IHs. reflexivity.
Qed.

Lemma as_array_chars line : as_array line = "[" ++ map_chars bracket_char line ++ "]".
Proof.
  unfold as_array. do 2 f_equal.
  rewrite (replace_char "["%char "" line), (replace_char "]"%char ",").
  induction line as [|c line IH]; [reflexivity|].
  cbn [map_chars]. rewrite map_chars_append, IH. f_equal.
  unfold bracket_char.
  destruct (Ascii.eqb c "[") eqn:E1; [reflexivity|].
  cbn. destruct (Ascii.eqb c "]"); reflexivity.
Qed.

Section Download.
Variable value : Type.
Variable literal_eval : string -> exn + value.
Variable empty_list : value.

Lemma read_results_app earlier : forall later v,
  read_results literal_eval (earlier ++ later) v =
  match read_results literal_eval earlier v with
  | inl e => inl e
  | inr v' => read_results literal_eval later v'
  end.
Proof.
  induction earlier as [|l earlier IH]; intros later v; [reflexivity|].
  cbn [read_results app]. destruct (literal_eval (as_array l)); [reflexivity|]. apply IH.
Qed.
End Download.

(** C3: after the loop over the lines of the output file,
    [batch_transform_result] is the parse of the last line alone, whatever
    the earlier lines gave; and a line is parsed after every ['['] in it
    was deleted and every [']'] replaced by [','], inside string contents
    as well. *)
Theorem result_keeps_only_last_line :
  forall (value : Type) (literal_eval : string -> exn + value) (empty_list : value)
         (output_file : string) (earlier : list string) (last : string),
    readlines output_file = (earlier ++ [last])%list ->
    (download_results literal_eval empty_list output_file =
       match read_results literal_eval earlier empty_list with
       | inl e => inl e
       | inr _ => literal_eval (as_array last)
       end)
    /\ (forall line, as_array line = "[" ++ map_chars bracket_char line ++ "]")
    /\ as_array ("[{" ++ quoted "label" ++ ": " ++ quoted "a[0]" ++ "}]")
       = "[{" ++ quoted "label" ++ ": " ++ quoted "a0," ++ "},]".
Proof.
  intros value literal_eval empty_list output_file earlier last Hlines.
  split; [|split].
  - unfold download_results. rewrite Hlines, read_results_app.
    destruct (read_results literal_eval earlier empty_list) as [e|v]; [reflexivity|].
    cbn [read_results]. destruct (literal_eval (as_array last)); reflexivity.
  - apply as_array_chars.
  - reflexivity.
Qed.

Lemma result_keeps_only_last_line_witness :
  download_results bracketed "" ("[1]" ++ newline ++ "[2]" ++ newline)
  = inr ("[2," ++ newline ++ "]").
Proof.
  exact (proj1 (@result_keeps_only_last_line string bracketed ""
                  ("[1]" ++ newline ++ "[2]" ++ newline) ["[1]" ++ newline]
                  ("[2]" ++ newline) eq_refl)).
Defined.

(** The first line of the file does not show in the result. *)
Example earlier_results_are_discarded :
  download_results bracketed "" ("[1]" ++ newline ++ "[2]" ++ newline)
  = download_results bracketed "" ("[7, 8]" ++ newline ++ "[2]" ++ newline).
Proof. reflexivity. Qed.

(** A carriage return ends a line as a line feed does, and the two
    together end one line. *)
Example readlines_has_universal_newlines :
  readlines ("[1]" ++ String cr "[2]" ++ String cr newline ++ "[3]")
  = ["[1]" ++ newline; "[2]" ++ newline; "[3]"].
Proof. reflexivity. Qed.

End BatchTransformFacts.

(* ===================================================================== *)
(** * Feature store: the version guards and the search                    *)
(* ===================================================================== *)

Module FeatureStoreFacts.
Import Py Run RunFacts FeatureStore.

Section Guards.
Variable W : Type.
Variable handle : forall c : call, W -> W * (exn + val c).
Variable exe : string.

Lemma sagemaker_guard_first_call fuel w v :
  hd_error (calls (Run.run handle (S fuel) (sagemaker_guard exe v) w))
  = if (v <? "2.48.1")%string then Some (CheckCall [exe; "-m"; "pip"; "install"; "sagemaker==2.48.1"]) else None.
Proof.
  unfold sagemaker_guard. destruct (v <? "2.48.1")%string.
  - rewrite run_invoke_then. destruct (snd (handle _ w)); reflexivity.
  - rewrite run_ret. reflexivity.
Qed.

Lemma boto3_guard_first_call fuel w v :
  hd_error (calls (Run.run handle (S fuel) (boto3_guard exe v) w))
  = if (v <? "1.24.23")%string then Some (CheckCall [exe; "-m"; "pip"; "install"; "boto3==1.24.23"]) else None.
Proof.
  unfold boto3_guard. destruct (v <? "1.24.23")%string.
  - rewrite run_invoke_then. destruct (snd (handle _ w)); reflexivity.
  - rewrite run_ret. reflexivity.
Qed.
End Guards.

(** C9: the guards compare the version strings character by character.
    The guard of [sagemaker] installs again at ["2.100.0"], which as a
    number is not below 2.48.1, and does not at ["2.5.0"], which is; the
    guard of [boto3] does the same at ["1.100.0"] and ["1.3.0"]. *)
Theorem version_guards_compare_text :
  forall (exe : string) (W : Type) (handle : forall c : call, W -> W * (exn + val c))
         (fuel : nat) (w : W),
    let first_call t := hd_error (calls (Run.run handle (S fuel) t w)) in
    (forall v, first_call (sagemaker_guard exe v)
               = if (v <? "2.48.1")%string
                 then Some (CheckCall [exe; "-m"; "pip"; "install"; "sagemaker==2.48.1"])
                 else None)
    /\ (forall v, first_call (boto3_guard exe v)
                  = if (v <? "1.24.23")%string
                    then Some (CheckCall [exe; "-m"; "pip"; "install"; "boto3==1.24.23"])
                    else None)
    /\ (version_below "2.100.0" "2.48.1" = Some false
        /\ first_call (sagemaker_guard exe "2.100.0")
           = Some (CheckCall [exe; "-m"; "pip"; "install"; "sagemaker==2.48.1"]))
    /\ (version_below "2.5.0" "2.48.1" = Some true
        /\ first_call (sagemaker_guard exe "2.5.0") = None)
    /\ (version_below "1.100.0" "1.24.23" = Some false
        /\ first_call (boto3_guard exe "1.100.0")
           = Some (CheckCall [exe; "-m"; "pip"; "install"; "boto3==1.24.23"]))
    /\ (version_below "1.3.0" "1.24.23" = Some true
        /\ first_call (boto3_guard exe "1.3.0") = None).
Proof.
  intros exe W handle fuel w first_call.
  assert (Hs := fun v => @sagemaker_guard_first_call W handle exe fuel w v).
  assert (Hb := fun v => @boto3_guard_first_call W handle exe fuel w v).
  split; [exact Hs|]. split; [exact Hb|].
  repeat split; try reflexivity; unfold first_call; first [rewrite Hs | rewrite Hb]; reflexivity.
Qed.

Section Search.
Variable W : Type.
Variable handle : forall c : call, W -> W * (exn + val c).

Lemma run_lift {A R} fuel (x : exn + A) (k : A -> py R) w :
  Run.run handle fuel (ITree.bind (lift x) k) w =
  match x with
  | inl e => Run.Result w [] (Raised e) fuel
  | inr a => Run.run handle fuel (k a) w
  end.
Proof.
  destruct x as [e|a]; unfold lift.
  - rewrite run_bind, run_raise. reflexivity.
  - apply run_ret_bind.
Qed.

Lemma search_run search_string fuel w :
  Run.run handle (S fuel) (search_features_using_string search_string) w =
  let x := snd (handle (search_call search_string) w) in
  Run.Result (fst (handle (search_call search_string) w))
    [existT _ (search_call search_string) x]
    match x with
    | inl e => Raised e
    | inr response =>
        match table_of response with
        | inl e => Raised e
        | inr df => Done df
        end
    end fuel.
Proof.
  unfold search_features_using_string. rewrite run_invoke_then.
  change (Search "FeatureMetadata" _) with (search_call search_string). cbn zeta.
  destruct (snd (handle (search_call search_string) w)) as [e|response]; [reflexivity|].
  unfold table_of. rewrite run_lift.
  destruct (getitem "Results" response) as [e|results]; [reflexivity|].
  rewrite run_lift.
  destruct (json_normalize results) as [e|df]; [reflexivity|].
  rewrite run_lift.
  destruct (rename_columns second_part df) as [e|df']; [reflexivity|].
  rewrite run_lift.
  destruct (drop "FeatureGroupArn" df') as [e|df'']; [reflexivity|].
  rewrite run_ret. reflexivity.
Qed.
End Search.

Lemma dropped_label_is_gone label cols :
  existsb (String.eqb label) (filter (fun c => negb (c =? label)%string) cols) = false.
Proof.
  induction cols as [|c cols IH]; [reflexivity|]. cbn.
  destruct (c =? label)%string eqn:E; cbn; [exact IH|].
  rewrite String.eqb_sym, E. exact IH.
Qed.

(** X1: The function makes one call, the search on ["FeatureMetadata"] with
    the three [Contains] filters joined by [Or]. *)
Lemma search_issues_one_call :
  forall (W : Type) (handle : forall c : call, W -> W * (exn + val c))
         (fuel : nat) (w : W) (search_string : string),
    calls (Run.run handle (S fuel) (search_features_using_string search_string) w)
    = [Search "FeatureMetadata"
         {| Filters := [ {| Name := "FeatureName"; Operator := "Contains";
                            Value := search_string |};
                         {| Name := "Description"; Operator := "Contains";
                            Value := search_string |};
                         {| Name := "AllParameters"; Operator := "Contains";
                            Value := search_string |} ];
            BooleanOperator := "Or" |}].
Proof.
  intros W handle fuel w search_string. rewrite search_run. reflexivity.
Qed.

(** X2: A table the function returns has no column [FeatureGroupArn]. *)
Lemma search_result_has_no_arn :
  forall (W : Type) (handle : forall c : call, W -> W * (exn + val c))
         (fuel : nat) (w : W) (search_string : string) (df : DataFrame),
    out (Run.run handle (S fuel) (search_features_using_string search_string) w) = Done df ->
    existsb (String.eqb "FeatureGroupArn") (columns df) = false.
Proof.
  intros W handle fuel w search_string df. rewrite search_run. cbn zeta. cbn [out].
  destruct (snd (handle (search_call search_string) w)) as [e|response]; [discriminate|].
  unfold table_of.
  destruct (getitem "Results" response) as [e|results]; [discriminate|].
  destruct (json_normalize results) as [e|df0]; [discriminate|].
  destruct (rename_columns second_part df0) as [e|df1]; [discriminate|].
  unfold drop.
  destruct (existsb (String.eqb "FeatureGroupArn") (columns df1)); [|discriminate].
  intros [= <-]. cbn [columns]. apply dropped_label_is_gone.
Qed.

Lemma search_result_has_no_arn_witness :
  existsb (String.eqb "FeatureGroupArn")
          ["FeatureGroupName"; "FeatureName"; "FeatureType"; "Description"] = false.
Proof.
  exact (@search_result_has_no_arn unit two_features 9 tt "married"
           {| columns := ["FeatureGroupName"; "FeatureName"; "FeatureType"; "Description"];
              rows := [[Some (JStr "customers"); Some (JStr "is_married"); Some (JStr "String");
                        Some (JStr "boolean value whether the customer is married or not")];
                       [Some (JStr "customers"); Some (JStr "age"); Some (JStr "Integral");
                        Some (JStr "age in years")]] |}
           eq_refl).
Defined.

(** With two features found, the table has their fields but the ARN. *)
Example search_finds_two_features :
  out (Run.run two_features 10 (search_features_using_string "married") tt)
  = Done {| columns := ["FeatureGroupName"; "FeatureName"; "FeatureType"; "Description"];
            rows := [[Some (JStr "customers"); Some (JStr "is_married"); Some (JStr "String");
                      Some (JStr "boolean value whether the customer is married or not")];
                     [Some (JStr "customers"); Some (JStr "age"); Some (JStr "Integral");
                      Some (JStr "age in years")]] |}.
Proof. reflexivity. Qed.

(** A field beside ["FeatureMetadata"] comes first in the normalized
    table, the flattened fields after it. *)
Example json_normalize_sets_flattened_fields_last :
  json_normalize
    (JList [JDict [("FeatureMetadata", JDict [("FeatureName", JStr "age")]);
                   ("Score", JNum 1)]])
  = inr {| columns := ["Score"; "FeatureMetadata.FeatureName"];
           rows := [[Some (JNum 1); Some (JStr "age")]] |}.
Proof. reflexivity. Qed.

(** C6, where the code fails: when the search finds nothing the table has
    no column at all, and dropping [FeatureGroupArn] raises [KeyError]. *)
Theorem search_without_match_raises :
  forall (W : Type) (handle : forall c : call, W -> W * (exn + val c))
         (fuel : nat) (w : W) (search_string : string),
    snd (handle (search_call search_string) w) = inr (JDict [("Results", JList [])]) ->
    out (Run.run handle (S fuel) (search_features_using_string search_string) w)
    = Raised (KeyError "['FeatureGroupArn'] not found in axis").
Proof.
  intros W handle fuel w search_string Hempty.
  rewrite search_run. cbn zeta. cbn [out]. rewrite Hempty. reflexivity.
Qed.

Lemma search_without_match_raises_witness :
  out (Run.run no_match 10 (search_features_using_string "zebra") tt)
  = Raised (KeyError "['FeatureGroupArn'] not found in axis").
Proof.
  exact (@search_without_match_raises unit no_match 9 tt "zebra" eq_refl).
Defined.

End FeatureStoreFacts.

(* ===================================================================== *)
(** * The featurizer script: dicts, serving functions, training           *)
(* ===================================================================== *)

Module FeaturizerFacts.
Import Py Run RunFacts Featurizer.

(** ** [merge_two_dicts] *)

Section Dicts.

Variable V : Type.
Implicit Types (d x y z : pydict V) (k : string) (v : V).

Lemma get_setitem k k' v d :
  get k' (setitem k v d) = if (k =? k')%string then Some v else get k' d.
Proof.
  induction d as [|[k0 v0] d IH]; cbn.
  - reflexivity.
  - destruct (k0 =? k)%string eqn:E0; cbn.
    + apply String.eqb_eq in E0. subst k0. destruct (k =? k')%string; reflexivity.
    + destruct (k0 =? k')%string eqn:E1.
      * apply String.eqb_eq in E1. subst k0. rewrite String.eqb_sym, E0. reflexivity.
      * exact IH.
Qed.

Lemma get_none k d : get k d = None <-> ~ In k (keys d).
Proof.
  induction d as [|[k0 v0] d IH]; cbn.
  - tauto.
  - destruct (k0 =? k)%string eqn:E.
    + apply String.eqb_eq in E. split; [discriminate|]. intros H. exfalso. auto.
    + apply String.eqb_neq in E. rewrite IH. tauto.
Qed.

Lemma get_updated k y : forall z,
  NoDup (keys y) ->
  get k (updated z y) = match get k y with Some v => Some v | None => get k z end.
Proof.
  induction y as [|[k0 v0] y IH]; intros z Hy; cbn.
  - reflexivity.
  - inversion Hy as [|? ? Hk0 Hy']; subst. unfold updated in *. cbn.
    rewrite (IH _ Hy'). destruct (k0 =? k)%string eqn:E.
    + apply String.eqb_eq in E. subst k0.
      apply get_none in Hk0. rewrite Hk0, get_setitem, String.eqb_refl. reflexivity.
    + rewrite get_setitem, E. reflexivity.
Qed.

Lemma keys_setitem k v d :
  keys (setitem k v d) = if existsb (String.eqb k) (keys d) then keys d else (keys d ++ [k])%list.
Proof.
  induction d as [|[k0 v0] d IH]; cbn.
  - reflexivity.
  - rewrite (String.eqb_sym k k0). destruct (k0 =? k)%string; cbn; [reflexivity|].
    unfold keys in *. rewrite IH. destruct (existsb (String.eqb k) (List.map fst d)); reflexivity.
Qed.

Lemma existsb_In k (l : list string) : existsb (String.eqb k) l = true <-> In k l.
Proof.
  rewrite existsb_exists. split.
  - intros (x & Hx & E). apply String.eqb_eq in E. subst. exact Hx.
  - intros H. exists k. split; [exact H|apply String.eqb_refl].
Qed.

Lemma keys_updated y : forall z,
  NoDup (keys y) ->
  keys (updated z y)
  = (keys z ++ filter (fun k => negb (existsb (String.eqb k) (keys z))) (keys y))%list.
Proof.
  induction y as [|[k0 v0] y IH]; intros z Hy.
  - cbn. rewrite app_nil_r. reflexivity.
  - inversion Hy as [|? ? Hk0 Hy']; subst. unfold updated in *. cbn [fold_left fst snd].
    rewrite (IH _ Hy'), keys_setitem. cbn [keys List.map fst filter].
    destruct (existsb (String.eqb k0) (keys z)) eqn:E; cbn [negb].
    + reflexivity.
    + rewrite <- app_assoc. cbn [app]. do 2 f_equal.
      apply filter_ext_in. intros k Hk. rewrite existsb_app. cbn [existsb].
      rewrite orb_false_r. destruct (k =? k0)%string eqn:Ek; [|rewrite orb_false_r; reflexivity].
      apply String.eqb_eq in Ek. subst k. contradiction.
Qed.

Lemma nodup_setitem k v d : NoDup (keys d) -> NoDup (keys (setitem k v d)).
Proof.
  intros H. rewrite keys_setitem. destruct (existsb (String.eqb k) (keys d)) eqn:E; [exact H|].
  apply NoDup_app; [exact H|repeat constructor; intros []|].
  intros x Hx [<-|[]]. apply existsb_In in Hx. congruence.
Qed.

Lemma nodup_updated y : forall z, NoDup (keys z) -> NoDup (keys (updated z y)).
Proof.
  induction y as [|[k0 v0] y IH]; intros z Hz; [exact Hz|].
  unfold updated in *. cbn [fold_left]. apply IH, nodup_setitem, Hz.
Qed.

Lemma write_last d d' (s : store V) : write (length s) d' (s ++ [d])%list = (s ++ [d'])%list.
Proof.
  induction s as [|d0 s IH]; cbn; [reflexivity|]. rewrite IH. reflexivity.
Qed.

Lemma merge_two_dicts_run (s : store V) (ax ay : address) x y :
  read ax s = Some x -> read ay s = Some y ->
  merge_two_dicts ax ay s = Some (length s, (s ++ [updated x y])%list).
Proof.
  intros Hx Hy. unfold merge_two_dicts, copy, alloc, update. rewrite Hx.
  unfold read in *. rewrite nth_error_app2, Nat.sub_diag by apply le_n. cbn [nth_error].
  rewrite nth_error_app1 by (apply nth_error_Some; congruence).
  rewrite Hy, write_last. reflexivity.
Qed.

End Dicts.

(** X4: [merge_two_dicts(x, y)] returns a dict at a new address and leaves
    every dict of the store, [x] and [y] among them, as it was; a key of
    [y] has [y]'s value in the result, any other key has what [x] gives. *)
Theorem merge_two_dicts_prefers_y :
  forall (V : Type) (s : store V) (ax ay : address) (x y : pydict V),
    read ax s = Some x -> read ay s = Some y -> NoDup (keys y) ->
    exists az s' z,
      merge_two_dicts ax ay s = Some (az, s')
      /\ read az s = None /\ read az s' = Some z
      /\ (forall a d, read a s = Some d -> read a s' = Some d)
      /\ forall k, get k z = match get k y with
                             | Some v => Some v
                             | None => get k x
                             end.
Proof.
  intros V s ax ay x y Hx Hy Hnodup.
  exists (length s), (s ++ [updated x y])%list, (updated x y).
  split; [apply merge_two_dicts_run; assumption|].
  unfold read. split; [apply nth_error_None, le_n|].
  split; [rewrite nth_error_app2, Nat.sub_diag by apply le_n; reflexivity|].
  split.
  - intros a d Ha. rewrite nth_error_app1; [exact Ha|]. apply nth_error_Some. congruence.
  - intros k. apply get_updated, Hnodup.
Qed.

Lemma merge_two_dicts_prefers_y_witness :
  exists z,
    get "rings" z = Some "float64" /\ get "sex" z = Some "category"
    /\ get "age" z = None.
Proof.
  destruct (@merge_two_dicts_prefers_y string [feature_columns_dtype; label_column_dtype] 0 1
              feature_columns_dtype label_column_dtype eq_refl eq_refl)
    as (az & s' & z & _ & _ & _ & _ & Hget).
  - repeat constructor; intros [].
  - exists z. rewrite !Hget. repeat split; reflexivity.
Defined.

(** X5: The result of [merge_two_dicts(x, y)] has the keys of [x] in their
    order, then the keys of [y] that [x] does not have, in [y]'s order,
    and no key twice. *)
Theorem merge_two_dicts_keeps_the_order :
  forall (V : Type) (s s' : store V) (ax ay az : address) (x y : pydict V),
    read ax s = Some x -> read ay s = Some y ->
    NoDup (keys x) -> NoDup (keys y) ->
    merge_two_dicts ax ay s = Some (az, s') ->
    exists z,
      read az s' = Some z
      /\ keys z = (keys x ++ filter (fun k => negb (existsb (String.eqb k) (keys x))) (keys y))%list
      /\ NoDup (keys z).
Proof.
  intros V s s' ax ay az x y Hx Hy Hnx Hny Hrun.
  rewrite (@merge_two_dicts_run V s ax ay x y Hx Hy) in Hrun. injection Hrun as <- <-.
  exists (updated x y). unfold read.
  split; [rewrite nth_error_app2, Nat.sub_diag by apply le_n; reflexivity|].
  split; [apply keys_updated, Hny|apply nodup_updated, Hnx].
Qed.

Lemma nodup_strings (l : list string) : distinct l = true -> NoDup l.
Proof.
  induction l as [|k l IH]; [constructor|].
  cbn [distinct]. intros H. apply andb_prop in H. destruct H as [Hk Hl]. constructor; [|apply IH, Hl].
  intros Hin. apply (existsb_In k l) in Hin. rewrite Hin in Hk. discriminate.
Qed.

Lemma merge_two_dicts_keeps_the_order_witness :
  exists z,
    read 2 [feature_columns_dtype; label_column_dtype;
            updated feature_columns_dtype label_column_dtype] = Some z
    /\ keys z = (feature_columns_names ++ [label_column])%list.
Proof.
  destruct (@merge_two_dicts_keeps_the_order string
              [feature_columns_dtype; label_column_dtype] _ 0 1 _
              feature_columns_dtype label_column_dtype eq_refl eq_refl
              (nodup_strings (keys feature_columns_dtype) eq_refl)
              (nodup_strings (keys label_column_dtype) eq_refl) eq_refl)
    as (z & Hread & Hkeys & _).
  exists z. split; [exact Hread|exact Hkeys].
Defined.

(** ** [input_fn] and [predict_fn] *)

Section Serving.

Variable cell : Type.
Variable number : Type.
Variable read_csv : string -> exn + list (list cell).
Variable model : Type.
Variable transform : model -> DataFrame cell -> exn + list (list number).
Variable as_number : cell -> exn + number.

Abbreviation input_fn := (Featurizer.input_fn read_csv).
Abbreviation predict_fn := (Featurizer.predict_fn transform as_number).
Abbreviation np_insert_first_column := (Featurizer.np_insert_first_column as_number).

Lemma columns_combine (A : Type) (labels : list label) (cols : list (list A)) :
  length labels = length cols -> columns (combine labels cols) = labels.
Proof.
  revert cols. induction labels as [|l labels IH]; intros [|c cols]; cbn; try discriminate.
  - reflexivity.
  - intros [= H]. unfold columns in IH. rewrite IH by exact H. reflexivity.
Qed.

Lemma values_combine (A : Type) (labels : list label) (cols : list (list A)) :
  length labels = length cols -> List.map snd (combine labels cols) = cols.
Proof.
  revert cols. induction labels as [|l labels IH]; intros [|c cols]; cbn; try discriminate.
  - reflexivity.
  - intros [= H]. rewrite IH by exact H. reflexivity.
Qed.

Lemma input_fn_csv input_data cols :
  read_csv input_data = inr cols ->
  input_fn input_data "text/csv" = inr (combine (labels_for (length cols)) cols).
Proof.
  intros Hread. unfold Featurizer.input_fn, read_csv_headerless. cbn. rewrite Hread.
  assert (Hlen : length (List.map Pos (seq 0 (length cols))) = length cols)
    by (rewrite length_map, length_seq; reflexivity).
  rewrite (columns_combine _ _ Hlen), Hlen. unfold labels_for, set_columns.
  rewrite length_combine, Hlen, Nat.min_id, (values_combine _ _ Hlen).
  change (length feature_columns_names + 1) with 9.
  change (length feature_columns_names) with 8.
  destruct (length cols =? 9) eqn:E9.
  - apply Nat.eqb_eq in E9. rewrite E9. reflexivity.
  - destruct (length cols =? 8) eqn:E8; [|reflexivity].
    apply Nat.eqb_eq in E8. rewrite E8. reflexivity.
Qed.

Lemma contains_pos name (n k : nat) :
  existsb (label_eqb (Named name)) (List.map Pos (seq k n)) = false.
Proof.
  revert k. induction n as [|n IH]; intros k; cbn; [reflexivity|apply IH].
Qed.

Lemma labels_for_length n : length (labels_for n) = n.
Proof.
  unfold labels_for. destruct (n =? 9) eqn:E9.
  - apply Nat.eqb_eq in E9. subst. reflexivity.
  - destruct (n =? 8) eqn:E8.
    + apply Nat.eqb_eq in E8. subst. reflexivity.
    + rewrite length_map, length_seq. reflexivity.
Qed.

Lemma contains_label_for n :
  existsb (label_eqb (Named label_column)) (labels_for n) = (n =? 9).
Proof.
  unfold labels_for. destruct (n =? 9); [reflexivity|].
  destruct (n =? 8); [reflexivity|]. apply contains_pos.
Qed.

Lemma as_numbers_length values : forall xs,
  as_numbers as_number values = inr xs -> length xs = length values.
Proof.
  induction values as [|v values IH]; cbn; intros xs.
  - intros [= <-]. reflexivity.
  - destruct (as_number v); [discriminate|].
    destruct (as_numbers as_number values) as [|ys]; [discriminate|].
    intros [= <-]. cbn. rewrite (IH ys eq_refl). reflexivity.
Qed.

Lemma zip_rows (xs : list number) : forall arr : list (list number),
  length xs = length arr ->
  Forall2 extends (List.map (fun p => fst p :: snd p) (combine xs arr)) arr.
Proof.
  induction xs as [|x xs IH]; intros [|f arr]; cbn; try discriminate.
  - constructor.
  - intros [= H]. constructor; [exists x; reflexivity|apply IH, H].
Qed.

Lemma broadcast_rows (x : number) (arr : list (list number)) :
  Forall2 extends (List.map (cons x) arr) arr.
Proof.
  induction arr as [|f arr IH]; cbn; constructor; [exists x; reflexivity|exact IH].
Qed.

Lemma np_insert_rows arr values out :
  np_insert_first_column arr (Series values) = inr out -> Forall2 extends out arr.
Proof.
  unfold Featurizer.np_insert_first_column.
  destruct (as_numbers as_number values) as [|xs]; [discriminate|].
  destruct (length xs =? length arr) eqn:E.
  - intros [= <-]. apply zip_rows. apply Nat.eqb_eq, E.
  - destruct xs as [|x [|y xs]]; try discriminate.
    intros [= <-]. apply broadcast_rows.
Qed.

Lemma as_numbers_each_length cols : forall xss,
  as_numbers_each as_number cols = inr xss -> length xss = length cols.
Proof.
  induction cols as [|c cols IH]; cbn; intros xss.
  - intros [= <-]. reflexivity.
  - destruct (as_numbers as_number c); [discriminate|].
    destruct (as_numbers_each as_number cols) as [|yss]; [discriminate|].
    intros [= <-]. cbn. rewrite (IH yss eq_refl). reflexivity.
Qed.

Lemma zip_fronts (xss : list (list number)) : forall arr : list (list number),
  length xss = length arr ->
  Forall2 ends_with (List.map (fun p => fst p ++ snd p)%list (combine xss arr)) arr.
Proof.
  induction xss as [|xs xss IH]; intros [|f arr]; cbn; try discriminate.
  - constructor.
  - intros [= H]. constructor; [exists xs; reflexivity|apply IH, H].
Qed.

(** Several columns under the label: as many as the array has rows. *)
Lemma np_insert_table arr c0 c1 cols out :
  np_insert_first_column arr (Table (c0 :: c1 :: cols)) = inr out ->
  length (c0 :: c1 :: cols) = length arr /\ Forall2 ends_with out arr.
Proof.
  unfold Featurizer.np_insert_first_column.
  destruct (as_numbers_each as_number (c0 :: c1 :: cols)) as [|xss] eqn:Exss; [discriminate|].
  apply as_numbers_each_length in Exss.
  destruct (length xss =? length arr) eqn:E.
  - apply Nat.eqb_eq in E. intros [= <-]. split; [congruence|]. apply zip_fronts, E.
  - destruct xss as [|xs [|ys xss]]; discriminate.
Qed.

Lemma contains_labelled name (df : DataFrame cell) :
  contains name df = match labelled name df with [] => false | _ :: _ => true end.
Proof.
  unfold contains, columns, labelled.
  induction df as [|[l values] df IH]; [reflexivity|]. cbn [List.map existsb filter fst].
  destruct l as [i|s]; cbn [label_eqb]; [exact IH|].
  rewrite String.eqb_sym. destruct (s =? name)%string; [reflexivity|exact IH].
Qed.

Lemma getitem_rings (c0 c1 c2 c3 c4 c5 c6 c7 c8 : list cell) :
  getitem label_column
    (combine (List.map Named (feature_columns_names ++ [label_column]))
             [c0; c1; c2; c3; c4; c5; c6; c7; c8]) = inr (Series c8).
Proof. reflexivity. Qed.

End Serving.

(** X6: For a [text/csv] payload that parses, [input_fn] returns the
    parsed columns with their values untouched: nine columns get the eight
    feature names and [rings], eight columns the feature names, and any
    other number of columns keeps its positional labels.  The table has a
    column [rings] exactly when nine columns were parsed. *)
Theorem input_fn_labels :
  forall (cell : Type) (read_csv : string -> exn + list (list cell))
         (input_data : string) (cols : list (list cell)),
    read_csv input_data = inr cols ->
    exists df,
      input_fn read_csv input_data "text/csv" = inr df
      /\ List.map snd df = cols
      /\ columns df = (if length cols =? 9
                       then List.map Named (feature_columns_names ++ [label_column])
                       else if length cols =? 8 then List.map Named feature_columns_names
                       else List.map Pos (seq 0 (length cols)))
      /\ contains label_column df = (length cols =? 9).
Proof.
  intros cell read_csv input_data cols Hread.
  eexists. split; [apply input_fn_csv, Hread|].
  pose proof (labels_for_length (length cols)) as Hlen.
  split; [apply values_combine, Hlen|].
  unfold contains. rewrite (columns_combine _ _ Hlen).
  split; [reflexivity|apply contains_label_for].
Qed.

Lemma input_fn_labels_witness :
  exists df,
    input_fn (fun _ => inr [[1; 2]; [3; 4]; [5; 6]]) "1,3,5" "text/csv" = inr df
    /\ columns df = [Pos 0; Pos 1; Pos 2]
    /\ contains label_column df = false.
Proof.
  destruct (@input_fn_labels nat (fun _ => inr [[1; 2]; [3; 4]; [5; 6]]) "1,3,5"
              [[1; 2]; [3; 4]; [5; 6]] eq_refl) as (df & Hdf & _ & Hcols & Hrings).
  exists df. split; [exact Hdf|]. split; [exact Hcols|exact Hrings].
Defined.

(** X7: The only errors of [input_fn] are the [ValueError] that names a
    content type other than [text/csv], raised whatever the payload, and
    the error of [read_csv] itself; naming the columns never fails. *)
Theorem input_fn_errors :
  forall (cell : Type) (read_csv : string -> exn + list (list cell))
         (input_data content_type : string),
    (content_type <> "text/csv" ->
     input_fn read_csv input_data content_type
     = inl (ValueError (content_type ++ " not supported by script!")))
    /\ (forall e, input_fn read_csv input_data "text/csv" = inl e <-> read_csv input_data = inl e).
Proof.
  intros cell read_csv input_data content_type. split.
  - intros H. unfold input_fn. apply String.eqb_neq in H. rewrite H. reflexivity.
  - intros e. destruct (read_csv input_data) as [e'|cols] eqn:Hread.
    + unfold input_fn, read_csv_headerless. cbn. rewrite Hread.
      split; intros [= ->]; reflexivity.
    + rewrite (input_fn_csv _ _ Hread). split; discriminate.
Qed.

(** X8: What [predict_fn] returns has the rows of [model.transform], in
    their order: as they are when no column of the table is labelled
    [rings]; each with one entry before it when one column is; and when
    several columns are, which numpy accepts only if they are as many as
    the rows, each with some entries before it. *)
Theorem predict_fn_keeps_the_features :
  forall (cell number model : Type)
         (transform : model -> DataFrame cell -> exn + list (list number))
         (as_number : cell -> exn + number)
         (input_data : DataFrame cell) (m : model) (out : list (list number)),
    predict_fn transform as_number input_data m = inr out ->
    exists features,
      transform m input_data = inr features
      /\ length out = length features
      /\ match labelled label_column input_data with
         | [] => out = features
         | [_] => Forall2 extends out features
         | cols => length cols = length features /\ Forall2 ends_with out features
         end.
Proof.
  intros cell number model transform as_number input_data m out. unfold predict_fn.
  destruct (transform m input_data) as [|features]; [discriminate|].
  rewrite contains_labelled. unfold getitem.
  destruct (labelled label_column input_data) as [|c0 [|c1 cols]].
  - intros [= <-]. exists features. auto.
  - intros H. apply np_insert_rows in H. exists features.
    split; [reflexivity|]. split; [|exact H]. apply (Forall2_length H).
  - intros H. apply np_insert_table in H. destruct H as [Hlen H]. exists features.
    split; [reflexivity|]. split; [apply (Forall2_length H)|]. split; assumption.
Qed.

Lemma predict_fn_keeps_the_features_witness :
  exists features,
    features = [[10; 20]; [30; 40]]
    /\ Forall2 extends [[7; 10; 20]; [8; 30; 40]] features.
Proof.
  destruct (@predict_fn_keeps_the_features nat nat unit
              (fun _ _ => inr [[10; 20]; [30; 40]]) (fun x => inr x)
              [(Named "sex", [1; 2]); (Named "rings", [7; 8])] tt
              [[7; 10; 20]; [8; 30; 40]] eq_refl) as (features & Hf & _ & Hrows).
  exists features. split; [injection Hf as <-; reflexivity|exact Hrows].
Defined.

(** Two columns labelled [rings] and two rows: numpy takes the columns
    for the rows of what it inserts. *)
Example predict_fn_on_a_duplicated_label :
  predict_fn (fun (_ : unit) (_ : DataFrame nat) => inr [[10; 20]; [30; 40]]) (fun x => inr x)
             [(Named "rings", [1; 2]); (Named "sex", [5; 6]); (Named "rings", [3; 4])] tt
  = inr [[1; 2; 10; 20]; [3; 4; 30; 40]]
  /\ predict_fn (fun (_ : unit) (_ : DataFrame nat) => inr [[10]; [20]; [30]]) (fun x => inr x)
                [(Named "rings", [1; 2; 3]); (Named "rings", [4; 5; 6])] tt
     = inl (ValueError "could not broadcast input array from shape (2,3) into shape (3,3)").
Proof. split; reflexivity. Qed.

(** X9: On the table [input_fn] made of a payload, [predict_fn] puts the
    ninth parsed column before the features when nine columns were parsed,
    and returns the features alone for any other number of columns. *)
Theorem predict_fn_after_input_fn :
  forall (cell number model : Type) (read_csv : string -> exn + list (list cell))
         (transform : model -> DataFrame cell -> exn + list (list number))
         (as_number : cell -> exn + number)
         (input_data : string) (cols : list (list cell)) (df : DataFrame cell) (m : model),
    read_csv input_data = inr cols ->
    input_fn read_csv input_data "text/csv" = inr df ->
    predict_fn transform as_number df m
    = match transform m df with
      | inl e => inl e
      | inr features =>
          if length cols =? 9
          then np_insert_first_column as_number features (Series (nth 8 cols []))
          else inr features
      end.
Proof.
  intros cell number model read_csv transform as_number input_data cols df m Hread Hin.
  rewrite (input_fn_csv _ _ Hread) in Hin. injection Hin as <-.
  unfold predict_fn.
  destruct (transform m _) as [e|features]; [reflexivity|].
  unfold contains. rewrite (columns_combine _ _ (labels_for_length (length cols))).
  rewrite contains_label_for.
  destruct (length cols =? 9) eqn:E9; [|reflexivity].
  apply Nat.eqb_eq in E9.
  destruct cols as [|c0 [|c1 [|c2 [|c3 [|c4 [|c5 [|c6 [|c7 [|c8 [|c9 cols]]]]]]]]]];
    try discriminate.
  reflexivity.
Qed.

Lemma predict_fn_after_input_fn_witness :
  predict_fn (fun (_ : unit) (_ : DataFrame nat) => inr [[10]; [20]]) (fun x => inr x)
             (combine (labels_for 9) [[1; 1]; [2; 2]; [3; 3]; [4; 4]; [5; 5]; [6; 6]; [7; 7];
                                      [8; 8]; [90; 91]]) tt
  = inr [[90; 10]; [91; 20]].
Proof.
  exact (@predict_fn_after_input_fn nat nat unit
           (fun _ => inr [[1; 1]; [2; 2]; [3; 3]; [4; 4]; [5; 5]; [6; 6]; [7; 7]; [8; 8]; [90; 91]])
           (fun _ _ => inr [[10]; [20]]) (fun x => inr x) "payload" _ _ tt eq_refl eq_refl).
Defined.

(** ** The training script and [model_fn] *)

Lemma map_combine_map {A B C D} (f : A -> B) (g : B -> C -> D) (l : list A) :
  forall l' : list C,
    List.map (fun p => g (fst p) (snd p)) (combine (List.map f l) l')
    = List.map (fun p => g (f (fst p)) (snd p)) (combine l l').
Proof.
  induction l as [|a l IH]; intros [|c l']; cbn; try reflexivity.
  rewrite IH. reflexivity.
Qed.

Section AnyHost.

Variable W : Type.
Variable handle : forall c : call, W -> W * (exn + val c).

Abbreviation run := (Run.run handle).

Lemma read_file_then {R} file acc (k : list Frame -> py R) fuel w :
  run fuel (raw_data <- read_file file acc ;; k raw_data) w
  = run fuel (df <- invoke (read_call file) ;; k (acc ++ [df])%list) w.
Proof.
  unfold read_file, read_call. rewrite run_bind_bind, !run_invoke_then.
  destruct fuel as [|f]; [reflexivity|].
  destruct (snd (handle _ w)); [reflexivity|]. rewrite run_ret_bind. reflexivity.
Qed.

Lemma read_files_run files : forall acc fuel w frames,
  out (run fuel (for_each files read_file acc) w) = Done frames ->
  exists new,
    frames = (acc ++ new)%list
    /\ length new = length files
    /\ trace (run fuel (for_each files read_file acc) w)
       = List.map (fun p => answered (read_call (fst p)) (snd p)) (combine files new).
Proof.
  induction files as [|file files IH]; intros acc fuel w frames.
  - cbn [for_each]. rewrite run_ret. cbn. intros [= <-]. exists []. rewrite app_nil_r. auto.
  - cbn [for_each]. rewrite read_file_then. exec_call; cbn [out]; try discriminate.
    cbn [out after_event trace]. intros H.
    destruct (IH _ _ _ _ H) as (new & -> & Hlen & Htrace).
    exists (x :: new). rewrite <- app_assoc. split; [reflexivity|].
    split; [cbn; rewrite Hlen; reflexivity|].
    rewrite Htrace. reflexivity.
Qed.

End AnyHost.

(** X10: A run of the training script that ends normally has read the
    three environment variables, parsed the arguments and listed the
    input directory, which was not empty; it has read every listed file
    once, in the order of the listing and under its path in that
    directory, concatenated the tables read, dropped the column [rings],
    fitted the preprocessor on the result and saved it as [model.joblib]
    in the model directory. *)
Theorem main_reads_every_file :
  forall (W : Type) (handle : forall c : call, W -> W * (exn + val c))
         (fuel : nat) (w : W),
    let r := Run.run handle fuel main w in
    out r = Done tt ->
    exists (output_dir mdir tr : string) (args : Namespace) (listing : list string)
           (frames : list Frame) (data : Frame) (fitted : Fitted),
      listing <> [] /\ length frames = length listing
      /\ trace r =
         (preamble output_dir mdir tr args
          ++ [answered (ListDir (train args)) listing]
          ++ List.map (fun p => answered (read_call (os_path_join (train args) (fst p))) (snd p))
                      (combine listing frames)
          ++ [answered (Concat frames) data;
              answered (DropInplace data label_column) tt;
              answered (Fit preprocessor data) fitted;
              answered (Dump fitted (os_path_join (model_dir args) "model.joblib")) tt;
              answered (Print "saved model!") tt])%list.
Proof.
  intros W handle fuel w. cbn zeta. unfold main.
  do 5 (exec_norm; exec_call; cbn [out after_event trace]; try discriminate).
  rename x into output_dir, x0 into mdir, x1 into tr, x2 into args, x3 into listing.
  destruct listing as [|file listing].
  { cbn [List.map length Nat.eqb]. rewrite run_raise. discriminate. }
  cbn [List.map length Nat.eqb].
  rewrite run_bind. unfold Run.then_run.
  destruct (out (Run.run handle fuel (for_each _ read_file []) w4)) as [frames|ex|] eqn:Hreads;
    cbn [out trace]; try discriminate.
  destruct (read_files_run _ _ _ _ _ Hreads) as (new & -> & Hlen & Htrace).
  rewrite Htrace. cbn [app].
  do 4 (exec_norm; exec_call; cbn [out after_event trace]; try discriminate).
  exec_call; cbn [out after_event trace]; try discriminate.
  intros _. destruct x0, x2, x3.
  exists output_dir, mdir, tr, args, (file :: listing), new, x, x1.
  split; [discriminate|]. cbn [length] in Hlen. rewrite length_map in Hlen.
  split; [exact Hlen|].
  unfold preamble. cbn [app].
  rewrite <- (map_combine_map (os_path_join (train args))
                (fun f df => answered (read_call f) df) (file :: listing) new).
  reflexivity.
Qed.

Lemma main_reads_every_file_witness :
  exists (output_dir mdir tr : string) (args : Namespace) (listing : list string)
         (frames : list Frame) (data : Frame) (fitted : Fitted),
    listing <> [] /\ length frames = length listing
    /\ trace (Run.run (file_system training_host) 20 main []) =
       (preamble output_dir mdir tr args
        ++ [answered (ListDir (train args)) listing]
        ++ List.map (fun p => answered (read_call (os_path_join (train args) (fst p))) (snd p))
                    (combine listing frames)
        ++ [answered (Concat frames) data;
            answered (DropInplace data label_column) tt;
            answered (Fit preprocessor data) fitted;
            answered (Dump fitted (os_path_join (model_dir args) "model.joblib")) tt;
            answered (Print "saved model!") tt])%list.
Proof.
  exact (@main_reads_every_file _ (file_system training_host) 20 [] eq_refl).
Defined.

(** X11: When the listing of the input directory is empty, the training
    script raises the [ValueError] that names the directory and the
    channel [train] right after the listing: it reads no file, fits
    nothing and saves nothing. *)
Theorem main_without_input_files :
  forall (W : Type) (handle : forall c : call, W -> W * (exn + val c))
         (fuel : nat) (w : W) (path : string),
    let r := Run.run handle fuel main w in
    pick listed (trace r) = [(path, [])] ->
    out r = Raised (ValueError (no_files_message path "train"))
    /\ exists defaults,
         calls r = [Environ "SM_OUTPUT_DATA_DIR"; Environ "SM_MODEL_DIR";
                    Environ "SM_CHANNEL_TRAIN"; ParseArgs defaults; ListDir path].
Proof.
  intros W handle fuel w path. cbn zeta. unfold main, calls.
  do 5 (exec_norm; exec_call; cbn [out after_event trace pick listed]; try discriminate).
  destruct x3 as [|file listing]; [|discriminate].
  cbn [List.map length Nat.eqb]. rewrite run_raise. cbn [out trace].
  intros [= <-]. split; [reflexivity|]. eexists. reflexivity.
Qed.

Lemma main_without_input_files_witness :
  out (Run.run (file_system empty_channel_host) 20 main [])
  = Raised (ValueError (no_files_message "/opt/ml/input/data/train" "train")).
Proof.
  exact (proj1 (@main_without_input_files _ (file_system empty_channel_host) 20 []
                  "/opt/ml/input/data/train" eq_refl)).
Defined.

Section FileSystem.

Variable h : host.

Abbreviation run := (Run.run (file_system h)).

Lemma read_files_keep_the_files files : forall acc fuel fs,
  final (run fuel (for_each files read_file acc) fs) = fs.
Proof.
  induction files as [|file files IH]; intros acc fuel fs.
  - cbn [for_each]. rewrite run_ret. reflexivity.
  - cbn [for_each]. rewrite read_file_then, run_invoke_then.
    destruct fuel as [|f]; [reflexivity|].
    cbn [file_system read_call fst snd after_event final]. apply IH.
Qed.

End FileSystem.

(** X12: On a host whose [joblib.dump] writes files that [joblib.load]
    reads, when the training script has ended normally, [model_fn] called
    on the model directory of the arguments returns the preprocessor the
    script fitted. *)
Theorem model_fn_loads_what_main_saved :
  forall (h : host) (fuel fuel' : nat) (fs : joblib_files)
         (output_dir mdir tr : string) (args : Namespace),
    environ h "SM_OUTPUT_DATA_DIR" = inr output_dir ->
    environ h "SM_MODEL_DIR" = inr mdir ->
    environ h "SM_CHANNEL_TRAIN" = inr tr ->
    argv h {| output_data_dir := output_dir; model_dir := mdir; train := tr |} = inr args ->
    let r := Run.run (file_system h) fuel main fs in
    out r = Done tt ->
    out (Run.run (file_system h) (S fuel') (model_fn (model_dir args)) (final r))
    = Done {| fitted_id := fit_id h |}.
Proof.
  intros h fuel fuel' fs output_dir mdir tr args Ho Hm Ht Hargs. cbn zeta. unfold main.
  do 3 (exec_norm; rewrite run_invoke_then; destruct fuel as [|fuel]; [discriminate|];
        cbn [file_system fst snd]; rewrite ?Ho, ?Hm, ?Ht; cbn [after_event out final]).
  exec_norm; rewrite run_invoke_then; destruct fuel as [|fuel]; [discriminate|].
  cbn [file_system fst snd]. rewrite Hargs. cbn [after_event out final].
  exec_norm; rewrite run_invoke_then; destruct fuel as [|fuel]; [discriminate|].
  cbn [file_system fst snd].
  destruct (listdir h (train args)) as [e|[|file listing]]; cbn [after_event out final];
    try discriminate.
  { cbn [List.map length Nat.eqb]. rewrite run_raise. discriminate. }
  cbn [List.map length Nat.eqb].
  rewrite run_bind. unfold Run.then_run. rewrite read_files_keep_the_files.
  destruct (out (Run.run (file_system h) fuel (for_each _ read_file []) fs)) as [frames|ex|];
    cbn [out final]; try discriminate.
  match goal with |- context [Run.left ?r] => generalize (Run.left r) end.
  clear fuel. intros fuel.
  do 4 (exec_norm; rewrite run_invoke_then; destruct fuel as [|fuel]; [discriminate|];
        cbn [file_system fst snd after_event out final]).
  destruct fuel as [|fuel]; [discriminate|].
  rewrite run_invoke. cbn [file_system fst snd final]. intros _.
  unfold model_fn. rewrite run_invoke_then. cbn [file_system fst snd find_file].
  rewrite String.eqb_refl. cbn [after_event]. rewrite run_ret. reflexivity.
Qed.

Lemma model_fn_loads_what_main_saved_witness :
  out (Run.run (file_system training_host) 5 (model_fn "/opt/ml/model")
               (final (Run.run (file_system training_host) 20 main [])))
  = Done {| fitted_id := 7 |}.
Proof.
  exact (@model_fn_loads_what_main_saved training_host 20 4 []
           "/opt/ml/output/data" "/opt/ml/model" "/opt/ml/input/data/train"
           {| output_data_dir := "/opt/ml/output/data"; model_dir := "/opt/ml/model";
              train := "/opt/ml/input/data/train" |}
           eq_refl eq_refl eq_refl eq_refl eq_refl).
Defined.

End FeaturizerFacts.

(* ===================================================================== *)
(** * Asynchronous inference notebook: what the calls refer to            *)
(* ===================================================================== *)

Module AsyncInferenceAuditFacts.
Import Py Run RunFacts AsyncInference AsyncInferenceAudit.

Lemma snoc_split {A} (h pre post : list A) (ev ev' : A) :
  (h ++ [ev] = pre ++ ev' :: post)%list ->
  (post = [] /\ pre = h /\ ev' = ev)
  \/ exists post', post = (post' ++ [ev])%list /\ h = (pre ++ ev' :: post')%list.
Proof.
  destruct post as [|a post] using rev_ind; intros H.
  - apply app_inj_tail in H. destruct H as [-> ->]. auto.
  - clear IHpost. right. exists post.
    change (pre ++ ev' :: post ++ [a])%list with (pre ++ (ev' :: post) ++ [a])%list in H.
    rewrite app_assoc in H. apply app_inj_tail in H. destruct H as [-> ->]. auto.
Qed.

Lemma knowledge_snoc h ev : knowledge (h ++ [ev]) = learn (knowledge h) ev.
Proof. unfold knowledge. rewrite fold_left_app. reflexivity. Qed.

Lemma running_snoc h ev : running h -> is_last ev = false -> running (h ++ [ev]).
Proof.
  unfold running. intros Hh Hev. rewrite forallb_app, Hh. cbn. rewrite Hev. reflexivity.
Qed.

Lemma stopped_snoc h ev : running h -> is_last ev = true -> stopped (h ++ [ev]).
Proof. intros Hh Hev. exists h, ev. auto. Qed.

Section Audit.

Variable urlparse : string -> ParseResult.

Abbreviation targeted := (AsyncInferenceAudit.targeted urlparse).
Abbreviation audited := (AsyncInferenceAudit.audited urlparse).
Abbreviation sound := (AsyncInferenceAudit.sound urlparse).
Abbreviation live := (AsyncInferenceAudit.live urlparse).
Abbreviation ended := (AsyncInferenceAudit.ended urlparse).
Abbreviation finished := (AsyncInferenceAudit.finished urlparse).
Abbreviation triple := (@Run.triple call val sound).

Lemma audited_snoc h ev :
  audited h -> targeted (knowledge h) (call_of ev) -> audited (h ++ [ev]).
Proof.
  intros Hh Hev pre ev' post H. apply snoc_split in H.
  destruct H as [(-> & -> & ->)|(post' & -> & ->)]; [exact Hev|].
  eapply Hh. reflexivity.
Qed.

Lemma sound_snoc h ev :
  audited h -> running h -> targeted (knowledge h) (call_of ev) -> sound (h ++ [ev]).
Proof.
  intros Ha Hr Hev. split; [apply audited_snoc; assumption|].
  destruct (is_last ev) eqn:E; [right; apply stopped_snoc|left; apply running_snoc]; assumption.
Qed.

Lemma live_sound K h : live K h -> sound h.
Proof. intros (Ha & Hr & _). split; auto. Qed.

Lemma ended_sound h : ended h -> sound h.
Proof. intros (Ha & Hs). split; auto. Qed.

(** A call that is not the deletion of the endpoint, outside any [try]. *)
Lemma audit_invoke (K : known -> Prop) (c : call) :
  (forall k, K k -> targeted k c) ->
  is_delete_endpoint c = false ->
  triple (live K) (Run.invoke c)
         (fun v => live (fun k' => exists k, K k /\ k' = learn k (existT _ c (inr v)))).
Proof.
  intros Ht Hc. apply triple_invoke.
  - intros h H. eapply live_sound; eauto.
  - intros h e (Ha & Hr & HK). apply sound_snoc; auto.
  - intros h v (Ha & Hr & HK).
    assert (Hs : audited (h ++ [existT _ c (inr v)])) by (apply audited_snoc; auto).
    assert (Hr' : running (h ++ [existT _ c (inr v)])).
    { apply running_snoc; [exact Hr|]. unfold is_last, fatal, failed, call_of. cbn.
      exact Hc. }
    split; [split; auto|]. split; [exact Hs|]. split; [exact Hr'|].
    rewrite knowledge_snoc. eauto.
Qed.

(** A call inside a [try]. *)
Lemma audit_try_call (K : known -> Prop) (c : call) :
  (forall k, K k -> targeted k c) ->
  triple (live K) (Run.try_call c)
         (fun x => if is_last (existT _ c x) then ended
                   else live (fun k' => exists k, K k /\ k' = learn k (existT _ c x))).
Proof.
  intros Ht. apply triple_try_call.
  - intros h H. eapply live_sound; eauto.
  - intros h x (Ha & Hr & HK).
    assert (Hs : audited (h ++ [existT _ c x])) by (apply audited_snoc; auto).
    split; [apply sound_snoc; auto|].
    destruct (is_last (existT _ c x)) eqn:E.
    + split; [exact Hs|apply stopped_snoc; assumption].
    + split; [exact Hs|]. split; [apply running_snoc; assumption|].
      rewrite knowledge_snoc. eauto.
Qed.

(** The last call of the notebook. *)
Lemma audit_delete (K : known -> Prop) (p : Predictor) :
  (forall k, K k -> targeted k (DeleteEndpoint p)) ->
  triple (live K) (Run.invoke (DeleteEndpoint p)) (fun _ => finished).
Proof.
  intros Ht. apply triple_invoke.
  - intros h H. eapply live_sound; eauto.
  - intros h e (Ha & Hr & HK). apply sound_snoc; auto.
  - intros h [] (Ha & Hr & HK).
    assert (Hs : audited (h ++ [existT _ (DeleteEndpoint p) (inr tt)]))
      by (apply audited_snoc; auto).
    split; [split; [exact Hs|right; apply stopped_snoc; [exact Hr|reflexivity]]|].
    split; [exact Hs|]. exists h, p. auto.
Qed.

Lemma audit_ret {R} (K : known -> Prop) (a : R) :
  triple (live K) (Ret a) (fun a' => live (fun k => K k /\ a' = a)).
Proof.
  intros W handle fuel w h0 H. cbn zeta. rewrite run_ret. cbn [trace out].
  rewrite app_nil_r. split; [eapply live_sound; eauto|].
  intros a' [= <-]. destruct H as (Ha & Hr & HK). repeat split; assumption.
Qed.

Lemma audit_raise {R} (e : exn) (Q : R -> list event -> Prop) :
  triple ended (Run.raise e : py R) Q.
Proof. apply triple_raise. intros h H. apply ended_sound, H. Qed.

Lemma audit_weaken {R} (K K' : known -> Prop) (t : py R) (Q : R -> known -> Prop)
      (Q' : R -> known -> Prop) :
  (forall k, K' k -> K k) ->
  triple (live K) t (fun a => live (Q a)) ->
  (forall a k, Q a k -> Q' a k) ->
  triple (live K') t (fun a => live (Q' a)).
Proof.
  intros HK Ht HQ. eapply triple_conseq; [|exact Ht|].
  - intros h (Ha & Hr & Hk). split; [exact Ha|]. split; [exact Hr|]. apply HK, Hk.
  - intros a h (Ha & Hr & Hk). split; [exact Ha|]. split; [exact Hr|]. apply HQ, Hk.
Qed.

Lemma audit_assoc {A B R} (P : list event -> Prop) (t : py A) (k1 : A -> py B)
      (k2 : B -> py R) (Q : R -> list event -> Prop) :
  triple P (ITree.bind t (fun a => ITree.bind (k1 a) k2)) Q ->
  triple P (ITree.bind (ITree.bind t k1) k2) Q.
Proof.
  intros H W handle fuel w h0 HP. cbn zeta. rewrite run_bind_bind.
  exact (H W handle fuel w h0 HP).
Qed.

Lemma audit_ret_bind {A R} (P : list event -> Prop) (a : A) (k : A -> py R)
      (Q : R -> list event -> Prop) :
  triple P (k a) Q -> triple P (ITree.bind (Ret a) k) Q.
Proof.
  intros H W handle fuel w h0 HP. cbn zeta. rewrite run_ret_bind.
  exact (H W handle fuel w h0 HP).
Qed.

Create HintDb audit.
#[local] Hint Resolve incl_nil_l incl_refl incl_appl in_or_app in_eq : audit.

(** Opening the facts of the precondition. *)
Ltac audit_side :=
  intros;
  repeat match goal with
         | H : exists _, _ |- _ => destruct H
         | H : _ /\ _ |- _ => destruct H
         | H : deployed _ _ _ _ |- _ => unfold deployed in H
         end;
  subst; cbn in *; unfold deployed; cbn; repeat split; eauto 10 with audit.

Ltac audit_open :=
  lazymatch goal with
  | |- Run.triple _ _ (@ITree.bind _ _ _ (@ITree.bind _ _ _ _ _) _) _ =>
      apply audit_assoc
  | |- Run.triple _ _ (@ITree.bind _ _ _ (Ret _) _) _ =>
      apply audit_ret_bind; cbn beta iota
  | |- Run.triple _ (AsyncInferenceAudit.live ?u ?K)
         (@ITree.bind _ _ _ (@Run.invoke _ _ ?c) ?k) _ =>
      refine (@triple_bind call val (AsyncInferenceAudit.sound u) _ _ _ _ _ _ _
                (@audit_invoke K c _ eq_refl) _); [audit_side|]
  | |- Run.triple _ (AsyncInferenceAudit.live ?u ?K)
         (@ITree.bind _ _ _ (@Run.try_call _ _ ?c) ?k) _ =>
      refine (@triple_bind call val (AsyncInferenceAudit.sound u) _ _ _ _ _ _ _
                (@audit_try_call K c _) _); [audit_side|]
  | |- Run.triple _ (AsyncInferenceAudit.live ?u ?K) (@Run.invoke _ _ ?c) _ =>
      refine (@audit_weaken _ K K _ _ _ (fun k H => H) (@audit_invoke K c _ eq_refl) _);
      audit_side
  | |- Run.triple _ (AsyncInferenceAudit.live ?u ?K) (Ret ?a) _ =>
      refine (@audit_weaken _ K K _ _ _ (fun k H => H) (@audit_ret _ K a) _);
      audit_side
  end.

Ltac audit_step :=
  audit_open;
  lazymatch goal with
  | |- forall _, Run.triple _ _ _ _ => intros ?
  | |- _ => idtac
  end.

Tactic Notation "audit_with" constr(lem) "as" ident(x) :=
  refine (@triple_bind call val _ _ _ _ _ _ _ _ lem _); intros x.

Tactic Notation "audit_with" constr(lem) :=
  refine (@triple_bind call val _ _ _ _ _ _ _ _ lem _); intros _.

Lemma shell_audit (K : known -> Prop) cmd :
  triple (live K) (shell cmd) (fun _ => live K).
Proof.
  unfold shell. audit_open. intros [e|[]]; cbn; audit_step.
Qed.

Lemma print_audit (K : known -> Prop) msg :
  triple (live K) (print msg) (fun _ => live K).
Proof. unfold print. audit_step. Qed.

(** The next step of a cell: a shell command, a print, or a call. *)
Ltac audit_next :=
  lazymatch goal with
  | |- Run.triple _ (AsyncInferenceAudit.live ?u ?K) (@ITree.bind _ _ _ (shell ?cmd) ?k) _ =>
      refine (@triple_bind call val (AsyncInferenceAudit.sound u) _ _ _ _ _ _ _
                (@shell_audit K cmd) _); intros _
  | |- Run.triple _ (AsyncInferenceAudit.live ?u ?K) (@ITree.bind _ _ _ (print ?msg) ?k) _ =>
      refine (@triple_bind call val (AsyncInferenceAudit.sound u) _ _ _ _ _ _ _
                (@print_audit K msg) _); intros _
  | |- Run.triple _ (AsyncInferenceAudit.live ?u ?K) (shell ?cmd) (fun _ => _ ?K) =>
      exact (@shell_audit K cmd)
  | |- Run.triple _ (AsyncInferenceAudit.live ?u ?K) (print ?msg) (fun _ => _ ?K) =>
      exact (@print_audit K msg)
  | |- _ => audit_step
  end.

Lemma upload_file_audit n p outs f :
  triple (live (deployed n p outs)) (upload_file f)
         (fun location => live (fun k => deployed n p outs k /\ uploaded k = Some location)).
Proof.
  unfold upload_file. cbn zeta. repeat audit_step.
Qed.

Lemma get_output_audit n p outs location :
  In location outs ->
  triple (live (deployed n p outs)) (get_output urlparse location)
         (fun _ => live (deployed n p outs)).
Proof.
  intros Hin. unfold get_output. cbn zeta.
  apply (@triple_iter call val sound unit string (poll (urlparse location))
           (fun _ => live (deployed n p outs)) (fun _ => live (deployed n p outs))).
  - intros i h H. eapply live_sound; eauto.
  - intros [].
    apply (@triple_conseq call val sound _ (live (deployed n p outs)) _ _
             (fun _ => live (deployed n p outs))); [auto| |intros [|] h H; exact H].
    unfold poll, print.
    refine (@triple_bind call val sound _ _ _ _ _ _ _
              (@audit_try_call (deployed n p outs) _ _) _).
    { intros k (_ & _ & Hk). exists location. split; [apply Hk, Hin|reflexivity]. }
    intros [[code| | | | |]|contents]; try apply audit_raise.
    + unfold is_last, fatal. cbn [failed survived projT2 call_of projT1 is_delete_endpoint andb].
      destruct (code =? NoSuchKey)%string; cbn [negb orb]; [|apply audit_raise].
      repeat audit_step.
    + cbn. audit_step.
Qed.

Lemma deployed_incl n p outs outs' k :
  incl outs' outs -> deployed n p outs k -> deployed n p outs' k.
Proof.
  intros Hincl (Hn & Hp & Hk). repeat split; try assumption.
  intros o Ho. apply Hk, Hincl, Ho.
Qed.

Lemma audit_relax {R} (K K' K'' : known -> Prop) (t : py R) :
  (forall k, K' k -> K k) ->
  triple (live K) t (fun _ => live K) ->
  (forall k, K k -> K'' k) ->
  triple (live K') t (fun _ => live K'').
Proof.
  intros H1 Ht H2. apply (@audit_weaken R K K' t (fun _ => K) (fun _ => K'')); auto.
Qed.

Lemma single_invocation_audit n p :
  triple (live (deployed n p [])) (single_invocation urlparse p)
         (fun _ => live (deployed n p [])).
Proof.
  unfold single_invocation. cbn zeta.
  audit_with (@upload_file_audit n p [] "input/test_point_0.libsvm") as input_1_s3_location.
  audit_step.
  refine (@triple_bind call val sound _ _ _ _ _ (fun _ => live (deployed n p [a])) _ _ _).
  - refine (@audit_relax _ _ _ _ _ _ (@get_output_audit n p [a] a (or_introl eq_refl))
              (fun k H => H)).
    audit_side. intros o [<-|[]]. auto with audit.
  - intros output.
    refine (@audit_relax _ _ _ _ _ (fun k H => H) (@print_audit _ _) _).
    intros k H. eapply deployed_incl; [|exact H]. apply incl_nil_l.
Qed.

Lemma request_audit n p i acc :
  triple (live (deployed n p (List.map snd acc))) (request p i acc)
         (fun acc' => live (deployed n p (List.map snd acc'))).
Proof.
  unfold request. cbn zeta.
  audit_with (@upload_file_audit n p (List.map snd acc) (input_file_of i))
    as input_file_s3_location.
  unfold print. repeat audit_step.
  rewrite map_app. cbn [List.map snd]. apply incl_app; [apply incl_appl; assumption|].
  apply incl_appr, incl_refl.
Qed.

Lemma invoke_many_audit n p :
  triple (live (deployed n p [])) (invoke_many p)
         (fun inferences => live (deployed n p (List.map snd inferences))).
Proof.
  unfold invoke_many.
  apply (@triple_for_each call val sound nat (list (string * string)) (request p)
           (fun _ acc => live (deployed n p (List.map snd acc)))
           (fun _ _ h H => live_sound H) (seq 0 25) [] []).
  intros pre x acc _. apply request_audit.
Qed.

Lemma report_audit n p outs inference acc :
  In (snd inference) outs ->
  triple (live (deployed n p outs)) (report urlparse inference acc)
         (fun _ => live (deployed n p outs)).
Proof.
  intros Hin. unfold report. destruct inference as [input_file output_location].
  audit_with (@get_output_audit n p outs output_location Hin) as output.
  apply print_audit.
Qed.

Lemma collect_audit n p inferences :
  triple (live (deployed n p (List.map snd inferences))) (collect urlparse inferences)
         (fun _ => live (deployed n p (List.map snd inferences))).
Proof.
  unfold collect.
  apply (@triple_for_each call val sound (string * string) unit (report urlparse)
           (fun _ _ => live (deployed n p (List.map snd inferences)))
           (fun _ _ h H => live_sound H) inferences [] tt).
  intros pre x acc [post Hpost]. apply report_audit.
  apply in_map. cbn [app] in Hpost. rewrite Hpost. apply in_or_app. right. left. reflexivity.
Qed.

Lemma multiple_invocations_audit n p :
  triple (live (deployed n p [])) (multiple_invocations urlparse p)
         (fun _ => live (deployed n p [])).
Proof.
  unfold multiple_invocations.
  audit_with (@invoke_many_audit n p) as inferences.
  refine (@audit_relax _ _ _ _ _ (fun k H => H) (@collect_audit n p inferences) _).
  intros k H. eapply deployed_incl; [|exact H]. apply incl_nil_l.
Qed.

Lemma clean_up_audit n p :
  triple (live (deployed n p [])) (clean_up (resource_id_of n) p) (fun _ => finished).
Proof.
  unfold clean_up. audit_step. apply audit_delete. audit_side.
Qed.

Lemma audit_pre {R} (K0 K : known -> Prop) (t : py R) (Q : R -> list event -> Prop) :
  (forall k, K k -> K0 k) ->
  triple (live K0) t Q -> triple (live K) t Q.
Proof.
  intros HK Ht. eapply triple_conseq; [|exact Ht|auto].
  intros h (Ha & Hr & Hk). split; [exact Ha|]. split; [exact Hr|]. apply HK, Hk.
Qed.

Lemma notebook_audit :
  triple (live (fun k => k = nothing)) (notebook urlparse) (fun _ => finished).
Proof.
  unfold notebook, install, download_inputs, role_and_bucket, upload_model, make_model,
    create_endpoint, setup_autoscaling.
  cbn zeta.
  repeat audit_next.
  lazymatch goal with
  | |- context [clean_up (String.append "endpoint/" (String.append ?n _)) ?p] =>
      apply (@audit_pre _ (deployed n p [])); [audit_side|];
      audit_with (@single_invocation_audit n p);
      audit_with (@multiple_invocations_audit n p);
      exact (@clean_up_audit n p)
  end.
Qed.

Lemma nothing_is_live : live (fun k => k = nothing) [].
Proof.
  split; [|split; reflexivity].
  intros pre ev post H. destruct pre; discriminate.
Qed.

Lemma running_split pre ev post : running (pre ++ ev :: post) -> is_last ev = false.
Proof.
  unfold running. rewrite forallb_app. cbn [forallb]. intros H.
  apply andb_prop in H. destruct H as [_ H]. apply andb_prop in H. destruct H as [H _].
  apply negb_true_iff, H.
Qed.

Lemma stopped_split h pre ev post :
  stopped h -> h = (pre ++ ev :: post)%list -> is_last ev = true ->
  post = [] /\ running pre.
Proof.
  intros (h' & ev' & -> & Hr & Hev') H Hev. apply snoc_split in H.
  destruct H as [(-> & -> & ->)|(post' & -> & ->)]; [auto|].
  apply running_split in Hr. congruence.
Qed.

End Audit.

(** X13: In every world and however far the run gets, each call of the
    notebook refers to what the calls before it returned: the image is
    retrieved for the region of the session; the uploads go to the bucket
    [default_bucket()] last answered; the model deployed has the uploaded
    model as its data, the retrieved image, the execution role, and a name
    made of the first timestamp, its outputs go to that bucket and the
    endpoint name is made of the second timestamp; the scalable target
    registered, given a policy and deregistered is that of the endpoint
    name given to [deploy]; every invocation and the final deletion use
    the predictor [deploy] returned; every invocation sends the location
    the last upload returned; and every read is of an output location an
    invocation returned. *)
Theorem notebook_calls_refer_to_earlier_answers :
  forall (urlparse : string -> ParseResult)
         (W : Type) (handle : forall c : call, W -> W * (exn + val c))
         (fuel : nat) (w : W) (pre post : list event) (ev : event),
    trace (Run.run handle fuel (notebook urlparse) w) = (pre ++ ev :: post)%list ->
    targeted urlparse (knowledge pre) (call_of ev).
Proof.
  intros urlparse W handle fuel w pre post ev Htrace.
  destruct (@notebook_audit urlparse W handle fuel w [] (nothing_is_live urlparse))
    as [[Ha _] _].
  exact (Ha pre ev post Htrace).
Qed.

Lemma notebook_calls_refer_to_earlier_answers_witness :
  let r := Run.run (poll_world refused) 2000 (notebook urlparse_s3) fresh in
  targeted urlparse_s3 (knowledge (removelast (trace r))) (call_of (last (trace r) (existT _ RegionName (inl IndexError)))).
Proof.
  intros r.
  apply (@notebook_calls_refer_to_earlier_answers urlparse_s3 polls (poll_world refused)
           2000 fresh (removelast (trace r)) [] (last (trace r) (existT _ RegionName (inl IndexError)))).
  apply app_removelast_last. vm_compute. discriminate.
Defined.

(** X14: The notebook stops at its first failure and cleans up only at
    the end: an event that is the failure of a call (other than a shell
    command, or a read answered by [NoSuchKey]) or the deletion of the
    endpoint is the last event of the run, no such event comes before it,
    and after such a failure the run does not end normally.  So a failure
    after the deployment leaves the endpoint undeleted. *)
Theorem notebook_stops_at_the_first_failure :
  forall (urlparse : string -> ParseResult)
         (W : Type) (handle : forall c : call, W -> W * (exn + val c))
         (fuel : nat) (w : W) (pre post : list event) (ev : event),
    let r := Run.run handle fuel (notebook urlparse) w in
    trace r = (pre ++ ev :: post)%list ->
    fatal ev || is_delete_endpoint (call_of ev) = true ->
    post = []
    /\ forallb (fun e => negb (fatal e || is_delete_endpoint (call_of e))) pre = true
    /\ (fatal ev = true -> forall a, out r <> Done a).
Proof.
  intros urlparse W handle fuel w pre post ev r Htrace Hev.
  destruct (@notebook_audit urlparse W handle fuel w [] (nothing_is_live urlparse))
    as [[_ Hs] Hdone].
  cbn [app] in Hs, Hdone. fold r in Hs, Hdone.
  assert (Hpost : post = [] /\ running pre).
  { destruct Hs as [Hr|Hs].
    - rewrite Htrace in Hr. apply running_split in Hr. unfold is_last in Hr. congruence.
    - exact (@stopped_split (trace r) pre ev post Hs Htrace Hev). }
  destruct Hpost as [-> Hpre]. split; [reflexivity|]. split; [exact Hpre|].
  intros Hfatal a Ha.
  destruct (Hdone a Ha) as (_ & h' & p & Hh & Hr).
  rewrite Htrace in Hh. apply app_inj_tail in Hh. destruct Hh as [_ ->].
  discriminate Hfatal.
Qed.

Lemma notebook_stops_at_the_first_failure_witness :
  let r := Run.run (poll_world refused) 2000 (notebook urlparse_s3) fresh in
  forallb (fun e => negb (fatal e || is_delete_endpoint (call_of e)))
          (removelast (trace r)) = true.
Proof.
  intros r.
  refine (proj1 (proj2 (@notebook_stops_at_the_first_failure urlparse_s3 polls
                          (poll_world refused) 2000 fresh (removelast (trace r)) []
                          (last (trace r) (existT _ RegionName (inl IndexError))) _ _))).
  - apply app_removelast_last. vm_compute. discriminate.
  - vm_compute. reflexivity.
Defined.

End AsyncInferenceAuditFacts.

(* ===================================================================== *)
(** * Asynchronous inference notebook: running to the end                 *)
(* ===================================================================== *)

Module AsyncInferenceCompletionFacts.
Import Py Run RunFacts AsyncInference AsyncInferenceAudit AsyncInferenceCompletion.
Import AsyncInferenceFacts AsyncInferenceAuditFacts.

Section Completion.

Variable urlparse : string -> ParseResult.
Variable e : env.

Abbreviation run := (Run.run (poll_world e)).
Abbreviation completes := (AsyncInferenceCompletion.completes e).

Lemma completes_ret {R} (a : R) w : completes (Ret a) w a w.
Proof. exists 0. intros k. cbn [plus]. rewrite run_ret. auto. Qed.

Lemma completes_bind {A R} (t : py A) (k : A -> py R) w a w1 b w2 :
  completes t w a w1 -> completes (k a) w1 b w2 ->
  completes (ITree.bind t k) w b w2.
Proof.
  intros [f1 H1] [f2 H2]. exists (f1 + f2). intros j. cbn zeta.
  rewrite run_bind, <- Nat.add_assoc. destruct (H1 (f2 + j)) as (Ho & Hf & Hl).
  unfold Run.then_run. rewrite Ho, Hf, Hl. cbn [out final left]. apply H2.
Qed.

Lemma completes_invoke (c : call) w :
  is_read c = false -> completes (Run.invoke c) w (reply e c) w.
Proof.
  intros Hc. exists 1. intros k. cbn [plus]. cbn zeta. rewrite run_invoke.
  destruct c; try discriminate Hc; cbn; auto.
Qed.

Lemma completes_shell cmd w : completes (shell cmd) w tt w.
Proof.
  exists 1. intros k. cbn [plus]. cbn zeta. unfold shell.
  rewrite run_try_call_then. cbn. rewrite run_ret. auto.
Qed.

Lemma completes_print msg w : completes (print msg) w tt w.
Proof.
  unfold print. destruct (reply e (Print msg)) eqn:E.
  rewrite <- E. exact (@completes_invoke (Print msg) w eq_refl).
Qed.

Lemma completes_get_output loc s n contents :
  (forall j, j < n -> read_outcome e s j = inl (ClientError NoSuchKey)) ->
  read_outcome e s n = inr contents ->
  completes (get_output urlparse loc) {| session := s; attempt := 0 |} contents
            {| session := S s; attempt := 0 |}.
Proof.
  intros Hretry Hlast. exists (4 * n + 1). intros k. cbn zeta.
  rewrite (@get_output_run urlparse e loc s n 0 (4 * n + 1 + k)).
  - cbn [plus]. rewrite Hlast. cbn [out final left settle].
    split; [reflexivity|]. split; [reflexivity|]. lia.
  - exact Hretry.
  - cbn [plus]. rewrite Hlast. reflexivity.
  - lia.
Qed.

(** The next call of a program that completes. *)
Ltac completes_step :=
  lazymatch goal with
  | |- AsyncInferenceCompletion.completes _ (@ITree.bind _ _ _ (@Run.invoke _ _ ?c) ?k) ?w _ _ =>
      refine (@completes_bind _ _ _ _ _ _ _ _ _ (@completes_invoke c w eq_refl) _)
  | |- AsyncInferenceCompletion.completes _ (@ITree.bind _ _ _ (shell ?cmd) ?k) ?w _ _ =>
      refine (@completes_bind _ _ _ _ _ _ _ _ _ (@completes_shell cmd w) _)
  | |- AsyncInferenceCompletion.completes _ (@ITree.bind _ _ _ (print ?msg) ?k) ?w _ _ =>
      refine (@completes_bind _ _ _ _ _ _ _ _ _ (@completes_print msg w) _)
  | |- AsyncInferenceCompletion.completes _ (@Run.invoke _ _ ?c) ?w _ _ =>
      exact (@completes_invoke c w eq_refl)
  | |- AsyncInferenceCompletion.completes _ (shell ?cmd) ?w _ _ =>
      exact (@completes_shell cmd w)
  | |- AsyncInferenceCompletion.completes _ (print ?msg) ?w _ _ =>
      exact (@completes_print msg w)
  | |- AsyncInferenceCompletion.completes _ (Ret ?a) ?w _ _ =>
      exact (@completes_ret _ a w)
  end.

Lemma completes_upload_file f w :
  completes (upload_file f) w
    (reply e (UploadData f (reply e DefaultBucket) (bucket_prefix ++ "/input") "text/libsvm")) w.
Proof. unfold upload_file. cbn zeta. repeat completes_step. Qed.

Lemma completes_request p i acc w :
  completes (request p i acc) w (acc ++ [inference_of e p i])%list w.
Proof.
  unfold request. cbn zeta.
  refine (@completes_bind _ _ _ _ _ _ _ _ _ (@completes_upload_file (input_file_of i) w) _).
  repeat completes_step.
Qed.

Lemma completes_requests p xs : forall acc w,
  completes (for_each xs (request p) acc) w (acc ++ List.map (inference_of e p) xs)%list w.
Proof.
  induction xs as [|x xs IH]; intros acc w; cbn [for_each List.map].
  - rewrite app_nil_r. apply completes_ret.
  - refine (@completes_bind _ _ _ _ _ _ _ _ _ (@completes_request p x acc w) _).
    replace (acc ++ inference_of e p x :: List.map (inference_of e p) xs)%list
      with ((acc ++ [inference_of e p x]) ++ List.map (inference_of e p) xs)%list
      by (rewrite <- app_assoc; reflexivity).
    apply IH.
Qed.

Lemma completes_collect infs retries s :
  length retries = length infs ->
  (forall i n, nth_error retries i = Some n ->
     (forall j, j < n -> read_outcome e (s + i) j = inl (ClientError NoSuchKey))
     /\ exists contents, read_outcome e (s + i) n = inr contents) ->
  completes (collect urlparse infs) {| session := s; attempt := 0 |} tt
            {| session := s + length infs; attempt := 0 |}.
Proof.
  intros Hlen Havail. exists (collect_fuel retries). intros k. cbn zeta.
  destruct (@collect_run urlparse e infs retries s (collect_fuel retries + k) Hlen Havail)
    as (Hout & Hfinal & _ & Hleft); [lia|].
  split; [exact Hout|]. split; [exact Hfinal|]. rewrite Hleft. lia.
Qed.

Lemma completes_install w : completes install w tt w.
Proof. unfold install. repeat completes_step. Qed.

Lemma completes_download_inputs w : completes download_inputs w tt w.
Proof. unfold download_inputs. repeat completes_step. Qed.

Lemma completes_role_and_bucket w :
  completes role_and_bucket w (reply e GetExecutionRole, reply e DefaultBucket) w.
Proof. unfold role_and_bucket. repeat completes_step. Qed.

Lemma completes_upload_model s3_bucket w :
  completes (upload_model s3_bucket) w
    ("s3://" ++ s3_bucket ++ "/" ++ bucket_prefix ++ "/demo-xgboost-model.tar.gz") w.
Proof. unfold upload_model. cbn zeta. repeat completes_step. Qed.

Lemma completes_make_model container model_url sm_role w :
  exists m, completes (make_model container model_url sm_role) w m w.
Proof. unfold make_model. eexists. repeat completes_step. Qed.

Lemma completes_create_endpoint m cfg w :
  exists d, completes (create_endpoint m cfg) w d w.
Proof. unfold create_endpoint. eexists. repeat completes_step. Qed.

Lemma completes_setup_autoscaling n w :
  exists resource_id, completes (setup_autoscaling n) w resource_id w.
Proof. unfold setup_autoscaling. cbn zeta. eexists. repeat completes_step. Qed.

Lemma completes_single_invocation p s n contents :
  (forall j, j < n -> read_outcome e s j = inl (ClientError NoSuchKey)) ->
  read_outcome e s n = inr contents ->
  completes (single_invocation urlparse p) {| session := s; attempt := 0 |} tt
            {| session := S s; attempt := 0 |}.
Proof.
  intros Hretry Hlast. unfold single_invocation. cbn zeta.
  refine (@completes_bind _ _ _ _ _ _ _ _ _ (@completes_upload_file _ _) _).
  completes_step.
  refine (@completes_bind _ _ _ _ _ _ _ _ _
            (@completes_get_output _ s n contents Hretry Hlast) _).
  completes_step.
Qed.

Lemma completes_clean_up resource_id p w : completes (clean_up resource_id p) w tt w.
Proof.
  unfold clean_up. completes_step.
  destruct (reply e (DeleteEndpoint p)) eqn:E. rewrite <- E. completes_step.
Qed.

Lemma completes_notebook (retries : nat -> nat) :
  (forall s, s < 26 ->
     (forall j, j < retries s -> read_outcome e s j = inl (ClientError NoSuchKey))
     /\ exists contents, read_outcome e s (retries s) = inr contents) ->
  completes (notebook urlparse) fresh tt {| session := 26; attempt := 0 |}.
Proof.
  intros Havail. unfold notebook.
  refine (@completes_bind _ _ _ _ _ _ _ _ _ (@completes_install _) _).
  completes_step.
  refine (@completes_bind _ _ _ _ _ _ _ _ _ (@completes_download_inputs _) _).
  refine (@completes_bind _ _ _ _ _ _ _ _ _ (@completes_role_and_bucket _) _).
  refine (@completes_bind _ _ _ _ _ _ _ _ _ (@completes_upload_model _ _) _).
  completes_step.
  match goal with |- context [make_model ?c ?u ?r] =>
    destruct (@completes_make_model c u r fresh) as [m Hm] end.
  refine (@completes_bind _ _ _ _ _ _ _ _ _ Hm _).
  match goal with |- context [create_endpoint ?m ?cfg] =>
    destruct (@completes_create_endpoint m cfg fresh) as [[endpoint_name p] Hd] end.
  refine (@completes_bind _ _ _ _ _ _ _ _ _ Hd _).
  destruct (@completes_setup_autoscaling endpoint_name fresh) as [resource_id Hr].
  refine (@completes_bind _ _ _ _ _ _ _ _ _ Hr _).
  destruct (Havail 0 ltac:(lia)) as [Hretry [contents Hlast]].
  refine (@completes_bind _ _ _ _ _ _ _ _ _
            (@completes_single_invocation p 0 (retries 0) contents Hretry Hlast) _).
  unfold multiple_invocations, invoke_many.
  refine (@completes_bind _ _ _ (fun _ => clean_up resource_id p) _ tt _ _ _ _
            (@completes_clean_up resource_id p _)).
  refine (@completes_bind _ _ _ _ _ _ _ _ _ (@completes_requests p (seq 0 25) [] _) _).
  cbn [app].
  apply (@completes_collect (List.map (inference_of e p) (seq 0 25))
           (List.map retries (seq 1 25)) 1).
  - rewrite !length_map. reflexivity.
  - intros i n Hi. rewrite nth_error_map in Hi.
    destruct (nth_error (seq 1 25) i) as [s|] eqn:Hs; [|discriminate].
    injection Hi as <-.
    rewrite nth_error_seq in Hs.
    destruct (i <? 25) eqn:E; [|discriminate]. injection Hs as <-.
    apply Nat.ltb_lt in E. apply Havail. lia.
Qed.

End Completion.

(** X15: In a polling world where each of the 26 outputs is there after
    finitely many reads answered by [NoSuchKey], and every other call
    succeeds, the notebook runs to its end: with enough fuel it returns,
    all 26 polling sessions have ended, and the last event of the run is
    the successful deletion of the endpoint. *)
Theorem notebook_completes_when_outputs_arrive :
  forall (urlparse : string -> ParseResult) (e : env) (retries : nat -> nat),
    (forall s, s < 26 ->
       (forall j, j < retries s -> read_outcome e s j = inl (ClientError NoSuchKey))
       /\ exists contents, read_outcome e s (retries s) = inr contents) ->
    exists fuel,
      let r := Run.run (poll_world e) fuel (notebook urlparse) fresh in
      out r = Done tt
      /\ final r = {| session := 26; attempt := 0 |}
      /\ exists h' p, trace r = (h' ++ [existT _ (DeleteEndpoint p) (inr tt)])%list.
Proof.
  intros urlparse e retries Havail.
  destruct (@completes_notebook urlparse e retries Havail) as [f Hf].
  exists (f + 0). cbn zeta. destruct (Hf 0) as (Hout & Hfinal & _).
  split; [exact Hout|]. split; [exact Hfinal|].
  destruct (@notebook_audit urlparse polls (poll_world e) (f + 0) fresh []
              (nothing_is_live urlparse)) as [_ Hdone].
  destruct (Hdone tt Hout) as (_ & h' & p & Hh & _).
  exists h', p. exact Hh.
Qed.

Lemma notebook_completes_when_outputs_arrive_witness :
  exists fuel,
    let r := Run.run (poll_world third_read) fuel (notebook urlparse_s3) fresh in
    out r = Done tt
    /\ final r = {| session := 26; attempt := 0 |}
    /\ exists h' p, trace r = (h' ++ [existT _ (DeleteEndpoint p) (inr tt)])%list.
Proof.
  apply (@notebook_completes_when_outputs_arrive urlparse_s3 third_read (fun _ => 2)).
  intros s _. split.
  - intros [|[|j]] Hj; [reflexivity|reflexivity|lia].
  - exists "0.9". reflexivity.
Defined.

End AsyncInferenceCompletionFacts.

(* ===================================================================== *)
(** * Asynchronous inference: the multiple-invocation cell                 *)
(* ===================================================================== *)

Module AsyncInferenceCellFacts.
Import Py Run RunFacts AsyncInference AsyncInferenceCompletion.
Import AsyncInferenceFacts AsyncInferenceCompletionFacts.

Arguments slice_from : simpl never.

Section AnyWorld.

Variable urlparse : string -> ParseResult.
Variable W : Type.
Variable handle : forall c : call, W -> W * (exn + val c).

Abbreviation run := (Run.run handle).
Abbreviation read_of := (AsyncInference.read_of urlparse).

(** One turn of the polling loop reads the location once and invokes
    nothing. *)
Lemma poll_reads loc fuel w lr :
  let r := run fuel (poll (urlparse loc) tt) w in
  out r = Done lr ->
  filter is_read (calls r) = [read_of loc] /\ pick predicted (trace r) = [].
Proof.
  cbn zeta. unfold poll, print, calls.
  exec_call; cbn [out after_event trace]; [discriminate|].
  destruct x as [[code| | | | |]|contents]; try (rewrite run_raise; discriminate).
  - destruct (code =? NoSuchKey)%string; [|rewrite run_raise; discriminate].
    repeat (exec_norm; exec_call; cbn [out after_event trace]; try discriminate).
    exec_norm. cbn [out trace]. intros _. split; reflexivity.
  - rewrite run_ret. cbn [out trace]. intros _. split; reflexivity.
Qed.

(** A polling loop that returns has read its location, and nothing else,
    once or more. *)
Lemma get_output_reads loc : forall fuel w contents,
  let r := run fuel (get_output urlparse loc) w in
  out r = Done contents ->
  (exists k, filter is_read (calls r) = repeat (read_of loc) (S k))
  /\ pick predicted (trace r) = [].
Proof.
  intros fuel. induction fuel as [fuel IH] using lt_wf_ind. intros w contents. cbn zeta.
  unfold get_output. cbn zeta. rewrite run_iter, run_bind. unfold Run.then_run.
  pose proof (run_left_le handle fuel (poll (urlparse loc) tt) w) as Hle.
  destruct (out (run fuel (poll (urlparse loc) tt) w)) as [lr|ex|] eqn:Hpoll;
    cbn [out trace]; try discriminate.
  destruct (@poll_reads loc fuel w lr Hpoll) as [Hreads Hnone].
  unfold calls in *. cbn [trace].
  rewrite map_app, filter_app, pick_app, Hreads, Hnone.
  destruct lr as [[]|contents'].
  - destruct (left (run fuel (poll (urlparse loc) tt) w)) as [|f] eqn:Hl; [discriminate|].
    rewrite run_tau. intros Hdone.
    destruct (IH f ltac:(lia) _ _ Hdone) as [[k Hk] Hp].
    unfold get_output in Hk, Hp. cbn zeta in Hk, Hp. unfold calls in Hk.
    rewrite Hk, Hp. split; [exists (S k)|]; reflexivity.
  - rewrite run_ret. cbn [out trace]. intros _. split; [exists 0|]; reflexivity.
Qed.

Lemma report_reads inference acc fuel w :
  let r := run fuel (report urlparse inference acc) w in
  out r = Done tt ->
  (exists k, filter is_read (calls r) = repeat (read_of (snd inference)) (S k))
  /\ pick predicted (trace r) = [].
Proof.
  cbn zeta. destruct inference as [input_file loc]. unfold report, print.
  rewrite run_bind. unfold Run.then_run.
  destruct (out (run fuel (get_output urlparse loc) w)) as [contents|ex|] eqn:Hget;
    cbn [out trace]; try discriminate.
  destruct (@get_output_reads loc fuel w contents Hget) as [[k Hk] Hp].
  unfold calls in *. cbn [trace snd]. rewrite map_app, filter_app, pick_app, Hk, Hp.
  exec_call; cbn [out trace]; try discriminate.
  intros _. split; [exists k; apply app_nil_r|reflexivity].
Qed.

(** The result loop that returns has read the locations of its list in
    the order of the list, each once or more, and invoked nothing. *)
Lemma collect_reads inferences : forall fuel w,
  let r := run fuel (collect urlparse inferences) w in
  out r = Done tt ->
  (exists counts,
      length counts = length inferences
      /\ filter is_read (calls r) = expected_reads urlparse inferences counts)
  /\ pick predicted (trace r) = [].
Proof.
  unfold collect. induction inferences as [|inference inferences IH]; intros fuel w; cbn zeta.
  - cbn [for_each]. rewrite run_ret. intros _. split; [exists []; split|]; reflexivity.
  - cbn [for_each]. rewrite run_bind. unfold Run.then_run.
    destruct (out (run fuel (report urlparse inference tt) w)) as [[]|ex|] eqn:Hrep;
      cbn [out trace]; try discriminate.
    destruct (@report_reads inference tt fuel w Hrep) as [[k Hk] Hp].
    intros Hrest. destruct (IH _ _ Hrest) as [(counts & Hlen & Hreads) Hp'].
    unfold calls in *. cbn [trace]. rewrite map_app, filter_app, pick_app, Hk, Hp, Hreads, Hp'.
    split; [|reflexivity]. exists (k :: counts).
    split; [cbn; rewrite Hlen; reflexivity|]. destruct inference. reflexivity.
Qed.

Lemma request_reads p i acc fuel w infs :
  out (run fuel (request p i acc) w) = Done infs ->
  filter is_read (calls (run fuel (request p i acc) w)) = [].
Proof.
  unfold request, upload_file, print, calls. cbn zeta.
  repeat (exec_norm; exec_call; cbn [out after_event trace]; try discriminate).
  exec_norm. cbn [out after_event trace]. intros _. reflexivity.
Qed.

Lemma requests_reads p xs : forall acc fuel w infs,
  out (run fuel (for_each xs (request p) acc) w) = Done infs ->
  filter is_read (calls (run fuel (for_each xs (request p) acc) w)) = [].
Proof.
  induction xs as [|x xs IH]; intros acc fuel w infs.
  - cbn [for_each]. rewrite run_ret. reflexivity.
  - cbn [for_each]. rewrite run_bind. unfold Run.then_run.
    destruct (out (run fuel (request p x acc) w)) as [acc'|ex|] eqn:Hreq; cbn [out trace];
      try discriminate.
    intros Hrest.
    pose proof (request_reads _ _ _ _ _ Hreq) as H1. pose proof (IH _ _ _ _ Hrest) as H2.
    unfold calls in *. cbn [trace]. rewrite map_app, filter_app, H1, H2. reflexivity.
Qed.

(** The cell, in any world in which it returns. *)
Lemma multiple_invocations_run p fuel w :
  let r := run fuel (multiple_invocations urlparse p) w in
  out r = Done tt ->
  let outputs := pick predicted (trace r) in
  exists inferences counts,
    out (run fuel (invoke_many p) w) = Done inferences
    /\ trace r = (trace (run fuel (invoke_many p) w)
                  ++ trace (run (left (run fuel (invoke_many p) w)) (collect urlparse inferences)
                                (final (run fuel (invoke_many p) w))))%list
    /\ length inferences = 25 /\ length outputs = 25
    /\ inferences = combine (List.map input_file_of (seq 0 25)) outputs
    /\ length counts = 25
    /\ filter is_read (calls r) = expected_reads urlparse inferences counts.
Proof.
  cbn zeta. unfold multiple_invocations. rewrite run_bind. unfold Run.then_run.
  destruct (out (run fuel (invoke_many p) w)) as [inferences|ex|] eqn:Hreq;
    cbn [out trace]; try discriminate.
  intros Hcoll.
  destruct (@requests_run W handle p (seq 0 25) [] fuel w inferences Hreq) as [Hinfs Hlen].
  pose proof (requests_reads _ _ _ _ _ Hreq) as Hnoread.
  destruct (collect_reads _ _ _ Hcoll) as [(counts & Hcounts & Hreads) Hnone].
  fold (invoke_many p) in Hinfs, Hlen, Hnoread.
  cbn [app] in Hinfs. rewrite length_seq in Hlen.
  assert (Hlen' : length inferences = 25).
  { rewrite Hinfs, length_combine, length_map, length_seq, Hlen. reflexivity. }
  exists inferences, counts. unfold calls in *. cbn [trace].
  rewrite pick_app, Hnone, app_nil_r, map_app, filter_app, Hnoread, Hreads.
  repeat split; try assumption; try reflexivity. congruence.
Qed.

End AnyWorld.


(** C5: in any world, a run of the multiple-invocation cell that returns
    has built, in its request loop, a list of exactly 25 pairs, the [i]-th
    being ["input/test_point_{i}.libsvm"] with the output location the
    [i]-th [predict_async] of the run returned; and its result loop has
    read the output locations of that list in the order of the list, each
    once or more, and nothing else.  In a polling world where the output
    of the [i]-th request is there after [retries i] reads answered by
    [NoSuchKey], and every other call succeeds, the cell does return, and
    has read the [i]-th location [retries i + 1] times. *)
Theorem multiple_invocations_in_order :
  forall (urlparse : string -> ParseResult) (p : Predictor),
    (forall (W : Type) (handle : forall c : call, W -> W * (exn + val c))
            (fuel : nat) (w : W),
        let r := Run.run handle fuel (multiple_invocations urlparse p) w in
        out r = Done tt ->
        let outputs := pick predicted (trace r) in
        exists (inferences : list (string * string)) (counts : list nat),
          out (Run.run handle fuel (invoke_many p) w) = Done inferences
          /\ length inferences = 25 /\ length outputs = 25 /\ length counts = 25
          /\ (forall i, i < 25 ->
                nth i inferences ("", "")
                = ("input/test_point_" ++ str_of_nat i ++ ".libsvm", nth i outputs ""))
          /\ filter is_read (calls r)
             = flat_map (fun x : (string * string) * nat =>
                           repeat (ReadS3File (netloc (urlparse (snd (fst x))))
                                     (slice_from 1 (path (urlparse (snd (fst x))))))
                                  (S (snd x)))
                        (combine inferences counts))
    /\ (forall (e : env) (retries : list nat) (s : nat),
        length retries = 25 ->
        (forall i n, nth_error retries i = Some n ->
           (forall j, j < n -> read_outcome e (s + i) j = inl (ClientError NoSuchKey))
           /\ exists contents, read_outcome e (s + i) n = inr contents) ->
        exists fuel,
          let r := Run.run (poll_world e) fuel (multiple_invocations urlparse p)
                           {| session := s; attempt := 0 |} in
          let outputs := pick predicted (trace r) in
          let inferences := combine (List.map input_file_of (seq 0 25)) outputs in
          out r = Done tt
          /\ out (Run.run (poll_world e) fuel (invoke_many p) {| session := s; attempt := 0 |})
             = Done inferences
          /\ length outputs = 25
          /\ filter is_read (calls r)
             = flat_map (fun x : (string * string) * nat =>
                           repeat (ReadS3File (netloc (urlparse (snd (fst x))))
                                     (slice_from 1 (path (urlparse (snd (fst x))))))
                                  (S (snd x)))
                        (combine inferences retries)).
Proof.
  intros urlparse p. split.
  - intros W handle fuel w r Hdone outputs.
    destruct (@multiple_invocations_run urlparse W handle p fuel w Hdone)
      as (inferences & counts & Hreq & _ & Hlen & Hout & Hinfs & Hcounts & Hreads).
    fold r in Hout, Hinfs, Hreads. fold outputs in Hout, Hinfs.
    exists inferences, counts.
    split; [exact Hreq|]. split; [exact Hlen|]. split; [exact Hout|]. split; [exact Hcounts|].
    split; [|exact Hreads].
    intros i Hi. rewrite Hinfs at 1.
    rewrite combine_nth by (rewrite length_map, length_seq, Hout; reflexivity).
    f_equal.
    rewrite (nth_indep _ "" (input_file_of 0))
      by (rewrite length_map, length_seq; exact Hi).
    rewrite map_nth, seq_nth by exact Hi. reflexivity.
  - intros e retries s Hlen Havail.
    set (w := {| session := s; attempt := 0 |}).
    destruct (@completes_requests e p (seq 0 25) [] w) as [f1 Hf1].
    cbn [app] in Hf1. fold (invoke_many p) in Hf1.
    exists (f1 + collect_fuel retries). cbn zeta.
    destruct (Hf1 (collect_fuel retries)) as (Hreq & Hfinal & Hleft).
    set (infs := List.map (inference_of e p) (seq 0 25)) in *.
    destruct (@collect_run urlparse e infs retries s (collect_fuel retries))
      as (Hcoll & _ & Hreads & _).
    { rewrite Hlen. unfold infs. rewrite length_map, length_seq. reflexivity. }
    { exact Havail. }
    { apply le_n. }
    assert (Hdone : out (Run.run (poll_world e) (f1 + collect_fuel retries)
                           (multiple_invocations urlparse p) w) = Done tt).
    { unfold multiple_invocations. rewrite run_bind. unfold Run.then_run.
      rewrite Hreq, Hfinal, Hleft. cbn [out]. exact Hcoll. }
    destruct (@multiple_invocations_run urlparse polls (poll_world e) p _ w Hdone)
      as (inferences & counts & Hreq' & Htrace & _ & Hout & Hinfs & _ & _).
    rewrite Hreq in Hreq'. injection Hreq' as <-.
    split; [exact Hdone|]. split; [rewrite <- Hinfs; exact Hreq|]. split; [exact Hout|].
    rewrite <- Hinfs. unfold calls. rewrite Htrace, Hfinal, Hleft, map_app, filter_app.
    pose proof (requests_reads (poll_world e) _ _ _ _ _ Hreq) as Hnoread.
    unfold calls in Hnoread, Hreads. fold (invoke_many p) in Hnoread.
    rewrite Hnoread. exact Hreads.
Qed.

Lemma multiple_invocations_in_order_witness :
  exists fuel,
    let r := Run.run (poll_world third_read) fuel
                     (multiple_invocations urlparse_s3 {| endpoint := "ep" |}) fresh in
    let outputs := pick predicted (trace r) in
    let inferences := combine (List.map input_file_of (seq 0 25)) outputs in
    out r = Done tt
    /\ length outputs = 25
    /\ filter is_read (calls r)
       = flat_map (fun x : (string * string) * nat =>
                     repeat (ReadS3File (netloc (urlparse_s3 (snd (fst x))))
                               (slice_from 1 (path (urlparse_s3 (snd (fst x))))))
                            (S (snd x)))
                  (combine inferences (repeat 2 25)).
Proof.
  destruct (proj2 (multiple_invocations_in_order urlparse_s3 {| endpoint := "ep" |})
              third_read (repeat 2 25) 0 eq_refl) as [fuel (Hdone & _ & Hlen & Hreads)].
  - intros i n Hi. apply nth_error_In, repeat_spec in Hi. subst n. split.
    + intros [|[|j]] Hj; [reflexivity|reflexivity|lia].
    + exists "0.9". reflexivity.
  - exists fuel. split; [exact Hdone|]. split; [exact Hlen|exact Hreads].
Defined.

End AsyncInferenceCellFacts.

(* ===================================================================== *)
(** * Batch transform: the characters written and read                    *)
(* ===================================================================== *)

Module BatchTransformTextFacts.
Import Py BatchTransform BatchTransformText BatchTransformFacts.

Lemma all_chars_append p a b : all_chars p (a ++ b) = all_chars p a && all_chars p b.
Proof.
  induction a as [|c a IH]; cbn; [reflexivity|]. rewrite IH, andb_assoc. reflexivity.
Qed.

Lemma escape_char_plain c :
  Ascii.eqb c "@" = false -> all_chars plain (escape_char c) = true.
Proof.
  destruct c as [[] [] [] [] [] [] [] []]; intros H; try reflexivity; discriminate H.
Qed.

Lemma escape_plain s : occurs "@" s = false -> all_chars plain (escape s) = true.
Proof.
  induction s as [|c s IH]; [reflexivity|]. cbn [occurs escape]. intros H.
  apply orb_false_elim in H. destruct H as [Hc Hs].
  rewrite all_chars_append, (escape_char_plain _ Hc), (IH Hs). reflexivity.
Qed.

Lemma object_line_plain tweet : all_chars plain (json_dumps (object_of tweet)) = true.
Proof.
  unfold json_dumps, object_of, encode_item, encode_string.
  cbn [List.map String.concat fst snd]. rewrite !all_chars_append.
  rewrite (escape_plain _ (remove_char_removes "@" tweet)). reflexivity.
Qed.

Lemma lines_text_plain (ls : list string) :
  Forall (fun l => all_chars plain l = true) ls -> all_chars plain (lines_text ls) = true.
Proof.
  induction 1 as [|l ls Hl _ IH]; [reflexivity|].
  cbn [lines_text]. rewrite !all_chars_append, Hl, IH. reflexivity.
Qed.

Lemma plain_is_not_at s : all_chars plain s = true -> occurs "@" s = false.
Proof.
  induction s as [|c s IH]; [reflexivity|]. cbn [all_chars occurs]. intros H.
  apply andb_prop in H. destruct H as [Hc Hs]. rewrite (IH Hs), orb_false_r.
  destruct (Ascii.eqb c "@") eqn:E; [|reflexivity].
  apply Ascii.eqb_eq in E. subst c. discriminate Hc.
Qed.

(** X16: Whatever the tweets, the file the preprocessing cell writes is
    made of printable ASCII characters and line feeds only, and holds no
    ['@']: every other character of a tweet is written as an escape. *)
Theorem preprocessing_writes_plain_ascii :
  forall tweet_text : list string,
    let written := outfile (preprocess tweet_text) in
    all_chars plain written = true /\ occurs "@" written = false.
Proof.
  intros tweet_text written.
  assert (H : all_chars plain written = true).
  { unfold written, preprocess. rewrite preprocess_rows. cbn [outfile String.append].
    apply lines_text_plain, Forall_forall. intros l Hl. apply in_map_iff in Hl.
    destruct Hl as [t [<- _]]. apply object_line_plain. }
  split; [exact H|apply plain_is_not_at, H].
Qed.

Lemma count_char_append x a b : count_char x (a ++ b) = count_char x a + count_char x b.
Proof.
  induction a as [|c a IH]; cbn; [reflexivity|]. rewrite IH. lia.
Qed.

Lemma no_bracket_left line :
  count_char "[" (map_chars bracket_char line) = 0
  /\ count_char "]" (map_chars bracket_char line) = 0.
Proof.
  induction line as [|c line [IH1 IH2]]; [split; reflexivity|].
  cbn [map_chars]. rewrite !count_char_append, IH1, IH2. unfold bracket_char.
  destruct (Ascii.eqb c "[") eqn:E1; [split; reflexivity|].
  destruct (Ascii.eqb c "]") eqn:E2; [split; reflexivity|].
  cbn. rewrite E1, E2. split; reflexivity.
Qed.

Lemma commas_added line :
  count_char "," (map_chars bracket_char line) = count_char "," line + count_char "]" line.
Proof.
  induction line as [|c line IH]; [reflexivity|].
  cbn [map_chars count_char]. rewrite count_char_append, IH. unfold bracket_char.
  destruct (Ascii.eqb c "[") eqn:E1.
  { apply Ascii.eqb_eq in E1. subst c. reflexivity. }
  destruct (Ascii.eqb c "]") eqn:E2.
  { apply Ascii.eqb_eq in E2. subst c. cbn. lia. }
  cbn. destruct (Ascii.eqb c ","); lia.
Qed.

Lemma map_chars_plain s :
  count_char "[" s = 0 -> count_char "]" s = 0 -> map_chars bracket_char s = s.
Proof.
  induction s as [|c s IH]; [reflexivity|]. cbn [count_char map_chars].
  unfold bracket_char at 1.
  destruct (Ascii.eqb c "["); [discriminate|]. destruct (Ascii.eqb c "]"); [discriminate|].
  cbn. intros H1 H2. rewrite (IH H1 H2). reflexivity.
Qed.

(** X17: The text handed to [literal_eval] for a line has one ['['], its
    first character, and one [']'], its last, and one comma more for every
    [']'] of the line.  A line that is one flat list, a ['['], a body and
    a [']'] followed by the rest of the line, keeps its body, with a comma
    and the rest after it; two [']'] in a row, as at the end of a nested
    list, leave two commas in a row. *)
Theorem as_array_keeps_flat_lists_only :
  forall line : string,
    (exists inner, as_array line = "[" ++ inner ++ "]"
                   /\ count_char "[" inner = 0 /\ count_char "]" inner = 0)
    /\ count_char "," (as_array line) = count_char "," line + count_char "]" line
    /\ (forall body rest,
          line = "[" ++ body ++ "]" ++ rest ->
          count_char "[" (body ++ rest) = 0 -> count_char "]" (body ++ rest) = 0 ->
          as_array line = "[" ++ body ++ "," ++ rest ++ "]")
    /\ (forall before after,
          line = before ++ "]]" ++ after ->
          as_array line = "[" ++ map_chars bracket_char before ++ ",,"
                              ++ map_chars bracket_char after ++ "]").
Proof.
  intros line. rewrite as_array_chars.
  destruct (no_bracket_left line) as [H1 H2].
  split; [exists (map_chars bracket_char line); auto|].
  split.
  { cbn [String.append count_char]. rewrite !count_char_append, commas_added. cbn. lia. }
  split.
  - intros body rest -> Hopen Hclose.
    rewrite count_char_append in Hopen, Hclose.
    change ("[" ++ body ++ "]" ++ rest) with (String "[" (body ++ String "]" rest)).
    cbn [map_chars]. rewrite map_chars_append. cbn [map_chars].
    rewrite !map_chars_plain by lia. cbn. rewrite !append_assoc. reflexivity.
  - intros before after ->. rewrite map_chars_append. cbn [String.append map_chars].
    rewrite !append_assoc. reflexivity.
Qed.

Lemma as_array_keeps_flat_lists_only_witness :
  as_array ("[1, 2]" ++ newline) = "[1, 2," ++ newline ++ "]"
  /\ as_array ("[[1, 2], [3]]" ++ newline) = "[1, 2,, 3,," ++ newline ++ "]".
Proof.
  split.
  - apply (proj1 (proj2 (proj2 (as_array_keeps_flat_lists_only ("[1, 2]" ++ newline))))
             "1, 2" newline eq_refl eq_refl eq_refl).
  - apply (proj2 (proj2 (proj2 (as_array_keeps_flat_lists_only ("[[1, 2], [3]]" ++ newline))))
             "[[1, 2], [3" newline eq_refl).
Defined.
(** X18: The loop over the output file ends at the first line that
    [literal_eval] refuses: its error is the outcome of the cell, whatever
    the lines after it. *)
Theorem download_stops_at_a_malformed_line :
  forall (value : Type) (literal_eval : string -> exn + value) (empty_list : value)
         (output_file : string) (before after : list string) (bad : string)
         (v : value) (e : exn),
    readlines output_file = (before ++ bad :: after)%list ->
    read_results literal_eval before empty_list = inr v ->
    literal_eval (as_array bad) = inl e ->
    download_results literal_eval empty_list output_file = inl e.
Proof.
  intros value literal_eval empty_list output_file before after bad v e Hlines Hbefore Hbad.
  unfold download_results. rewrite Hlines, read_results_app, Hbefore.
  cbn [read_results]. rewrite Hbad. reflexivity.
Qed.

Lemma download_stops_at_a_malformed_line_witness :
  download_results no_x "" ("[1]" ++ newline ++ "[x]" ++ newline ++ "[3]" ++ newline)
  = inl (ValueError "malformed node or string").
Proof.
  exact (@download_stops_at_a_malformed_line string no_x ""
           ("[1]" ++ newline ++ "[x]" ++ newline ++ "[3]" ++ newline)
           ["[1]" ++ newline] ["[3]" ++ newline] ("[x]" ++ newline)
           ("[1," ++ newline ++ "]") (ValueError "malformed node or string")
           eq_refl eq_refl eq_refl).
Defined.

End BatchTransformTextFacts.

(* ===================================================================== *)
(** * Feature store: the table of a search, and the guards on versions    *)
(* ===================================================================== *)

Module FeatureStoreCasesFacts.
Import Py Run RunFacts FeatureStore FeatureStoreCases FeatureStoreFacts.

(** ** The shape of the table *)

Lemma normalize_records_length l : forall attribute records,
  normalize_records attribute l = inr records -> length records = length l.
Proof.
  induction l as [|j l IH]; cbn [normalize_records]; intros attribute records.
  - intros [= <-]. reflexivity.
  - destruct j; try discriminate.
    destruct (flatten_record d); [discriminate|].
    destruct (normalize_records _ l) as [|rs] eqn:E; [discriminate|].
    intros [= <-]. cbn. rewrite (IH _ rs E). reflexivity.
Qed.

Lemma map_labels_length f cols : forall cols',
  map_labels f cols = inr cols' -> length cols' = length cols.
Proof.
  induction cols as [|c cols IH]; cbn; intros cols'.
  - intros [= <-]. reflexivity.
  - destruct (f c); [discriminate|].
    destruct (map_labels f cols) as [|rest]; [discriminate|].
    intros [= <-]. cbn. rewrite (IH rest eq_refl). reflexivity.
Qed.

Lemma drop_entries_length {A} label cols : forall row : list A,
  length row = length cols ->
  length (drop_entries label cols row)
  = length (filter (fun c => negb (c =? label)%string) cols).
Proof.
  induction cols as [|c cols IH]; intros [|x row]; cbn; try discriminate; [reflexivity|].
  intros [= H]. destruct (c =? label)%string; cbn; rewrite (IH row H); reflexivity.
Qed.

Lemma frame_of_records_rectangular records :
  rectangular (length records) (frame_of_records records).
Proof.
  unfold frame_of_records, rectangular. cbn [rows columns]. split.
  - apply length_map.
  - intros row Hrow. apply in_map_iff in Hrow. destruct Hrow as [r [<- _]].
    apply length_map.
Qed.

Lemma rename_rectangular n f df df' :
  rectangular n df -> rename_columns f df = inr df' -> rectangular n df'.
Proof.
  unfold rename_columns. intros [Hn Hrows].
  destruct (map_labels f (columns df)) as [|cols] eqn:E; [discriminate|].
  intros [= <-]. unfold rectangular. cbn [rows columns]. split; [exact Hn|].
  intros row Hrow. rewrite (@map_labels_length f (columns df) cols E). apply Hrows, Hrow.
Qed.

Lemma drop_rectangular n label df df' :
  rectangular n df -> drop label df = inr df' -> rectangular n df'.
Proof.
  unfold drop. intros [Hn Hrows].
  destruct (existsb (String.eqb label) (columns df)); [|discriminate].
  intros [= <-]. unfold rectangular. cbn [rows columns].
  split; [rewrite length_map; exact Hn|].
  intros row Hrow. apply in_map_iff in Hrow. destruct Hrow as [row0 [<- Hrow0]].
  apply drop_entries_length, Hrows, Hrow0.
Qed.

Lemma json_normalize_rectangular l df :
  json_normalize (JList l) = inr df -> rectangular (length l) df.
Proof.
  cbn [json_normalize]. destruct (normalize_records "values" l) as [|records] eqn:E;
    [discriminate|].
  intros [= <-]. rewrite <- (normalize_records_length _ _ E).
  apply frame_of_records_rectangular.
Qed.

(** X19: The table a search returns has one row for each result of the
    response, in which every row has one entry for each column. *)
Theorem search_table_is_rectangular :
  forall (W : Type) (handle : forall c : call, W -> W * (exn + val c))
         (fuel : nat) (w : W) (search_string : string) (response : json)
         (results : list json) (df : DataFrame),
    snd (handle (search_call search_string) w) = inr response ->
    getitem "Results" response = inr (JList results) ->
    out (Run.run handle (S fuel) (search_features_using_string search_string) w) = Done df ->
    length (rows df) = length results
    /\ forall row, In row (rows df) -> length row = length (columns df).
Proof.
  intros W handle fuel w search_string response results df Hresponse Hresults.
  rewrite search_run. cbn zeta. cbn [out]. rewrite Hresponse. unfold table_of.
  rewrite Hresults.
  destruct (json_normalize (JList results)) as [e|df0] eqn:E0; [discriminate|].
  destruct (rename_columns second_part df0) as [e|df1] eqn:E1; [discriminate|].
  destruct (drop "FeatureGroupArn" df1) as [e|df2] eqn:E2; [discriminate|].
  intros [= <-].
  apply (@drop_rectangular (length results) "FeatureGroupArn" df1 df2); [|exact E2].
  apply (@rename_rectangular (length results) second_part df0 df1); [|exact E1].
  apply json_normalize_rectangular, E0.
Qed.

Lemma search_table_is_rectangular_witness :
  let df := {| columns := ["FeatureGroupName"; "FeatureName"; "FeatureType"; "Description"];
               rows := [[Some (JStr "customers"); Some (JStr "is_married"); Some (JStr "String");
                         Some (JStr "boolean value whether the customer is married or not")];
                        [Some (JStr "customers"); Some (JStr "age"); Some (JStr "Integral");
                         Some (JStr "age in years")]] |} in
  length (rows df) = 2 /\ forall row, In row (rows df) -> length row = length (columns df).
Proof.
  exact (@search_table_is_rectangular unit two_features 9 tt "married" _
           [feature "customers" "is_married" "String"
                    "boolean value whether the customer is married or not";
            feature "customers" "age" "Integral" "age in years"]
           _ eq_refl eq_refl eq_refl).
Defined.

(** ** The errors of a search *)

Lemma split_dots_parts s :
  if BatchTransform.occurs "." s
  then exists p q rest, split_dots s = p :: q :: rest
  else exists p, split_dots s = [p].
Proof.
  induction s as [|c s IH]; cbn [BatchTransform.occurs split_dots].
  - exists "". reflexivity.
  - destruct (Ascii.eqb c ".") eqn:E; cbn [orb].
    + destruct (split_dots s) as [|q rest] eqn:Es.
      * destruct (BatchTransform.occurs "." s); [destruct IH as (? & ? & ? & ?)|destruct IH];
          discriminate.
      * exists "", q, rest. reflexivity.
    + destruct (BatchTransform.occurs "." s).
      * destruct IH as (p & q & rest & ->). exists (String c p), q, rest. reflexivity.
      * destruct IH as (p & ->). exists (String c p). reflexivity.
Qed.

Lemma second_part_fails col :
  second_part col = inl IndexError <-> BatchTransform.occurs "." col = false.
Proof.
  unfold second_part. pose proof (split_dots_parts col) as H.
  destruct (BatchTransform.occurs "." col).
  - destruct H as (p & q & rest & ->). split; discriminate.
  - destruct H as (p & ->). split; reflexivity.
Qed.

Lemma second_part_error col e : second_part col = inl e -> e = IndexError.
Proof.
  unfold second_part. destruct (split_dots col) as [|p [|q rest]]; intros [= <-]; reflexivity.
Qed.

Lemma map_labels_fails cols :
  existsb (fun c => negb (BatchTransform.occurs "." c)) cols = true ->
  map_labels second_part cols = inl IndexError.
Proof.
  induction cols as [|c cols IH]; cbn [existsb map_labels]; [discriminate|].
  destruct (second_part c) as [e|p] eqn:Ec.
  - intros _. rewrite (second_part_error _ Ec). reflexivity.
  - destruct (BatchTransform.occurs "." c) eqn:Ed.
    + cbn. intros H. rewrite (IH H). reflexivity.
    + apply second_part_fails in Ed. congruence.
Qed.

(** X20: A response without the key ["Results"] makes the search raise
    [KeyError('Results')]; and when some column of the normalized results
    has a label without a dot, as a field beside ["FeatureMetadata"] gives,
    the search raises [IndexError], from [col.split(".")[1]]. *)
Theorem search_errors :
  forall (W : Type) (handle : forall c : call, W -> W * (exn + val c))
         (fuel : nat) (w : W) (search_string : string) (response : json),
    snd (handle (search_call search_string) w) = inr response ->
    let r := Run.run handle (S fuel) (search_features_using_string search_string) w in
    (forall d, response = JDict d -> lookup "Results" d = None ->
       out r = Raised (KeyError "Results"))
    /\ (forall results df,
          getitem "Results" response = inr results ->
          json_normalize results = inr df ->
          existsb (fun c => negb (BatchTransform.occurs "." c)) (columns df) = true ->
          out r = Raised IndexError).
Proof.
  intros W handle fuel w search_string response Hresponse r. subst r.
  rewrite search_run. cbn zeta. cbn [out]. rewrite Hresponse. unfold table_of. split.
  - intros d -> Hd. cbn [getitem]. rewrite Hd. reflexivity.
  - intros results df Hresults Hdf Hcol. rewrite Hresults, Hdf.
    unfold rename_columns. rewrite (map_labels_fails _ Hcol). reflexivity.
Qed.

Lemma search_errors_witness :
  out (Run.run no_results_key 10 (search_features_using_string "age") tt)
  = Raised (KeyError "Results")
  /\ out (Run.run with_score 10 (search_features_using_string "age") tt)
     = Raised IndexError.
Proof.
  split.
  - exact (proj1 (@search_errors unit no_results_key 9 tt "age" _ eq_refl)
                 [("NextToken", JStr "t")] eq_refl eq_refl).
  - refine (proj2 (@search_errors unit with_score 9 tt "age" _ eq_refl) _ _ eq_refl eq_refl _).
    reflexivity.
Defined.

(** ** The guards and the numeric reading of versions *)

Ltac digit_cases n H :=
  destruct n as [|[|[|[|[|[|[|[|[|[|n]]]]]]]]]]; [| | | | | | | | | |exfalso; lia]; clear H.

Lemma digit_value_digit n : n < 10 -> digit_value (digit n) = Some n.
Proof. intros H. digit_cases n H; reflexivity. Qed.

Lemma digit_is_no_dot n : n < 10 -> Ascii.eqb (digit n) "." = false.
Proof. intros H. digit_cases n H; reflexivity. Qed.

Lemma components_1_2_1 a b c d :
  a < 10 -> b < 10 -> c < 10 -> d < 10 ->
  components (version_1_2_1 a b c d) = Some [a; 10 * b + c; d].
Proof.
  intros Ha Hb Hc Hd. unfold components, version_1_2_1. cbn [components_from].
  rewrite !digit_is_no_dot, !digit_value_digit by assumption.
  cbn [Ascii.eqb Bool.eqb components_from option_map]. do 3 f_equal; lia.
Qed.

Lemma components_1_2_2 a b c d e :
  a < 10 -> b < 10 -> c < 10 -> d < 10 -> e < 10 ->
  components (version_1_2_2 a b c d e) = Some [a; 10 * b + c; 10 * d + e].
Proof.
  intros Ha Hb Hc Hd He. unfold components, version_1_2_2. cbn [components_from].
  rewrite !digit_is_no_dot, !digit_value_digit by assumption.
  cbn [Ascii.eqb Bool.eqb components_from option_map]. do 3 f_equal; lia.
Qed.

Lemma text_1_2_1 a b c d :
  a < 10 -> b < 10 -> c < 10 -> d < 10 ->
  (version_1_2_1 a b c d <? "2.48.1")%string
  = numerically_below [a; 10 * b + c; d] [2; 48; 1].
Proof.
  intros Ha Hb Hc Hd.
  digit_cases a Ha; try reflexivity.
  digit_cases b Hb; digit_cases c Hc; try reflexivity.
  digit_cases d Hd; reflexivity.
Qed.

Lemma text_1_2_2 a b c d e :
  a < 10 -> b < 10 -> c < 10 -> d < 10 -> e < 10 ->
  (version_1_2_2 a b c d e <? "1.24.23")%string
  = numerically_below [a; 10 * b + c; 10 * d + e] [1; 24; 23].
Proof.
  intros Ha Hb Hc Hd He.
  digit_cases a Ha; try reflexivity.
  digit_cases b Hb; digit_cases c Hc; try reflexivity.
  digit_cases d Hd; digit_cases e He; reflexivity.
Qed.

(** X21: On an installed version of the shape of the bound, one digit,
    two digits, one digit for [sagemaker] and one, two, two for [boto3],
    the guard installs again exactly when the version is below the bound
    as a number. *)
Theorem version_guards_are_right_on_same_shape :
  forall (exe : string) (W : Type) (handle : forall c : call, W -> W * (exn + val c))
         (fuel : nat) (w : W) (a b c d e : nat),
    a < 10 -> b < 10 -> c < 10 -> d < 10 -> e < 10 ->
    let first_call t := hd_error (calls (Run.run handle (S fuel) t w)) in
    (version_below (version_1_2_1 a b c d) "2.48.1"
     = Some (numerically_below [a; 10 * b + c; d] [2; 48; 1])
     /\ first_call (sagemaker_guard exe (version_1_2_1 a b c d))
        = if numerically_below [a; 10 * b + c; d] [2; 48; 1]
          then Some (CheckCall [exe; "-m"; "pip"; "install"; "sagemaker==2.48.1"])
          else None)
    /\ (version_below (version_1_2_2 a b c d e) "1.24.23"
        = Some (numerically_below [a; 10 * b + c; 10 * d + e] [1; 24; 23])
        /\ first_call (boto3_guard exe (version_1_2_2 a b c d e))
           = if numerically_below [a; 10 * b + c; 10 * d + e] [1; 24; 23]
             then Some (CheckCall [exe; "-m"; "pip"; "install"; "boto3==1.24.23"])
             else None).
Proof.
  intros exe W handle fuel w a b c d e Ha Hb Hc Hd He first_call. split.
  - unfold version_below. rewrite components_1_2_1 by assumption.
    split; [reflexivity|].
    unfold first_call. rewrite sagemaker_guard_first_call, text_1_2_1 by assumption.
    reflexivity.
  - unfold version_below. rewrite components_1_2_2 by assumption.
    split; [reflexivity|].
    unfold first_call. rewrite boto3_guard_first_call, text_1_2_2 by assumption.
    reflexivity.
Qed.

Lemma version_guards_are_right_on_same_shape_witness :
  hd_error (calls (Run.run no_match 5 (sagemaker_guard "python" "2.47.9") tt))
  = Some (CheckCall ["python"; "-m"; "pip"; "install"; "sagemaker==2.48.1"])
  /\ hd_error (calls (Run.run no_match 5 (boto3_guard "python" "1.24.23") tt)) = None.
Proof.
  destruct (@version_guards_are_right_on_same_shape "python" unit no_match 4 tt 2 4 7 9 0)
    as [[_ Hs] _]; try lia.
  destruct (@version_guards_are_right_on_same_shape "python" unit no_match 4 tt 1 2 4 2 3)
    as [_ [_ Hb]]; try lia.
  split; [exact Hs|exact Hb].
Defined.

End FeatureStoreCasesFacts.

(* ===================================================================== *)
(** * Asynchronous inference: the pace of the polling loop                *)
(* ===================================================================== *)

Module AsyncInferencePaceFacts.
Import Py Run RunFacts AsyncInference AsyncInferencePace.

Section Pace.

Variable urlparse : string -> ParseResult.
Variable location : string.

Abbreviation event := (Run.event val).
Abbreviation round := (AsyncInferencePace.round urlparse location).
Abbreviation polling := (AsyncInferencePace.polling urlparse location).

Abbreviation at_call := (AsyncInferencePace.at_call urlparse location).
Abbreviation in_pace := (AsyncInferencePace.in_pace urlparse location).

Abbreviation triple := (@Run.triple call val in_pace).

Lemma at_call_in_pace k n h : at_call k n h -> in_pace h.
Proof. intros H. exists k, n. exact H. Qed.

Lemma polling_next k n c x h :
  nth_error round n = Some c ->
  at_call k n h -> at_call k (S n) (h ++ [existT _ c x]).
Proof.
  unfold AsyncInferencePace.at_call, AsyncInferencePace.polling. intros Hc Hh.
  rewrite map_app, Hh, <- app_assoc. f_equal. cbn [List.map call_of projT1].
  destruct n as [|[|[|n]]]; cbn in Hc; [| | |destruct n; discriminate];
    injection Hc as <-; reflexivity.
Qed.

Lemma rounds_commute {A} (r : list A) k :
  (List.concat (repeat r k) ++ r)%list = (r ++ List.concat (repeat r k))%list.
Proof.
  induction k as [|k IH]; cbn [repeat List.concat].
  - rewrite app_nil_r. reflexivity.
  - rewrite <- app_assoc, IH. reflexivity.
Qed.

Lemma polling_round k h : at_call k 3 h -> at_call (S k) 0 h.
Proof.
  unfold AsyncInferencePace.at_call, AsyncInferencePace.polling. intros ->.
  cbn [firstn repeat List.concat]. rewrite app_nil_r.
  apply (rounds_commute round k).
Qed.

Lemma pace_call k n c :
  nth_error round n = Some c ->
  triple (at_call k n) (Run.invoke c) (fun _ => at_call k (S n)).
Proof.
  intros Hc. apply triple_invoke.
  - intros h H. eapply at_call_in_pace; eauto.
  - intros h e H. eapply at_call_in_pace, polling_next; eauto.
  - intros h v H. split; [eapply at_call_in_pace|]; eapply polling_next; eauto.
Qed.

Lemma get_output_pace :
  triple (at_call 0 0) (get_output urlparse location) (fun _ => in_pace).
Proof.
  unfold get_output. cbn zeta.
  apply (@triple_conseq call val in_pace _ (fun h => exists k, at_call k 0 h) _ _
           (fun _ => in_pace)); [intros h H; exists 0; exact H| |auto].
  apply (@triple_iter call val in_pace unit string (poll (urlparse location))
           (fun _ h => exists k, at_call k 0 h) (fun _ => in_pace)).
  - intros _ h [k H]. eapply at_call_in_pace; eauto.
  - intros [] W handle fuel w h0 [k H].
    revert W handle fuel w h0 H.
    change (triple (at_call k 0) (poll (urlparse location) tt)
              (fun lr h => match lr with
                           | inl _ => exists k, at_call k 0 h
                           | inr _ => in_pace h
                           end)).
    unfold poll, print.
    refine (@triple_bind call val in_pace _ _ _ _ _ (fun _ => at_call k 1) _ _ _).
    { apply triple_try_call.
      - intros h H. eapply at_call_in_pace; eauto.
      - intros h x H. split; [eapply at_call_in_pace|]; eapply polling_next; eauto;
          reflexivity. }
    intros [[code| | | | |]|contents];
      try (apply triple_raise; intros h H; eapply at_call_in_pace; eauto).
    + destruct (code =? NoSuchKey)%string;
        [|apply triple_raise; intros h H; eapply at_call_in_pace; eauto].
      refine (@triple_bind call val in_pace _ _ _ _ _ (fun _ => at_call k 2) _
                (@pace_call k 1 (Print "waiting for output...") eq_refl) _).
      intros _.
      refine (@triple_bind call val in_pace _ _ _ _ _ (fun _ => at_call k 3) _
                (@pace_call k 2 (Sleep (2 # 1)) eq_refl) _).
      intros _. apply triple_ret. intros h H.
      split; [eapply at_call_in_pace; eauto|]. exists (S k). apply polling_round, H.
    + apply triple_ret. intros h H. split; eapply at_call_in_pace; eauto.
Qed.

End Pace.

(** X22: In every world and however far it gets, [get_output] makes the
    calls of a polling loop and no other: a read of the output object,
    then, as long as it goes on, the print, the sleep of 2 seconds and the
    next read of the same object.  It never reads twice without sleeping
    in between. *)
Theorem get_output_is_paced :
  forall (urlparse : string -> ParseResult) (location : string)
         (W : Type) (handle : forall c : call, W -> W * (exn + val c))
         (fuel : nat) (w : W),
    exists k n,
      calls (Run.run handle fuel (get_output urlparse location) w)
      = (List.concat (repeat [ReadS3File (netloc (urlparse location))
                                         (slice_from 1 (path (urlparse location)));
                              Print "waiting for output..."; Sleep (2 # 1)] k)
         ++ firstn n [ReadS3File (netloc (urlparse location))
                                 (slice_from 1 (path (urlparse location)));
                      Print "waiting for output..."; Sleep (2 # 1)])%list.
Proof.
  intros urlparse location W handle fuel w.
  destruct (@get_output_pace urlparse location W handle fuel w [] eq_refl) as [[k [n H]] _].
  exists k, n. exact H.
Qed.

End AsyncInferencePaceFacts.

(* ===================================================================== *)
(** * Inference pipeline notebook: from the data to the deployment        *)
(* ===================================================================== *)

Module InferencePipelineTraceFacts.
Import Py Run RunFacts InferencePipeline InferencePipelineTrace.

(** X23: A run of the pipeline notebook that reaches the end of the
    deployment cell has made these calls and no other, in this order,
    each fed with what the earlier ones returned: the training file is
    uploaded to the default bucket; the scikit-learn preprocessor is
    fitted on the uploaded file; a transformer made from it transforms the
    same file; the linear learner, with the image retrieved for the
    region of the session and its output path in the default bucket, is
    fitted on the output path of that transformer; then the two models are
    created and deployed. *)
Theorem pipeline_trains_on_the_transformed_data :
  forall (W : Type) (handle : forall c : call, W -> W * (exn + val c))
         (fuel : nat) (w : W) (ep : string),
    let r := Run.run handle fuel train_and_deploy w in
    out r = Done ep ->
    exists x1 x2 x3 role bucket train_input transformer job_name preprocessed_train
           region ll_image timestamp m1 m2,
      let sklearn_preprocessor := make_sklearn_preprocessor role in
      let ll_estimator := make_ll_estimator ll_image role bucket in
      ep = "inference-pipeline-ep-" ++ timestamp
      /\ trace r =
         [ran "pip install -U sagemaker" x1;
          answered GetExecutionRole role;
          answered DefaultBucket bucket;
          ran "mkdir abalone_data" x2;
          ran "aws s3 cp s3://sagemaker-sample-files/datasets/tabular/uci_abalone/abalone.csv ./abalone_data" x3;
          answered (UploadData "abalone_data/abalone.csv" bucket
                               "Scikit-LinearLearner-pipeline-abalone-example/train")
                   train_input;
          answered (FitPath sklearn_preprocessor "train" train_input) tt;
          answered (MakeTransformer sklearn_preprocessor 1 "ml.m5.xlarge" "Line" "text/csv")
                   transformer;
          answered (Transform transformer train_input "text/csv") tt;
          answered (LatestJobName transformer) job_name;
          answered (Print ("Waiting for transform job: " ++ job_name)) tt;
          answered (Wait transformer) tt;
          answered (OutputPath transformer) preprocessed_train;
          answered RegionName region;
          answered (ImageUrisRetrieve "linear-learner" region) ll_image;
          answered (FitInput ll_estimator "train"
                             {| s3_data := preprocessed_train;
                                distribution := "FullyReplicated";
                                content_type := "text/csv";
                                s3_data_type := "S3Prefix" |} true) tt;
          answered (Strftime "%Y-%m-%d-%H-%M-%S") timestamp;
          answered (CreateModel sklearn_preprocessor) m1;
          answered (CreateModel ll_estimator) m2;
          answered (DeployPipeline {| name := "inference-pipeline-" ++ timestamp;
                                      role := role; models := [m1; m2] |}
                                   1 "ml.c4.xlarge" ("inference-pipeline-ep-" ++ timestamp)) tt].
Proof.
  intros W handle fuel w ep. cbn zeta.
  unfold train_and_deploy, build_pipeline, shell, print. cbn zeta.
  repeat (exec_norm; exec_call; cbn [out after_event]; try discriminate).
  exec_norm. cbn [out after_event trace]. intros [= <-].
  repeat match goal with
         | x : val ?c |- _ =>
             let t := eval cbv in (val c) in
             lazymatch t with unit => destruct x end
         end.
  do 14 eexists. split; reflexivity.
Qed.

Lemma pipeline_trains_on_the_transformed_data_witness :
  exists x1 x2 x3 role bucket train_input transformer job_name preprocessed_train
         region ll_image timestamp m1 m2,
    "inference-pipeline-ep-2024-01-01-00-00-00" = "inference-pipeline-ep-" ++ timestamp
    /\ trace (Run.run obliging 100 train_and_deploy tt) =
       [ran "pip install -U sagemaker" x1;
        answered GetExecutionRole role;
        answered DefaultBucket bucket;
        ran "mkdir abalone_data" x2;
        ran "aws s3 cp s3://sagemaker-sample-files/datasets/tabular/uci_abalone/abalone.csv ./abalone_data" x3;
        answered (UploadData "abalone_data/abalone.csv" bucket
                             "Scikit-LinearLearner-pipeline-abalone-example/train")
                 train_input;
        answered (FitPath (make_sklearn_preprocessor role) "train" train_input) tt;
        answered (MakeTransformer (make_sklearn_preprocessor role) 1 "ml.m5.xlarge" "Line"
                                  "text/csv")
                 transformer;
        answered (Transform transformer train_input "text/csv") tt;
        answered (LatestJobName transformer) job_name;
        answered (Print ("Waiting for transform job: " ++ job_name)) tt;
        answered (Wait transformer) tt;
        answered (OutputPath transformer) preprocessed_train;
        answered RegionName region;
        answered (ImageUrisRetrieve "linear-learner" region) ll_image;
        answered (FitInput (make_ll_estimator ll_image role bucket) "train"
                           {| s3_data := preprocessed_train;
                              distribution := "FullyReplicated";
                              content_type := "text/csv";
                              s3_data_type := "S3Prefix" |} true) tt;
        answered (Strftime "%Y-%m-%d-%H-%M-%S") timestamp;
        answered (CreateModel (make_sklearn_preprocessor role)) m1;
        answered (CreateModel (make_ll_estimator ll_image role bucket)) m2;
        answered (DeployPipeline {| name := "inference-pipeline-" ++ timestamp;
                                    role := role; models := [m1; m2] |}
                                 1 "ml.c4.xlarge" ("inference-pipeline-ep-" ++ timestamp)) tt].
Proof.
  exact (@pipeline_trains_on_the_transformed_data unit obliging 100 tt
           "inference-pipeline-ep-2024-01-01-00-00-00" eq_refl).
Defined.

End InferencePipelineTraceFacts.
